(** * easy-node-logging: a shallow embedding of [src/index.js]

    The embedding follows the current [index.js] (the one whose
    [createLogger] takes [component], [source] and [sourceColor]).

    - JavaScript values are a small universe [jsval]; numbers are the
      integers plus [NaN] (fractions and the infinities are left out).
      An integer stands for a JavaScript number up to [2^53 - 1] in
      magnitude (the safe integers): there every integer is a number and
      prints with all its decimal digits, which is how [prim_string]
      prints.  Statements that quote a printed number are made for safe
      integers.
    - [fs.createWriteStream] validates a path before it opens anything;
      what it throws for a path is a field of the process, [fs_refuses].
    - Synchronous code that mutates [this] or the process (open streams)
      is written in a state-and-exception monad [M S]: an exception keeps
      the state reached when it was thrown.
    - [postRequest] is the fold of its handlers over the events node
      reports about the request.
    - The asynchronous dispatcher [_log] returns the tree of the target
      operations it started.  What a sink answers, how long it takes and
      whether the factory was destroyed in the meantime are read from an
      environment [Env], keyed by the attempt.  [Promise.all] is given
      its settlement rule over logical time. *)

From Stdlib Require Import ZArith String Ascii List Bool Lia HexadecimalString.
From Stdlib Require HexadecimalPos HexadecimalFacts.
From stdpp Require Import base list strings pretty.
Import ListNotations.
Local Open Scope Z_scope.
Local Open Scope string_scope.
Set Warnings "-register-all".

(** ** JavaScript values *)

Inductive prim : Type :=
| PUndefined
| PNull
| PBool (b : bool)
| PNum (n : Z)
| PNaN
| PStr (s : string).

Inductive jsval : Type :=
| JPrim (p : prim)
| JArr (items : list jsval)
| JObj (fields : list (string * jsval))
| JError (name message stack : string).

Coercion JPrim : prim >-> jsval.

Definition JUndefined : jsval := JPrim PUndefined.
Definition JNull : jsval := JPrim PNull.
Definition JStr (s : string) : jsval := JPrim (PStr s).
Definition JNum (n : Z) : jsval := JPrim (PNum n).

(** [ToBoolean] on primitives: the falsy ones are [undefined], [null],
    [false], [0], [NaN] and the empty string. *)
Definition truthy (p : prim) : bool :=
  match p with
  | PUndefined | PNull | PNaN => false
  | PBool b => b
  | PNum n => negb (Z.eqb n 0)
  | PStr s => negb (String.eqb s "")
  end.

(** Objects, arrays and errors are always truthy. *)
Definition js_truthy (v : jsval) : bool :=
  match v with
  | JPrim p => truthy p
  | _ => true
  end.

(** [ToString], as used by template literals and property keys.  A
    number prints with its decimal digits, as JavaScript prints the safe
    integers (from [1e21] up JavaScript turns to exponent form). *)
Definition prim_string (p : prim) : string :=
  match p with
  | PUndefined => "undefined"
  | PNull => "null"
  | PBool true => "true"
  | PBool false => "false"
  | PNum n => pretty n
  | PNaN => "NaN"
  | PStr s => s
  end.

Fixpoint js_string (v : jsval) : string :=
  match v with
  | JPrim p => prim_string p
  | JArr items =>
      String.concat ","
        (map (fun x => match x with
                       | JPrim PUndefined | JPrim PNull => ""
                       | _ => js_string x
                       end) items)
  | JObj _ => "[object Object]"
  | JError name message _ =>
      if String.eqb message "" then name else name +:+ ": " +:+ message
  end.

(** ** String helpers of the JavaScript standard library *)

Fixpoint spaces (n : nat) (c : ascii) : string :=
  match n with
  | O => ""
  | S k => String c (spaces k c)
  end.

(** [s.padEnd(n)]; a target length that is not positive pads nothing. *)
Definition padEnd (s : string) (n : Z) : string :=
  s +:+ spaces (Z.to_nat n - String.length s) " ".

(** [s.padStart(n, "0")]. *)
Definition padStart0 (s : string) (n : nat) : string :=
  spaces (n - String.length s) "0" +:+ s.

Definition newline : ascii := "010"%char.

(** [s.split("\n").join("\n" + prefix)]: every newline is followed by
    the prefix. *)
Fixpoint rejoin_lines (s prefix : string) : string :=
  match s with
  | EmptyString => ""
  | String c rest =>
      if Ascii.eqb c newline
      then String c (prefix +:+ rejoin_lines rest prefix)
      else String c (rejoin_lines rest prefix)
  end.

(** [n.toString(16)] for a non-negative integer. *)
Definition toString16 (n : Z) : string :=
  NilZero.string_of_uint (N.to_hex_uint (Z.to_N n)).

Definition is_hex_digit (c : ascii) : bool :=
  let n := nat_of_ascii c in
  (Nat.leb 48 n && Nat.leb n 57)
  || (Nat.leb 65 n && Nat.leb n 70)
  || (Nat.leb 97 n && Nat.leb n 102).

(** [/^[0-9a-fA-F]{6}$/.test(s)] *)
Definition is_hex6 (s : string) : bool :=
  Nat.eqb (String.length s) 6 && forallb is_hex_digit (list_ascii_of_string s).

(** ** Exceptions and the state-and-exception monad *)

Inductive result (A : Type) : Type :=
| Ok (a : A)
| Throw (e : jsval).
Arguments Ok {A} a.
Arguments Throw {A} e.

Definition new_Error (msg : string) : jsval := JError "Error" msg "".
Definition new_TypeError (msg : string) : jsval := JError "TypeError" msg "".
Definition new_RangeError (msg : string) : jsval := JError "RangeError" msg "".

Definition M (S A : Type) : Type := S -> S * result A.

Definition ret {S A} (a : A) : M S A := fun s => (s, Ok a).
Definition throw {S A} (e : jsval) : M S A := fun s => (s, Throw e).
Definition bind {S A B} (m : M S A) (k : A -> M S B) : M S B :=
  fun s => match m s with
           | (s', Ok a) => k a s'
           | (s', Throw e) => (s', Throw e)
           end.
Definition get {S} : M S S := fun s => (s, Ok s).
Definition lift {S A} (r : result A) : M S A := fun s => (s, r).

Declare Scope js_scope.
Delimit Scope js_scope with js.
Notation "x <- m ;; k" := (bind m (fun x => k))
  (at level 100, m at next level, right associativity) : js_scope.
Notation "m ;;; k" := (bind m (fun _ => k))
  (at level 100, right associativity) : js_scope.

(** ** The level table *)

Definition levels (level : Z) : option string :=
  match level with
  | 1 => Some "FATAL"
  | 2 => Some "ERROR"
  | 3 => Some "WARN"
  | 4 => Some "INFO"
  | 5 => Some "DEBUG"
  | 6 => Some "TRACE"
  | _ => None
  end.

Module levelNums.
Definition FATAL : Z := 1.
Definition ERROR : Z := 2.
Definition WARN : Z := 3.
Definition INFO : Z := 4.
Definition DEBUG : Z := 5.
Definition TRACE : Z := 6.
End levelNums.

(** [levelNums] is an object literal, so a property read that misses its
    six own keys goes on to [Object.prototype]. *)
Definition Object_prototype_keys : list string :=
  [ "constructor"; "__defineGetter__"; "__defineSetter__"; "hasOwnProperty";
    "__lookupGetter__"; "__lookupSetter__"; "isPrototypeOf";
    "propertyIsEnumerable"; "toString"; "valueOf"; "__proto__";
    "toLocaleString" ].

(** What a target's [level] field can hold: a rank, or a member inherited
    from [Object.prototype] (a function or an object, never a number). *)
Inductive level_val : Type :=
| LNum (n : Z)
| LInherited (key : string).

Definition six_names : list (string * Z) :=
  [ ("FATAL", levelNums.FATAL); ("ERROR", levelNums.ERROR);
    ("WARN", levelNums.WARN); ("INFO", levelNums.INFO);
    ("DEBUG", levelNums.DEBUG); ("TRACE", levelNums.TRACE) ].

Fixpoint assoc {A} (key : string) (l : list (string * A)) : option A :=
  match l with
  | [] => None
  | (k, v) :: rest => if String.eqb k key then Some v else assoc key rest
  end.

(** [levelNums[key]]; [None] is [undefined]. *)
Definition levelNums_get (key : string) : option level_val :=
  match assoc key six_names with
  | Some n => Some (LNum n)
  | None =>
      if existsb (String.eqb key) Object_prototype_keys
      then Some (LInherited key)
      else None
  end.

(** [v.level < level]: a comparison with a non-number goes through [NaN]
    and is false. *)
Definition level_lt (l : level_val) (level : Z) : bool :=
  match l with
  | LNum m => Z.ltb m level
  | LInherited _ => false
  end.

(** ** Targets and target descriptors *)

Inductive format_style : Type := JSON | TEXT.
Inductive policy : Type := THROW | LOG | IGNORE.

Inductive callable : Type :=
| console_log
| user_function (id : nat).

Definition js_object : Type := list (string * jsval).

(** The internal target record, [ParsedTarget] of the type declarations:
    a kind with its payload, and the shared options [level], [color],
    [uniform], [format], [fullTimestamps] and [errorPolicy] (prefixed
    [t_] here, as the functions below use the plain names). *)
Inductive target_kind : Type :=
| STREAM (stream : nat) (private : bool)
| FUNCTION (func : callable)
| HTTP (url : string) (options : js_object)
| HTTPS (url : string) (options : js_object).

Record BaseOptions : Type := {
  t_level : level_val;
  t_color : bool;
  t_uniform : bool;
  t_format : format_style;
  t_fullTimestamps : bool;
  t_errorPolicy : policy
}.

Record ParsedTarget : Type := {
  kind : target_kind;
  base : BaseOptions
}.

(** [{ ...v, errorPolicy: p }] *)
Definition with_errorPolicy (p : policy) (v : ParsedTarget) : ParsedTarget :=
  {| kind := kind v;
     base := {| t_level := t_level (base v);
                t_color := t_color (base v);
                t_uniform := t_uniform (base v);
                t_format := t_format (base v);
                t_fullTimestamps := t_fullTimestamps (base v);
                t_errorPolicy := p |} |}.

(** The descriptor a caller supplies.  The option fields hold whatever
    the caller wrote; the flags are booleans when present. *)
Record BaseTarget : Type := {
  d_logLevel : prim;
  d_style : prim;
  d_uniformLength : option bool;
  d_color : option bool;
  d_fullTimestamps : option bool;
  d_errorPolicy : prim
}.

Inductive path_like : Type :=
| PathString (s : string)
| PathBuffer (id : nat)
| PathURL (href : string)
| PathOther (v : jsval).

Inductive stream_arg : Type :=
| WriteStream (id : nat)
| NotAWriteStream (v : jsval).

Inductive function_arg : Type :=
| AFunction (f : callable)
| NotAFunction (v : jsval).

Inductive Target : Type :=
| FileTarget (path : path_like) (failIfExists : bool)
    (errorListener : option callable) (opts : BaseTarget)
| StreamTarget (stream : stream_arg) (opts : BaseTarget)
| PostTarget (url : string) (https : option bool)
    (options : option js_object) (opts : BaseTarget)
| StdOutTarget (opts : BaseTarget)
| FunctionTarget (function : function_arg) (opts : BaseTarget)
| OtherTarget (type : prim) (opts : BaseTarget).

(** ** Target normalization *)

Definition is_undefined {A} (o : option A) : bool :=
  match o with
  | None => true
  | Some _ => false
  end.

Definition logLevelNum (level : prim) : result level_val :=
  if truthy level && is_undefined (levelNums_get (prim_string level))
  then Throw (new_TypeError
         ("log level must be one of 'TRACE', 'DEBUG', 'INFO', 'WARN', 'ERROR', 'FATAL'. Received "
          +:+ prim_string level +:+ " instead"))
  else Ok (match levelNums_get (prim_string level) with
           | Some v => v
           | None => LNum levelNums.TRACE
           end).

Definition prim_is (p : prim) (s : string) : bool :=
  match p with
  | PStr x => String.eqb x s
  | _ => false
  end.

Definition nullish (p : prim) : bool :=
  match p with
  | PUndefined | PNull => true
  | _ => false
  end.

Definition logStyle (style : prim) : result format_style :=
  if prim_is style "JSON" then Ok JSON
  else if prim_is style "TEXT" then Ok TEXT
  else if nullish style then Ok TEXT
  else Throw (new_TypeError "log style must be one of 'JSON', 'TEXT'").

Definition errorPolicy (p : prim) : result policy :=
  if prim_is p "THROW" then Ok THROW
  else if prim_is p "LOG" then Ok LOG
  else if prim_is p "IGNORE" then Ok IGNORE
  else if nullish p then Ok LOG
  else Throw (new_TypeError
         "error policy must be one of 'THROW', 'LOG' or 'IGNORE'").

Definition result_bind {A B} (r : result A) (k : A -> result B) : result B :=
  match r with
  | Ok a => k a
  | Throw e => Throw e
  end.

(** [x || false] for an optional boolean flag. *)
Definition or_false (o : option bool) : bool :=
  match o with
  | Some b => b
  | None => false
  end.

Definition baseTargetOptions (target : BaseTarget) : result BaseOptions :=
  result_bind (logLevelNum (d_logLevel target)) (fun lv =>
  result_bind (logStyle (d_style target)) (fun st =>
  result_bind (errorPolicy (d_errorPolicy target)) (fun ep =>
  Ok {| t_level := lv;
        t_color := or_false (d_color target);
        t_uniform := or_false (d_uniformLength target);
        t_format := st;
        t_fullTimestamps := or_false (d_fullTimestamps target);
        t_errorPolicy := ep |}))).

(** ** The process: open streams and what was done to them *)

Inductive effect : Type :=
| createWriteStream (stream : nat) (path : path_like) (flags : string)
| stream_on_error (stream : nat) (listener : callable)
| stream_destroy (stream : nat)
| stream_write (stream : nat) (data : string)
| func_call (func : callable) (content : option string)
| request_send (https : bool) (url : string) (options : js_object)
    (body : option string).

(** The process.  [fs_refuses] is what [fs.createWriteStream] throws
    for a path before it opens anything, if it throws: node validates the
    path first (a string or Buffer holding a NUL byte, a URL that is no
    file URL are refused with a TypeError). *)
Record World : Type := {
  homedir : string;
  fs_refuses : path_like -> option jsval;
  next_stream : nat;
  history : list effect
}.

Definition perform (e : effect) : M World unit :=
  fun w => ({| homedir := homedir w;
               fs_refuses := fs_refuses w;
               next_stream := next_stream w;
               history := (history w ++ [e])%list |}, Ok tt).

Definition fresh_stream : M World nat :=
  fun w => ({| homedir := homedir w;
               fs_refuses := fs_refuses w;
               next_stream := S (next_stream w);
               history := history w |}, Ok (next_stream w)).

(** [s.split("\\").join("/")] *)
Fixpoint slashes (s : string) : string :=
  match s with
  | EmptyString => ""
  | String c rest =>
      String (if Ascii.eqb c "\"%char then "/"%char else c) (slashes rest)
  end.

(** [s.slice(1)] *)
Definition slice1 (s : string) : string :=
  match s with
  | EmptyString => ""
  | String _ rest => rest
  end.

Definition createStream (path : path_like) (failIfExists : bool) : M World nat :=
  (path' <- match path with
            | PathString s =>
                w <- get ;;
                let s1 := slashes s in
                ret (PathString
                       (if String.prefix "~/" s1
                        then slashes (homedir w) +:+ slice1 s1
                        else s1))
            | PathBuffer _ | PathURL _ => ret path
            | PathOther _ => throw (new_Error "path must be a string")
            end ;;
   w <- get ;;
   match fs_refuses w path' with
   | Some e => throw e
   | None =>
       stream <- fresh_stream ;;
       perform (createWriteStream stream path'
                  (if failIfExists then "ax" else "a")) ;;;
       ret stream
   end)%js.

Definition postOptions : js_object := [ ("method", JStr "POST") ].

(** [{ ...a, ...b }]: the keys of [b] win. *)
Definition spread (a b : js_object) : js_object :=
  (List.filter (fun kv => is_undefined (assoc (fst kv) b)) a ++ b)%list.

Definition parseTarget (target : Target) : M World ParsedTarget :=
  (match target with
   | FileTarget path failIfExists errorListener opts =>
       stream <- createStream path failIfExists ;;
       match errorListener with
       | Some l => perform (stream_on_error stream l)
       | None => ret tt
       end ;;;
       b <- lift (baseTargetOptions opts) ;;
       ret {| kind := STREAM stream true; base := b |}
   | StreamTarget stream opts =>
       match stream with
       | NotAWriteStream _ => throw (new_Error "stream must be a WriteStream")
       | WriteStream id =>
           b <- lift (baseTargetOptions opts) ;;
           ret {| kind := STREAM id false; base := b |}
       end
   | PostTarget url https options opts =>
       let o := match options with
                | Some o => spread o postOptions
                | None => postOptions
                end in
       b <- lift (baseTargetOptions opts) ;;
       ret {| kind := if default true https then HTTPS url o else HTTP url o;
              base := b |}
   | StdOutTarget opts =>
       b <- lift (baseTargetOptions opts) ;;
       ret {| kind := FUNCTION console_log; base := b |}
   | FunctionTarget function opts =>
       match function with
       | NotAFunction _ => throw (new_Error "function must be a Function")
       | AFunction f =>
           b <- lift (baseTargetOptions opts) ;;
           ret {| kind := FUNCTION f; base := b |}
       end
   | OtherTarget type _ =>
       throw (new_TypeError ("Invalid target type: " +:+ prim_string type))
   end)%js.

(** The [for ... of] loop that fills [parsedTargets]. *)
Fixpoint parseTargets (targets : list Target) : M World (list ParsedTarget) :=
  match targets with
  | [] => ret []
  | t :: rest =>
      (p <- parseTarget t ;;
       ps <- parseTargets rest ;;
       ret (p :: ps))%js
  end.

(** ** The classes [LoggerFactory] and [Logger] *)

Record LoggerFactory : Type := {
  targets : option (list ParsedTarget);   (* [None] is [null] *)
  maxSourceLength : Z;
  destroyed : bool
}.

(** A logger's [color] is [chalk.hex(c)] for a validated hex string [c],
    or [noColor].  Its [manager] field refers to the factory object; the
    methods below read that object through the state they are run in. *)
Record Logger : Type := {
  component : string;
  source : option string;
  logger_color : option string
}.

Definition new_LoggerFactory (ts : list ParsedTarget) : LoggerFactory :=
  {| targets := Some ts; maxSourceLength := 0; destroyed := false |}.

Definition new_Logger (c : string) (s : option string) (col : option string)
  : Logger :=
  {| component := c; source := s; logger_color := col |}.

Inductive targets_arg : Type :=
| OneTarget (t : Target)
| ManyTargets (ts : list Target).

Definition createLoggerFactory (arg : targets_arg) : M World LoggerFactory :=
  (let ts := match arg with
             | ManyTargets ts => ts
             | OneTarget t => [t]
             end in
   parsedTargets <- parseTargets ts ;;
   ret (new_LoggerFactory parsedTargets))%js.

Definition set_maxSourceLength (n : Z) : M LoggerFactory unit :=
  fun this => ({| targets := targets this;
                  maxSourceLength := n;
                  destroyed := destroyed this |}, Ok tt).

Definition set_destroyed (b : bool) : M LoggerFactory unit :=
  fun this => ({| targets := targets this;
                  maxSourceLength := maxSourceLength this;
                  destroyed := b |}, Ok tt).

Definition set_targets (ts : option (list ParsedTarget)) : M LoggerFactory unit :=
  fun this => ({| targets := ts;
                  maxSourceLength := maxSourceLength this;
                  destroyed := destroyed this |}, Ok tt).

(** [typeof v === "number" && v >= 0 && v < 256] *)
Definition is_channel (v : jsval) : bool :=
  match v with
  | JPrim (PNum n) => Z.leb 0 n && Z.ltb n 256
  | _ => false
  end.

Definition num_at (items : list jsval) (i : nat) : Z :=
  match nth_error items i with
  | Some (JPrim (PNum n)) => n
  | _ => 0
  end.

(** [component.length + 1 + (source?.length ?? -1)] *)
Definition sourceLength (c : string) (s : option string) : Z :=
  Z.of_nat (String.length c) + 1
  + match s with
    | Some x => Z.of_nat (String.length x)
    | None => -1
    end.

Definition createLogger (c : string) (s : option string) (sourceColor : jsval)
  : M LoggerFactory Logger :=
  (this <- get ;;
   if destroyed this
   then throw (new_Error "LoggerFacotry has been destroyed")
   else
     let color0 := match sourceColor with
                   | JPrim PUndefined => JNull
                   | v => v
                   end in
     color1 <- match color0 with
               | JArr items =>
                   if negb (forallb is_channel items)
                      || negb (Nat.eqb (length items) 3)
                   then throw (new_TypeError
                          ("Expected sourceColor to be an array of 3 numbers between 0 and 255, but received "
                           +:+ js_string color0 +:+ " instead"))
                   else ret (JNum (Z.shiftl (num_at items 0) 16
                                   + Z.shiftl (num_at items 1) 8
                                   + num_at items 2))
               | _ => ret color0
               end ;;
     color2 <- match color1 with
               | JPrim (PNum n) =>
                   if negb (Z.leb 0 n && Z.ltb n (Z.shiftl 1 24))
                   then throw (new_RangeError
                          ("Expected sourceColor to be in range 0 to 16777215, but received "
                           +:+ js_string color1 +:+ " instead"))
                   else ret (JStr (padStart0 (toString16 n) 6))
               | JPrim PNaN =>
                   throw (new_RangeError
                          ("Expected sourceColor to be in range 0 to 16777215, but received "
                           +:+ js_string color1 +:+ " instead"))
               | _ => ret color1
               end ;;
     color3 <- (if js_truthy color2
                then match color2 with
                     | JPrim (PStr x) =>
                         ret (if String.prefix "#" x then JStr (slice1 x) else color2)
                     | _ => throw (new_TypeError "color.startsWith is not a function")
                     end
                else ret color2) ;;
     (if js_truthy color3 && negb (is_hex6 (js_string color3))
      then throw (new_RangeError
             ("Expected sourceColor to be a hex string of length 6, but received '"
              +:+ js_string color3 +:+ "' instead"))
      else ret tt) ;;;
     let color := if js_truthy color3 then Some (js_string color3) else None in
     let sourceLength := sourceLength c s in
     this' <- get ;;
     (if Z.ltb (maxSourceLength this') sourceLength
      then set_maxSourceLength sourceLength
      else ret tt) ;;;
     ret (new_Logger c s color))%js.

(** Running a method of one object inside the whole store. *)
Definition on_world {F A} (m : M World A) : M (World * F) A :=
  fun st => match m (fst st) with
            | (w', r) => ((w', snd st), r)
            end.

Definition on_factory {A} (m : M LoggerFactory A) : M (World * LoggerFactory) A :=
  fun st => match m (snd st) with
            | (f', r) => ((fst st, f'), r)
            end.

(** [v.type === "STREAM" && v.private === true] *)
Definition private_stream (v : ParsedTarget) : bool :=
  match kind v with
  | STREAM _ true => true
  | _ => false
  end.

Definition destroy_stream (v : ParsedTarget) : M World unit :=
  match kind v with
  | STREAM id _ => perform (stream_destroy id)
  | _ => throw (new_TypeError "Cannot read properties of undefined (reading 'destroy')")
  end.

Fixpoint forEach {S A} (l : list A) (f : A -> M S unit) : M S unit :=
  match l with
  | [] => ret tt
  | x :: rest => (f x ;;; forEach rest f)%js
  end.

Definition destroy : M (World * LoggerFactory) unit :=
  (st <- get ;;
   if destroyed (snd st)
   then ret tt
   else
     on_factory (set_destroyed true) ;;;
     match targets (snd st) with
     | None => throw (new_TypeError "Cannot read properties of null (reading 'filter')")
     | Some ts => on_world (forEach (List.filter private_stream ts) destroy_stream)
     end ;;;
     on_factory (set_targets None))%js.

(** ** The formatter *)

(** The collaborators that [format] calls and this repository does not
    define: [util.inspect], [stringifySafe] with its replacer,
    [Date.prototype.toISOString] and the chalk styles. *)
Record Externals : Type := {
  inspect : jsval -> bool -> string;
  stringifySafe : jsval -> (jsval -> jsval) -> string;
  toISOString : Z -> string;
  chalk_hex : string -> string -> string;
  chalk_yellow : string -> string;
  chalk_yellowBright : string -> string;
  chalk_black : string -> string;
  chalk_bgRedBright : string -> string;
  chalk_hex_bgRedBright : string -> string -> string
}.

Definition noColor (v : string) : string := v.

(** The replacer handed to [stringifySafe]. *)
Definition replacer (v : jsval) : jsval :=
  match v with
  | JError _ message stack =>
      JObj [ ("stack", JStr stack); ("message", JStr message) ]
  | JPrim PUndefined => JStr "undefined"
  | _ => v
  end.

Definition two_digits (n : Z) : string := padStart0 (pretty n) 2.

Definition formatTime (X : Externals) (ms : Z) (full : bool) : string :=
  if full
  then toISOString X ms
  else two_digits ((ms / 3600000) mod 24) +:+ ":"
       +:+ two_digits ((ms / 60000) mod 60) +:+ ":"
       +:+ two_digits ((ms / 1000) mod 60) +:+ "."
       +:+ padStart0 (pretty (ms mod 1000)) 3.

(** [levels[level]] where the text branch reads it: the level is one of
    the six there. *)
Definition level_name (level : Z) : string := default "undefined" (levels level).

Definition opt_jsval (o : option string) (absent : jsval) : jsval :=
  match o with
  | Some s => JStr s
  | None => absent
  end.

(** [component + (source ? "/" + source : "")] *)
Definition display_name (c : string) (s : option string) : string :=
  c +:+ match s with
        | Some x => if String.eqb x "" then "" else "/" +:+ x
        | None => ""
        end.

Definition b2z (b : bool) : Z := if b then 1 else 0.

(** [color ? br("[") + tx(s) + br("]") : "[" + s + "]"] *)
Definition bracket (color : bool) (br tx : string -> string) (s : string)
  : string :=
  if color then br "[" +:+ tx s +:+ br "]" else "[" +:+ s +:+ "]".

Definition format (X : Externals) (messages : list jsval) (level : Z)
    (c : string) (s : option string) (sourceColor : option string)
    (uniform : bool) (maxSourceLength : Z) (style : format_style)
    (color : bool) (timestamp : Z) (fullTimestamps : bool) : option string :=
  let maxCategoryLength := 5 in
  match style with
  | JSON =>
      Some (stringifySafe X
              (JObj [ ("timestamp", JNum timestamp);
                      ("level", opt_jsval (levels level) JUndefined);
                      ("component", JStr c);
                      ("source", opt_jsval s JNull);
                      ("msg", JArr messages) ])
              replacer)
  | TEXT =>
      let paint := match sourceColor with
                   | Some h => chalk_hex X h
                   | None => noColor
                   end in
      let styledSource :=
        (if color then paint else noColor)
          (padEnd (display_name c s) (b2z uniform * maxSourceLength)) in
      let time := "[" +:+ formatTime X timestamp fullTimestamps +:+ "] " in
      let pad := padEnd ""
                   ((maxCategoryLength - Z.of_nat (String.length (level_name level)))
                    * b2z uniform) in
      let joined :=
        String.concat " "
          (map (fun v => match v with
                         | JPrim (PStr x) => x
                         | _ => inspect X v color
                         end) messages) in
      let line (prefix content : string) : option string :=
        Some (prefix +:+ rejoin_lines content prefix) in
      let plain br tx :=
        time +:+ bracket color br tx (level_name level) +:+ " " +:+ pad
        +:+ bracket color br tx styledSource +:+ " " in
      match level with
      | 6 => line (plain (chalk_hex X "#5F5F5F") (chalk_hex X "#808080"))
               ((if color then chalk_hex X "#808080" else noColor) joined)
      | 5 => line (plain (chalk_hex X "#787878") (chalk_hex X "#9F9F9F"))
               ((if color then chalk_hex X "#9F9F9F" else noColor) joined)
      | 4 => line (time
                   +:+ bracket color (chalk_hex X "#0B8E82") (chalk_hex X "#26E2D0")
                         (level_name level)
                   +:+ " " +:+ pad +:+ "[" +:+ styledSource +:+ "] ")
               joined
      | 3 => line (plain (chalk_yellow X) (chalk_yellowBright X))
               ((if color then chalk_yellowBright X else noColor) joined)
      | 2 => line (plain (chalk_hex X "#9F0000") (chalk_hex X "#FF0000"))
               ((if color then chalk_hex X "#FF0000" else noColor) joined)
      | 1 => line ("[" +:+ formatTime X timestamp fullTimestamps +:+ "] "
                   +:+ (if color then chalk_bgRedBright X else noColor)
                         (bracket color (chalk_black X) (chalk_hex X "#0F0F0F")
                            (level_name level)
                          +:+ " " +:+ pad
                          +:+ bracket color (chalk_black X) (chalk_hex X "#0F0F0F")
                                styledSource
                          +:+ " "))
               ((if color then chalk_hex_bgRedBright X "#0F0F0F" else noColor) joined)
      | _ => None
      end
  end.

(** ** The dispatcher *)

(** What the outside world answers to one delivery attempt.  An attempt
    is named by the indices that lead to it: [[i]] is target [i] of the
    log call, [[i; j]] is target [j] of the recovery dispatch started
    when target [i] failed. *)
Inductive sink_answer : Type :=
| Acked (value : jsval)
| Failed (error : jsval).

Record Env : Type := {
  answer : list nat -> sink_answer;
  latency : list nat -> Z;
  (** what [logger.destroyed] reads when the failure of the attempt is caught *)
  destroyed_meanwhile : list nat -> bool
}.

Inductive log_result (T : Type) : Type :=
| Thrown (e : jsval)
| OutOfFuel
| Promise_all (tasks : list T).
Arguments Thrown {T} e.
Arguments OutOfFuel {T}.
Arguments Promise_all {T} tasks.

Inductive handling (T : Type) : Type :=
| Delivered (value : jsval)
| Rethrown (e : jsval)
| Swallowed (e : jsval)
| Relogged (e : jsval) (recovery : log_result T).
Arguments Delivered {T} value.
Arguments Rethrown {T} e.
Arguments Swallowed {T} e.
Arguments Relogged {T} e recovery.

(** One started target operation: which target, what was done to its
    sink, when it started and when the sink answered, and how the answer
    was handled. *)
Inductive task : Type :=
| Task (index : nat) (touch : effect) (started finished : Z)
    (h : handling task).

Definition or_null (content : option string) : string := default "null" content.

(** The call made on the sink in the [switch (v.type)] of [_log]. *)
Definition deliver (k : target_kind) (content : option string) : effect :=
  match k with
  | STREAM stream _ => stream_write stream (or_null content +:+ String newline "")
  | FUNCTION func => func_call func content
  | HTTP url options => request_send false url options content
  | HTTPS url options => request_send true url options content
  end.

(** The value the awaited sink call yields; [writeToStream] resolves
    with [null]. *)
Definition delivered_value (k : target_kind) (value : jsval) : jsval :=
  match k with
  | STREAM _ _ => JNull
  | _ => value
  end.

(** The messages of the recovery event. *)
Definition failure_messages (i : nat) (timestamp level : Z)
    (messages : list jsval) (e : jsval) : list jsval :=
  [ JStr ("Failed to log to target " +:+ pretty i +:+ ":");
    JObj [ ("timestamp", JNum timestamp);
           ("level", opt_jsval (levels level) JUndefined);
           ("messages", JArr messages);
           ("error", e) ] ].

Fixpoint _log (fuel : nat) (X : Externals) (env : Env) (path : list nat)
    (logger_destroyed : bool) (now : Z)
    (targets : option (list ParsedTarget)) (messages : list jsval)
    (level : Z) (logger : Logger) (maxSourceLength : Z) : log_result task :=
  match fuel with
  | O => OutOfFuel
  | S fuel' =>
      if logger_destroyed
      then Thrown (new_Error "Logger has been destroyed")
      else
        let timestamp := now in
        match targets with
        | None => Thrown (new_TypeError "Cannot read properties of null (reading 'map')")
        | Some ts =>
            Promise_all (omap id (imap (fun i v =>
              if level_lt (t_level (base v)) level
              then None
              else
                let content :=
                  format X messages level (component logger) (source logger)
                    (logger_color logger) (t_uniform (base v)) maxSourceLength
                    (t_format (base v)) (t_color (base v)) timestamp
                    (t_fullTimestamps (base v)) in
                let attempt := (path ++ [i])%list in
                let finished := now + latency env attempt in
                Some (Task i (deliver (kind v) content) now finished
                  match answer env attempt with
                  | Acked value => Delivered (delivered_value (kind v) value)
                  | Failed e =>
                      match t_errorPolicy (base v) with
                      | THROW => Rethrown e
                      | IGNORE => Swallowed e
                      | LOG =>
                          if negb (destroyed_meanwhile env attempt)
                          then Relogged e
                                 (_log fuel' X env attempt
                                    (destroyed_meanwhile env attempt) finished
                                    (Some (map (with_errorPolicy IGNORE) ts))
                                    (failure_messages i timestamp level messages e)
                                    (Z.min level levelNums.ERROR)
                                    logger maxSourceLength)
                          else Swallowed e
                      end
                  end)) ts))
        end
  end.

(** Two levels of [_log] are all a call can reach (shown below as
    [_log_fuel_irrelevant]); the methods run the dispatcher with that. *)
Definition call_depth : nat := 2.

(** The six methods of [Logger].  [this.manager] is the factory object
    [manager] as it is when the method is called. *)
Definition Logger_log (level : Z) (X : Externals) (env : Env) (now : Z)
    (this : Logger) (manager : LoggerFactory) (messages : list jsval)
  : log_result task :=
  _log call_depth X env [] (destroyed manager) now (targets manager) messages
    level this (maxSourceLength manager).

Definition Logger_trace := Logger_log levelNums.TRACE.
Definition Logger_debug := Logger_log levelNums.DEBUG.
Definition Logger_info := Logger_log levelNums.INFO.
Definition Logger_warn := Logger_log levelNums.WARN.
Definition Logger_error := Logger_log levelNums.ERROR.
Definition Logger_fatal := Logger_log levelNums.FATAL.

(** ** Reading a dispatch: what it touched, how deep it went, when it settled *)

Fixpoint task_touches (t : task) : list (Z * effect) :=
  match t with
  | Task _ touch started _ h =>
      (started, touch)
      :: match h with
         | Relogged _ (Promise_all ts) => flat_map task_touches ts
         | _ => []
         end
  end.

Definition touches (r : log_result task) : list (Z * effect) :=
  match r with
  | Promise_all ts => flat_map task_touches ts
  | _ => []
  end.

(** How many recovery dispatches are nested inside one another. *)
Fixpoint task_depth (t : task) : nat :=
  match t with
  | Task _ _ _ _ h =>
      match h with
      | Relogged _ (Promise_all ts) => S (list_max (map task_depth ts))
      | Relogged _ _ => 1
      | _ => 0
      end
  end.

Definition depth (r : log_result task) : nat :=
  match r with
  | Promise_all ts => list_max (map task_depth ts)
  | _ => 0
  end.

Fixpoint task_complete (t : task) : bool :=
  match t with
  | Task _ _ _ _ h =>
      match h with
      | Relogged _ (Promise_all ts) => forallb task_complete ts
      | Relogged _ OutOfFuel => false
      | _ => true
      end
  end.

Definition complete (r : log_result task) : bool :=
  match r with
  | Promise_all ts => forallb task_complete ts
  | OutOfFuel => false
  | Thrown _ => true
  end.

Inductive settlement : Type :=
| Fulfilled (time : Z) (value : jsval)
| Rejected (time : Z) (reason : jsval).

Definition settled_at (s : settlement) : Z :=
  match s with
  | Fulfilled t _ | Rejected t _ => t
  end.

Definition fulfilled_value (s : settlement) : jsval :=
  match s with
  | Fulfilled _ v => v
  | Rejected _ _ => JUndefined
  end.

(** The rejection [Promise.all] reports: the earliest one, and among
    rejections at the same instant the one of the earliest input. *)
Fixpoint first_rejection (l : list settlement) : option (Z * jsval) :=
  match l with
  | [] => None
  | Fulfilled _ _ :: rest => first_rejection rest
  | Rejected t e :: rest =>
      match first_rejection rest with
      | Some (t', e') => if Z.ltb t' t then Some (t', e') else Some (t, e)
      | None => Some (t, e)
      end
  end.

(** [Promise.all(inputs)], created at [created]: it rejects as soon as
    one input rejects, and otherwise fulfils with the array of values
    once the last input has fulfilled. *)
Definition promise_all (created : Z) (inputs : list settlement) : settlement :=
  match first_rejection inputs with
  | Some (t, e) => Rejected t e
  | None =>
      Fulfilled (fold_right Z.max created (map settled_at inputs))
        (JArr (map fulfilled_value inputs))
  end.

Fixpoint all_some {A} (l : list (option A)) : option (list A) :=
  match l with
  | [] => Some []
  | Some a :: rest => option_map (cons a) (all_some rest)
  | None :: _ => None
  end.

(** The promise of one target's [async] body.  A body that returns the
    recovery dispatch settles as that dispatch does; a dispatch that
    throws inside the body rejects it. *)
Fixpoint settle_task (t : task) : option settlement :=
  match t with
  | Task _ _ _ finished h =>
      match h with
      | Delivered v => Some (Fulfilled finished v)
      | Rethrown e => Some (Rejected finished e)
      | Swallowed _ => Some (Fulfilled finished JUndefined)
      | Relogged _ (Thrown x) => Some (Rejected finished x)
      | Relogged _ OutOfFuel => None
      | Relogged _ (Promise_all ts) =>
          option_map (promise_all finished) (all_some (map settle_task ts))
      end
  end.

(** What the caller of a log method gets, and when: an exception at
    once, or the settlement of the returned promise. *)
Definition settle (now : Z) (r : log_result task) : option settlement :=
  match r with
  | Thrown e => Some (Rejected now e)
  | OutOfFuel => None
  | Promise_all ts => option_map (promise_all now) (all_some (map settle_task ts))
  end.

(** The tasks a dispatch started itself. *)
Definition tasks_of (r : log_result task) : list task :=
  match r with
  | Promise_all ts => ts
  | _ => []
  end.

Definition task_index (t : task) : nat :=
  match t with Task i _ _ _ _ => i end.

Definition task_touch (t : task) : effect :=
  match t with Task _ e _ _ _ => e end.

Definition task_started (t : task) : Z :=
  match t with Task _ _ s _ _ => s end.

Definition task_finished (t : task) : Z :=
  match t with Task _ _ _ f _ => f end.

Definition task_handling (t : task) : handling task :=
  match t with Task _ _ _ _ h => h end.

(** * The vocabulary of the statements *)

(** The arrow function that [_log] maps over the targets, with the
    recursive call left as a parameter. *)
Definition target_task
    (recover : list nat -> bool -> Z -> option (list ParsedTarget) ->
               list jsval -> Z -> Logger -> Z -> log_result task)
    (X : Externals) (env : Env) (path : list nat) (now : Z)
    (ts : list ParsedTarget) (messages : list jsval) (level : Z)
    (logger : Logger) (maxSourceLength : Z) (i : nat) (v : ParsedTarget)
  : option task :=
  if level_lt (t_level (base v)) level
  then None
  else
    let content :=
      format X messages level (component logger) (source logger)
        (logger_color logger) (t_uniform (base v)) maxSourceLength
        (t_format (base v)) (t_color (base v)) now
        (t_fullTimestamps (base v)) in
    let attempt := (path ++ [i])%list in
    let finished := now + latency env attempt in
    Some (Task i (deliver (kind v) content) now finished
      match answer env attempt with
      | Acked value => Delivered (delivered_value (kind v) value)
      | Failed e =>
          match t_errorPolicy (base v) with
          | THROW => Rethrown e
          | IGNORE => Swallowed e
          | LOG =>
              if negb (destroyed_meanwhile env attempt)
              then Relogged e
                     (recover attempt (destroyed_meanwhile env attempt) finished
                        (Some (map (with_errorPolicy IGNORE) ts))
                        (failure_messages i now level messages e)
                        (Z.min level levelNums.ERROR)
                        logger maxSourceLength)
              else Swallowed e
          end
      end).

Definition has_index (n : nat) (t : task) : bool := Nat.eqb (task_index t) n.

Definition all_ignore (ts : list ParsedTarget) : Prop :=
  forall v, In v ts -> t_errorPolicy (base v) = IGNORE.

(** A task whose failure, if any, went no further. *)
Definition quiet (t : task) : Prop :=
  match task_handling t with
  | Delivered _ | Swallowed _ => True
  | Rethrown _ | Relogged _ _ => False
  end.

(** Every task of a dispatch either went no further, or started one
    recovery dispatch over the derived list, all of whose tasks went no
    further. *)
Definition shallow (t : task) : Prop :=
  match task_handling t with
  | Relogged _ rec => exists ts', rec = Promise_all ts' /\ Forall quiet ts'
  | _ => True
  end.

(** The part of a task that does not depend on what any sink answers. *)
Definition task_start (t : task) : nat * effect * Z :=
  (task_index t, task_touch t, task_started t).

(** The claim of C4 at one call: a rejection reaches the caller only
    when every task of the call has settled. *)
Definition surfaces_after_all_settled (X : Externals) (env : Env) (now : Z)
    (ts : list ParsedTarget) (messages : list jsval) (level : Z)
    (logger : Logger) (msl : Z) : Prop :=
  let res := _log call_depth X env [] false now (Some ts) messages level logger msl in
  forall tm e,
    settle now res = Some (Rejected tm e) ->
    forall t s, In t (tasks_of res) -> settle_task t = Some s -> settled_at s <= tm.

Definition raise_max (n : Z) (this : LoggerFactory) : LoggerFactory :=
  {| targets := targets this;
     maxSourceLength := Z.max (maxSourceLength this) n;
     destroyed := destroyed this |}.

(** What [createLogger] does to the state [this] it starts from: it
    throws and leaves it as it was, or returns the logger and raises the
    running maximum. *)
Definition creates (c : string) (s : option string) (this : LoggerFactory)
    (m : M LoggerFactory Logger) : Prop :=
  (exists e, m this = (this, Throw e))
  \/ (destroyed this = false
      /\ exists color,
           m this = (raise_max (sourceLength c s) this, Ok (new_Logger c s color))).

(** A step that reads the state at most. *)
Definition reads_only {A} (this : LoggerFactory) (m : M LoggerFactory A) : Prop :=
  exists r, m this = (this, r).

(** A sequence of [createLogger] calls on one factory, failed ones
    included. *)
Definition logger_spec : Type := string * option string * jsval.

Fixpoint createLoggers (specs : list logger_spec) (this : LoggerFactory)
  : LoggerFactory * list (result Logger) :=
  match specs with
  | [] => (this, [])
  | (c, s, col) :: rest =>
      let (this1, r) := createLogger c s col this in
      let (this2, rs) := createLoggers rest this1 in
      (this2, r :: rs)
  end.

(** The loggers a sequence of calls did create, and their lengths. *)
Fixpoint created (rs : list (result Logger)) : list Logger :=
  match rs with
  | [] => []
  | Ok lg :: rest => lg :: created rest
  | Throw _ :: rest => created rest
  end.

Definition logger_length (lg : Logger) : Z :=
  sourceLength (component lg) (source lg).

(** The claim of C5 at one run: the logger created first keeps, for its
    later output, the width the factory had reached when it was created. *)
Definition width_frozen_at_creation (X : Externals) (env : Env) (now : Z)
    (this : LoggerFactory) (first : logger_spec) (later : list logger_spec)
    (level : Z) (messages : list jsval) : Prop :=
  let '(c, s, col) := first in
  forall this1 lg,
    createLogger c s col this = (this1, Ok lg) ->
    let this2 := fst (createLoggers later this1) in
    touches (Logger_log level X env now lg this2 messages) =
    touches (_log call_depth X env [] (destroyed this2) now (targets this2)
               messages level lg (maxSourceLength this1)).

(** What target [v] is handed when a call renders [messages] at rank
    [level] with padding width [width]. *)
Definition rendered (X : Externals) (lg : Logger) (width : Z) (v : ParsedTarget)
    (messages : list jsval) (level timestamp : Z) : effect :=
  deliver (kind v)
    (format X messages level (component lg) (source lg) (logger_color lg)
       (t_uniform (base v)) width (t_format (base v)) (t_color (base v))
       timestamp (t_fullTimestamps (base v))).

(** What a program can do with a factory and its loggers, one call
    after another. *)
Inductive op : Type :=
| op_createLogger (c : string) (s : option string) (sourceColor : jsval)
| op_log (level : Z) (env : Env) (now : Z) (logger : Logger)
    (messages : list jsval)
| op_destroy.

Inductive op_outcome : Type :=
| created_logger (r : result Logger)
| logged (r : log_result task)
| destroy_returned (r : result unit).

Definition step (X : Externals) (o : op) (st : World * LoggerFactory)
  : (World * LoggerFactory) * op_outcome :=
  match o with
  | op_createLogger c s col =>
      let (st', r) := on_factory (createLogger c s col) st in
      (st', created_logger r)
  | op_log level env now lg messages =>
      (st, logged (Logger_log level X env now lg (snd st) messages))
  | op_destroy =>
      let (st', r) := destroy st in
      (st', destroy_returned r)
  end.

Fixpoint run (X : Externals) (ops : list op) (st : World * LoggerFactory)
  : (World * LoggerFactory) * list op_outcome :=
  match ops with
  | [] => (st, [])
  | o :: rest =>
      let (st1, r) := step X o st in
      let (st2, rs) := run X rest st1 in
      (st2, r :: rs)
  end.

(** The streams [destroy] releases: those of the targets with
    [type === "STREAM"] and [private === true], in target order. *)
Definition private_streams (ts : list ParsedTarget) : list nat :=
  flat_map (fun v => match kind v with
                     | STREAM id true => [id]
                     | _ => []
                     end) ts.

Definition add_history (es : list effect) (w : World) : World :=
  {| homedir := homedir w;
     fs_refuses := fs_refuses w;
     next_stream := next_stream w;
     history := (history w ++ es)%list |}.

Definition mark_destroyed (this : LoggerFactory) : LoggerFactory :=
  {| targets := targets this;
     maxSourceLength := maxSourceLength this;
     destroyed := true |}.

Definition torn_down (this : LoggerFactory) : LoggerFactory :=
  {| targets := None;
     maxSourceLength := maxSourceLength this;
     destroyed := true |}.

(** How a call on a destroyed factory ends. *)
Definition refused (o : op_outcome) : Prop :=
  match o with
  | created_logger r => r = Throw (new_Error "LoggerFacotry has been destroyed")
  | logged r => r = Thrown (new_Error "Logger has been destroyed")
                /\ touches r = []
  | destroy_returned r => r = Ok tt
  end.

Definition descriptors (arg : targets_arg) : list Target :=
  match arg with
  | ManyTargets ts => ts
  | OneTarget t => [t]
  end.

(** The streams a caller hands over in [STREAM] descriptors. *)
Definition supplied_streams (ds : list Target) : list nat :=
  flat_map (fun d => match d with
                     | StreamTarget (WriteStream id) _ => [id]
                     | _ => []
                     end) ds.

Definition is_release (e : effect) : bool :=
  match e with
  | stream_destroy _ => true
  | _ => false
  end.

(** How normalization, run in a process whose next stream was [lo] and
    ending with [hi], turns a descriptor into a target. *)
Definition normalized (lo hi : nat) (d : Target) (v : ParsedTarget) : Prop :=
  match d with
  | FileTarget _ _ _ _ =>
      exists id, kind v = STREAM id true /\ (lo <= id < hi)%nat
  | StreamTarget (WriteStream id) _ => kind v = STREAM id false
  | PostTarget _ _ _ _ | StdOutTarget _ | FunctionTarget _ _ =>
      match kind v with
      | STREAM _ _ => False
      | _ => True
      end
  | StreamTarget (NotAWriteStream _) _ | OtherTarget _ _ => False
  end.

(** What normalization does to the process: it may open streams, and it
    releases none. *)
Definition grows (w w' : World) : Prop :=
  (next_stream w <= next_stream w')%nat
  /\ exists es, history w' = (history w ++ es)%list
                /\ existsb is_release es = false.

Definition releases_nothing (o : op_outcome) : Prop :=
  match o with
  | logged r => forall tm e, In (tm, e) (touches r) -> is_release e = false
  | _ => True
  end.

(** The claim of C3 at one call: a failed delivery under policy [LOG]
    is always handled by a recovery dispatch. *)
Definition failure_always_relogged (X : Externals) (env : Env) (now : Z)
    (ts : list ParsedTarget) (messages : list jsval) (level : Z)
    (logger : Logger) (msl : Z) (i : nat) : Prop :=
  forall v e,
    ts !! i = Some v ->
    level_lt (t_level (base v)) level = false ->
    answer env [i] = Failed e ->
    t_errorPolicy (base v) = LOG ->
    exists t rec,
      In t (tasks_of (_log call_depth X env [] false now (Some ts) messages level
                        logger msl))
      /\ task_index t = i
      /\ task_handling t = Relogged e rec.

(** Every task of a call: the ones the dispatch started, each followed
    by the tasks of the recovery dispatch it ended in. *)
Fixpoint task_family (t : task) : list task :=
  match t with
  | Task _ _ _ _ h =>
      t :: match h with
           | Relogged _ (Promise_all ts) => flat_map task_family ts
           | _ => []
           end
  end.

Definition all_tasks (r : log_result task) : list task :=
  match r with
  | Promise_all ts => flat_map task_family ts
  | _ => []
  end.

(** When and what: the entry a task leaves in [touches]. *)
Definition start_touch (t : task) : Z * effect := (task_started t, task_touch t).

(** An effect on the sink of a target: a write to its stream, a call of
    its function, a request to its address. *)
Definition on_sink_of (k : target_kind) (e : effect) : Prop :=
  match k, e with
  | STREAM stream _, stream_write stream' _ => stream = stream'
  | FUNCTION func, func_call func' _ => func = func'
  | HTTP url _, request_send false url' _ _ => url = url'
  | HTTPS url _, request_send true url' _ _ => url = url'
  | _, _ => False
  end.

(** The claim of C1 at one call: nothing is done, during the call, to
    the sink of a target whose minimum rank the call does not reach. *)
Definition skipped_untouched (X : Externals) (env : Env) (now : Z)
    (ts : list ParsedTarget) (messages : list jsval) (r : Z)
    (logger : Logger) (msl : Z) : Prop :=
  let res := _log call_depth X env [] false now (Some ts) messages r logger msl in
  forall i v m,
    ts !! i = Some v -> t_level (base v) = LNum m -> m < r ->
    forall tm e, In (tm, e) (touches res) -> ~ on_sink_of (kind v) e.

(** [messages.map(v => typeof v === "string" ? v : inspect(v, false,
    null, color)).join(" ")] *)
Definition joined_messages (X : Externals) (color : bool)
    (messages : list jsval) : string :=
  String.concat " "
    (map (fun v => match v with
                   | JPrim (PStr x) => x
                   | _ => inspect X v color
                   end) messages).

(** The prefix of a text line when [color] is off: the six cases of the
    [switch] in [format] then build the same text,
    "[time] [LEVEL] pad[source] ". *)
Definition plain_prefix (X : Externals) (level : Z) (c : string)
    (s : option string) (uniform : bool) (msl timestamp : Z) (full : bool)
  : string :=
  "[" +:+ formatTime X timestamp full +:+ "] ["
  +:+ level_name level +:+ "] "
  +:+ padEnd "" ((5 - Z.of_nat (String.length (level_name level))) * b2z uniform)
  +:+ "[" +:+ padEnd (display_name c s) (b2z uniform * msl) +:+ "] ".

(** * Processes and calls for the examples *)

(** chalk on a terminal without colour support returns its argument;
    the other collaborators are stand-ins. *)
Definition plain : Externals :=
  {| inspect := fun v _ => js_string v;
     stringifySafe := fun v _ => js_string v;
     toISOString := fun ms => pretty ms;
     chalk_hex := fun _ x => x;
     chalk_yellow := fun x => x;
     chalk_yellowBright := fun x => x;
     chalk_black := fun x => x;
     chalk_bgRedBright := fun x => x;
     chalk_hex_bgRedBright := fun _ x => x |}.

(** Every sink acknowledges at once and nobody destroys the factory. *)
Definition calm : Env :=
  {| answer := fun _ => Acked JUndefined;
     latency := fun _ => 0;
     destroyed_meanwhile := fun _ => false |}.

Definition options_of (lv : Z) (st : format_style) (p : policy) : BaseOptions :=
  {| t_level := LNum lv; t_color := false; t_uniform := false; t_format := st;
     t_fullTimestamps := false; t_errorPolicy := p |}.

(** A callback that fails after one millisecond under policy [THROW],
    next to a stream that acknowledges after five. *)
Definition throw_then_slow : list ParsedTarget :=
  [ {| kind := FUNCTION (user_function 0);
       base := options_of levelNums.TRACE TEXT THROW |};
    {| kind := STREAM 0 false;
       base := options_of levelNums.TRACE TEXT IGNORE |} ].

Definition first_fails_fast : Env :=
  {| answer := fun a => match a with
                        | [O] => Failed (JStr "down")
                        | _ => Acked JUndefined
                        end;
     latency := fun a => match a with
                         | [O] => 1
                         | _ => 5
                         end;
     destroyed_meanwhile := fun _ => false |}.

Definition some_logger : Logger := new_Logger "svc" None None.

Definition aligned_stream : list ParsedTarget :=
  [ {| kind := STREAM 0 false;
       base := {| t_level := LNum levelNums.TRACE; t_color := false;
                  t_uniform := true; t_format := TEXT;
                  t_fullTimestamps := false; t_errorPolicy := LOG |} |} ].

(** A callback under policy [LOG] that fails, next to a stream. *)
Definition log_then_stream : list ParsedTarget :=
  [ {| kind := FUNCTION (user_function 0);
       base := options_of levelNums.TRACE TEXT LOG |};
    {| kind := STREAM 0 false;
       base := options_of levelNums.ERROR TEXT THROW |} ].

(** The first sink fails, and by the time that is caught the program
    has destroyed the factory. *)
Definition destroyed_before_catch : Env :=
  {| answer := fun a => match a with
                        | [O] => Failed (JStr "down")
                        | _ => Acked JUndefined
                        end;
     latency := fun _ => 1;
     destroyed_meanwhile := fun _ => true |}.

Definition first_of_aligned : ParsedTarget :=
  {| kind := STREAM 0 false;
     base := {| t_level := LNum levelNums.TRACE; t_color := false;
                t_uniform := true; t_format := TEXT;
                t_fullTimestamps := false; t_errorPolicy := LOG |} |}.

Definition relogged_task : task :=
  Task 0 (func_call (user_function 0) (Some "[00:00:00.000] [WARN] [svc] x"))
    0 1
    (Relogged (JStr "down")
       (_log 1 plain first_fails_fast [O] false 1
          (Some (map (with_errorPolicy IGNORE) log_then_stream))
          (failure_messages 0 0 levelNums.WARN [JStr "x"] (JStr "down"))
          levelNums.ERROR some_logger 0)).

Definition has_nul (s : string) : bool :=
  existsb (Ascii.eqb "000"%char) (list_ascii_of_string s).

(** A file system that refuses the strings holding a NUL byte. *)
Definition nul_refused (p : path_like) : option jsval :=
  match p with
  | PathString s =>
      if has_nul s
      then Some (new_TypeError
             "The argument 'path' must be a string, Uint8Array, or URL without null bytes")
      else None
  | _ => None
  end.

Definition quiet_world : World :=
  {| homedir := "/home/app"; fs_refuses := nul_refused; next_stream := 1;
     history := [] |}.

Definition file_and_stream : list ParsedTarget :=
  [ {| kind := STREAM 1 true; base := options_of levelNums.TRACE JSON LOG |};
    {| kind := STREAM 0 false; base := options_of levelNums.WARN TEXT LOG |} ].

Definition no_options : BaseTarget :=
  {| d_logLevel := PUndefined; d_style := PUndefined; d_uniformLength := None;
     d_color := None; d_fullTimestamps := None; d_errorPolicy := PUndefined |}.

Definition file_and_stream_descriptors : targets_arg :=
  ManyTargets
    [ FileTarget (PathString "~/app.log") false None no_options;
      StreamTarget (WriteStream 0) no_options ].

Definition opened_world : World :=
  {| homedir := "/home/app"; fs_refuses := nul_refused; next_stream := 2;
     history := [ createWriteStream 1 (PathString "/home/app/app.log") "a" ] |}.

Definition parsed_file_and_stream : list ParsedTarget :=
  [ {| kind := STREAM 1 true; base := options_of levelNums.TRACE TEXT LOG |};
    {| kind := STREAM 0 false; base := options_of levelNums.TRACE TEXT LOG |} ].

(** * More vocabulary: normalization, formatting, counting *)

(** The [FILE] descriptors of a list, the streams a history opened and
    the streams it released. *)
Definition is_file (d : Target) : bool :=
  match d with
  | FileTarget _ _ _ _ => true
  | _ => false
  end.

Definition count_files (ds : list Target) : nat :=
  length (List.filter is_file ds).

Definition opened_streams (es : list effect) : list nat :=
  flat_map (fun e => match e with
                     | createWriteStream id _ _ => [id]
                     | _ => []
                     end) es.

Definition released_streams (es : list effect) : list nat :=
  flat_map (fun e => match e with
                     | stream_destroy id => [id]
                     | _ => []
                     end) es.

Definition has_backslash (s : string) : bool :=
  existsb (Ascii.eqb "\"%char) (list_ascii_of_string s).

(** [s.split("\n")] *)
Fixpoint split_lines (s : string) : list string :=
  match s with
  | EmptyString => [ "" ]
  | String c rest =>
      if Ascii.eqb c newline
      then "" :: split_lines rest
      else match split_lines rest with
           | first :: more => String c first :: more
           | [] => [ String c "" ]
           end
  end.

(** A target that lets a call at rank [level] through. *)
Definition eligible (level : Z) (v : ParsedTarget) : bool :=
  negb (level_lt (t_level (base v)) level).

Definition is_relogged (t : task) : bool :=
  match task_handling t with
  | Relogged _ _ => true
  | _ => false
  end.

(** A factory is consistent when its target list is [null] exactly when
    it is destroyed. *)
Definition consistent (this : LoggerFactory) : Prop :=
  destroyed this = true <-> targets this = None.

(** The content handed to a sink. *)
Definition touch_content (e : effect) : option string :=
  match e with
  | stream_write _ data => Some data
  | func_call _ content => content
  | request_send _ _ _ body => body
  | _ => None
  end.

Definition valid_rank (level : Z) : Prop := 1 <= level <= 6.

Definition is_destroy (o : op) : bool :=
  match o with
  | op_destroy => true
  | _ => false
  end.

(** [destroy] threw. *)
Definition destroy_threw (o : op_outcome) : bool :=
  match o with
  | destroy_returned (Throw _) => true
  | _ => false
  end.

(** [Number.isSafeInteger(n)]: up to [2^53 - 1] in magnitude every
    integer is a JavaScript number, and prints with all its decimal
    digits. *)
Definition safe_integer (n : Z) : Prop := Z.abs n <= 9007199254740991.

(** A carry out of the most significant hexadecimal digit. *)
Definition carry (b : bool) : nat := if b then 1%nat else 0%nat.

(** A string with a line break in it. *)
Definition has_newline (s : string) : bool :=
  existsb (Ascii.eqb newline) (list_ascii_of_string s).

(** The timestamps a [Date] can hold. *)
Definition valid_time (ms : Z) : Prop :=
  -8640000000000000 <= ms <= 8640000000000000.

(** A chalk that marks what it styles, beside the collaborators of
    [plain]. *)
Definition marking : Externals :=
  {| inspect := fun v _ => js_string v;
     stringifySafe := fun v _ => js_string v;
     toISOString := fun ms => pretty ms;
     chalk_hex := fun h x => "<" +:+ h +:+ ">" +:+ x +:+ "</>";
     chalk_yellow := fun x => "<yellow>" +:+ x +:+ "</>";
     chalk_yellowBright := fun x => "<yellowBright>" +:+ x +:+ "</>";
     chalk_black := fun x => "<black>" +:+ x +:+ "</>";
     chalk_bgRedBright := fun x => "<bgRedBright>" +:+ x +:+ "</>";
     chalk_hex_bgRedBright := fun h x => "<" +:+ h +:+ ".bgRedBright>" +:+ x +:+ "</>" |}.

(** * Posting an event *)

(** What node reports about one request, in the order it reports it:
    the response (the callback handed to [request] runs and installs the
    handlers on [res]), then what those handlers and the handlers on
    [req] hear.  Node reports a response at most once per request. *)
Inductive http_event : Type :=
| on_response (statusCode : Z) (headers : js_object)
| res_data (chunk : string)
| res_end (complete : bool)
| res_error (e : jsval)
| req_error (e : jsval)
| req_close.

(** The closure of [postRequest]: the response whose handlers are
    installed, the [text] gathered so far, how the promise has settled
    ([None] while it is pending) and how often [req.destroy()] ran. *)
Record post_state : Type := {
  p_response : option (Z * js_object);
  p_text : string;
  p_outcome : option (result jsval);
  p_destroys : nat
}.

Definition post_start : post_state :=
  {| p_response := None; p_text := ""; p_outcome := None; p_destroys := 0 |}.

(** [resolve(v)] and [reject(e)]: only the first one counts. *)
Definition settle_once (r : result jsval) (st : post_state) : post_state :=
  {| p_response := p_response st;
     p_text := p_text st;
     p_outcome := match p_outcome st with
                  | Some r0 => Some r0
                  | None => Some r
                  end;
     p_destroys := p_destroys st |}.

Definition req_destroy (st : post_state) : post_state :=
  {| p_response := p_response st;
     p_text := p_text st;
     p_outcome := p_outcome st;
     p_destroys := S (p_destroys st) |}.

Definition post_handle (st : post_state) (ev : http_event) : post_state :=
  match ev with
  | on_response statusCode headers =>
      {| p_response := Some (statusCode, headers);
         p_text := "";
         p_outcome := p_outcome st;
         p_destroys := p_destroys st |}
  | res_data chunk =>
      match p_response st with
      | Some _ =>
          {| p_response := p_response st;
             p_text := p_text st +:+ chunk;
             p_outcome := p_outcome st;
             p_destroys := p_destroys st |}
      | None => st
      end
  | res_end complete =>
      match p_response st with
      | Some (statusCode, headers) =>
          if negb complete
          then settle_once
                 (Throw (new_Error
                    "Connection closed before response was fully transmitted"))
                 st
          else settle_once
                 (Ok (JObj [ ("status", JNum statusCode);
                             ("headers", JObj headers);
                             ("body", JStr (p_text st)) ]))
                 st
      | None => st
      end
  | res_error e =>
      match p_response st with
      | Some _ => settle_once (Throw e) st
      | None => st
      end
  | req_error e => settle_once (Throw e) (req_destroy st)
  | req_close =>
      settle_once (Throw (new_Error "No response received")) (req_destroy st)
  end.

(** [postRequest(https, url, content, options)] for a string [content],
    under the events node reports: the request it sends, and the state of
    its promise. *)
Definition postRequest (https : bool) (url : string) (content : string)
    (options : js_object) (events : list http_event) : effect * post_state :=
  (request_send https url options (Some content),
   fold_left post_handle events post_start).

Definition is_progress (ev : http_event) : bool :=
  match ev with
  | on_response _ _ | res_data _ => true
  | _ => false
  end.

(** More examples: a [POST] descriptor whose caller asks for [PUT], a
    list whose second descriptor has an unknown type, a factory without
    targets, and a response in two chunks. *)
Definition put_request : js_object :=
  [ ("method", JStr "PUT"); ("timeout", JNum 5) ].

Definition file_then_unknown : targets_arg :=
  ManyTargets
    [ FileTarget (PathString "~/app.log") false None no_options;
      OtherTarget (PStr "SYSLOG") no_options ].

Definition empty_factory : LoggerFactory := new_LoggerFactory [].

Definition two_lines : string := String "a" (String newline "b").

Definition begun_response : list http_event :=
  [ on_response 200 []; res_data "o"; res_data "k" ].

(** * Properties *)

(** ** The dispatcher, one target at a time *)

Lemma _log_S fuel X env path d now targets messages level logger msl :
  _log (S fuel) X env path d now targets messages level logger msl =
  if d
  then Thrown (new_Error "Logger has been destroyed")
  else match targets with
       | None => Thrown (new_TypeError "Cannot read properties of null (reading 'map')")
       | Some ts =>
           Promise_all
             (omap id (imap (target_task (_log fuel X env) X env path now ts
                               messages level logger msl) ts))
       end.
Proof. reflexivity. Qed.

Lemma target_task_index recover X env path now ts messages level logger msl i v t :
  target_task recover X env path now ts messages level logger msl i v = Some t ->
  task_index t = i.
Proof.
  unfold target_task. destruct (level_lt _ _); [discriminate|].
  intros [= <-]. reflexivity.
Qed.

(** [targets.map(...).filter(v => v)] keeps, for each position, the task
    made for that position if one was made. *)
Lemma filter_index_offset {A} (l : list A) :
  forall (F : nat -> A -> option task) (k : nat),
    (forall j v t, F j v = Some t -> task_index t = (k + j)%nat) ->
    forall n,
      List.filter (has_index n) (omap id (imap F l)) =
      if Nat.ltb n k then []
      else match l !! (n - k)%nat with
           | Some v => option_list (F (n - k)%nat v)
           | None => []
           end.
Proof.
  induction l as [|x l IH]; intros F k HF n.
  - simpl. destruct (Nat.ltb n k); reflexivity.
  - rewrite imap_cons. cbn [omap list_omap id].
    assert (Htail : forall j v t, (F ∘ S) j v = Some t -> task_index t = (S k + j)%nat).
    { intros j v t H. apply HF in H. lia. }
    specialize (IH (F ∘ S) (S k) Htail n).
    destruct (Nat.ltb_spec n k) as [Hlt|Hge].
    + destruct (Nat.ltb_spec n (S k)) as [_|?]; [|lia].
      destruct (F 0%nat x) as [t|] eqn:E; cbn; [|exact IH].
      apply HF in E. unfold has_index at 1. 
      destruct (Nat.eqb_spec (task_index t) n); [lia|exact IH].
    + destruct (Nat.eq_dec n k) as [->|Hne].
      * replace (k - k)%nat with 0%nat by lia. cbn [lookup list_lookup].
        destruct (Nat.ltb_spec k (S k)) as [_|?]; [|lia].
        destruct (F 0%nat x) as [t|] eqn:E; cbn; [|exact IH].
        apply HF in E. unfold has_index at 1.
        destruct (Nat.eqb_spec (task_index t) k); [|lia].
        rewrite IH. reflexivity.
      * destruct (Nat.ltb_spec n (S k)) as [?|_]; [lia|].
        replace (n - k)%nat with (S (n - S k)) by lia. cbn [lookup list_lookup].
        destruct (F 0%nat x) as [t|] eqn:E; cbn.
        -- apply HF in E. unfold has_index at 1.
           destruct (Nat.eqb_spec (task_index t) n); [lia|exact IH].
        -- exact IH.
Qed.

Lemma filter_index_tasks recover X env path now ts messages level logger msl n :
  List.filter (has_index n)
    (omap id (imap (target_task recover X env path now ts messages level
                      logger msl) ts)) =
  match ts !! n with
  | Some v => option_list (target_task recover X env path now ts messages
                             level logger msl n v)
  | None => []
  end.
Proof.
  rewrite (filter_index_offset ts _ 0%nat).
  - cbn. replace (n - 0)%nat with n by lia. reflexivity.
  - intros j v t H. apply target_task_index in H. exact H.
Qed.

Lemma task_origin {A} (F : nat -> A -> option task) (l : list A) (t : task) :
  In t (omap id (imap F l)) <-> exists i v, l !! i = Some v /\ F i v = Some t.
Proof.
  rewrite <- list_elem_of_In, list_elem_of_omap. split.
  - intros (o & Ho & Hid). apply elem_of_lookup_imap in Ho as (i & v & -> & Hl).
    exists i, v. split; [exact Hl|exact Hid].
  - intros (i & v & Hl & HF). exists (Some t). split; [|reflexivity].
    rewrite <- HF. apply elem_of_lookup_imap. exists i, v. split; [reflexivity|exact Hl].
Qed.

Lemma in_filter_index (n : nat) (t : task) (l : list task) :
  In t (List.filter (has_index n) l) <-> In t l /\ task_index t = n.
Proof.
  rewrite filter_In. unfold has_index.
  destruct (Nat.eqb_spec (task_index t) n); intuition congruence.
Qed.

Lemma task_exists_iff fuel X env path now ts messages r logger msl i v m :
  ts !! i = Some v ->
  t_level (base v) = LNum m ->
  r <= m <->
  exists t,
    In t (tasks_of (_log (S fuel) X env path false now (Some ts) messages r
                      logger msl))
    /\ task_index t = i.
Proof.
  intros Hi Hm. rewrite _log_S. cbn [tasks_of].
  pose proof (filter_index_tasks (_log fuel X env) X env path now ts messages
                r logger msl i) as Hf.
  rewrite Hi in Hf.
  split.
  - intros Hle. eexists. apply in_filter_index. rewrite Hf.
    unfold target_task. rewrite Hm. cbn [level_lt].
    destruct (Z.ltb_spec m r); [lia|]. left. reflexivity.
  - intros (t & Ht). apply in_filter_index in Ht. rewrite Hf in Ht.
    unfold target_task in Ht. rewrite Hm in Ht. cbn [level_lt] in Ht.
    destruct (Z.ltb_spec m r); [destruct Ht|lia].
Qed.

(** ** Recovery dispatches *)

Lemma derived_all_ignore (ts : list ParsedTarget) :
  all_ignore (map (with_errorPolicy IGNORE) ts).
Proof.
  intros v Hv. apply in_map_iff in Hv as (u & <- & _). reflexivity.
Qed.

Lemma lookup_In {A} (l : list A) (i : nat) (x : A) : l !! i = Some x -> In x l.
Proof. intros H. apply list_elem_of_In. eapply list_elem_of_lookup_2. exact H. Qed.

(** On a target with policy [IGNORE] the body never reaches the
    recursive call. *)
Lemma target_task_ignore recover recover' X env path now ts messages level
    logger msl i v :
  t_errorPolicy (base v) = IGNORE ->
  target_task recover X env path now ts messages level logger msl i v =
  target_task recover' X env path now ts messages level logger msl i v.
Proof.
  intros Hp. unfold target_task. rewrite Hp. reflexivity.
Qed.

Lemma target_task_ignore_quiet recover X env path now ts messages level
    logger msl i v t :
  t_errorPolicy (base v) = IGNORE ->
  target_task recover X env path now ts messages level logger msl i v = Some t ->
  quiet t.
Proof.
  intros Hp. unfold target_task. rewrite Hp.
  destruct (level_lt _ _); [discriminate|].
  intros [= <-]. unfold quiet. cbn.
  destruct (answer env _); exact I.
Qed.

Lemma _log_ignore_fuel fuel X env path d now ts messages level logger msl :
  all_ignore ts ->
  _log (S fuel) X env path d now (Some ts) messages level logger msl =
  _log 1 X env path d now (Some ts) messages level logger msl.
Proof.
  intros Hall. rewrite !_log_S. destruct d; [reflexivity|].
  f_equal. f_equal. apply imap_ext. intros i v Hi.
  apply target_task_ignore, Hall. eapply lookup_In. exact Hi.
Qed.

Lemma _log_ignore_quiet fuel X env path now ts messages level logger msl :
  all_ignore ts ->
  Forall quiet
    (tasks_of (_log (S fuel) X env path false now (Some ts) messages level
                 logger msl)).
Proof.
  intros Hall. rewrite _log_S. cbn [tasks_of].
  apply List.Forall_forall. intros t Ht.
  apply task_origin in Ht as (i & v & Hi & HF).
  eapply target_task_ignore_quiet; [|exact HF].
  apply Hall. eapply lookup_In. exact Hi.
Qed.

Lemma quiet_depth (t : task) : quiet t -> task_depth t = 0%nat.
Proof. destruct t as [i e s f h]. unfold quiet. cbn. destruct h; tauto. Qed.

Lemma quiet_complete (t : task) : quiet t -> task_complete t = true.
Proof. destruct t as [i e s f h]. unfold quiet. cbn. destruct h; tauto. Qed.

Lemma quiet_settles (t : task) :
  quiet t -> exists v, settle_task t = Some (Fulfilled (task_finished t) v).
Proof.
  destruct t as [i e s f h]. unfold quiet. cbn.
  destruct h; try tauto; intros _; eexists; reflexivity.
Qed.

Lemma all_quiet_depth (ts : list task) :
  Forall quiet ts -> list_max (map task_depth ts) = 0%nat.
Proof.
  induction 1 as [|t ts Ht _ IH]; [reflexivity|].
  cbn [map].
  change (list_max (task_depth t :: map task_depth ts))
    with (Nat.max (task_depth t) (list_max (map task_depth ts))).
  rewrite (quiet_depth t Ht), IH. reflexivity.
Qed.

Lemma all_quiet_complete (ts : list task) :
  Forall quiet ts -> forallb task_complete ts = true.
Proof.
  induction 1 as [|t ts Ht _ IH]; [reflexivity|].
  cbn. rewrite (quiet_complete t Ht), IH. reflexivity.
Qed.

Lemma all_quiet_settle (ts : list task) :
  Forall quiet ts ->
  exists l, all_some (map settle_task ts) = Some l
            /\ first_rejection l = None
            /\ map settled_at l = map task_finished ts.
Proof.
  induction 1 as [|t ts Ht _ (l & Hl & Hr & Hm)].
  - exists []. repeat split.
  - destruct (quiet_settles t Ht) as (v & Hv).
    exists (Fulfilled (task_finished t) v :: l). cbn.
    rewrite Hv, Hl. cbn. rewrite Hm. repeat split. exact Hr.
Qed.

Lemma target_task_shallow fuel X env path now ts messages level logger msl i v t :
  target_task (_log (S fuel) X env) X env path now ts messages level logger msl i v
  = Some t ->
  shallow t.
Proof.
  unfold target_task. destruct (level_lt _ _); [discriminate|].
  intros [= <-]. unfold shallow. cbn [task_handling].
  destruct (answer env _); [exact I|].
  destruct (t_errorPolicy (base v)); try exact I.
  destruct (destroyed_meanwhile env (path ++ [i])) eqn:Hd; cbn [negb]; [exact I|].
  eexists. split; [reflexivity|].
  exact (_log_ignore_quiet fuel X env (path ++ [i])
           (now + latency env (path ++ [i]))
           (map (with_errorPolicy IGNORE) ts)
           (failure_messages i now level messages error)
           (Z.min level levelNums.ERROR) logger msl
           (derived_all_ignore ts)).
Qed.

Lemma shallow_depth (t : task) : shallow t -> (task_depth t <= 1)%nat.
Proof.
  destruct t as [i e s f h]. unfold shallow. cbn.
  destruct h; try lia. intros (ts' & -> & Hq).
  rewrite (all_quiet_depth ts' Hq). lia.
Qed.

Lemma shallow_complete (t : task) : shallow t -> task_complete t = true.
Proof.
  destruct t as [i e s f h]. unfold shallow. cbn.
  destruct h; try reflexivity. intros (ts' & -> & Hq).
  apply all_quiet_complete, Hq.
Qed.

Lemma _log_shallow fuel X env path d now targets messages level logger msl :
  Forall shallow
    (tasks_of (_log (S (S fuel)) X env path d now targets messages level
                 logger msl)).
Proof.
  rewrite _log_S. destruct d; [constructor|].
  destruct targets as [ts|]; [|constructor]. cbn [tasks_of].
  apply List.Forall_forall. intros t Ht.
  apply task_origin in Ht as (i & v & _ & HF).
  eapply target_task_shallow. exact HF.
Qed.

(** Two levels of [_log] are all a call can reach: more fuel changes
    nothing. *)
Lemma _log_fuel_irrelevant fuel X env path d now targets messages level logger msl :
  _log (S (S fuel)) X env path d now targets messages level logger msl =
  _log 2 X env path d now targets messages level logger msl.
Proof.
  rewrite (_log_S (S fuel)), (_log_S 1). destruct d; [reflexivity|].
  destruct targets as [ts|]; [|reflexivity].
  f_equal. f_equal. apply imap_ext. intros i v _.
  unfold target_task.
  destruct (level_lt _ _); [reflexivity|].
  destruct (answer env _); [reflexivity|].
  destruct (t_errorPolicy (base v)); try reflexivity.
  destruct (destroyed_meanwhile env _); [reflexivity|]. cbn [negb].
  rewrite (_log_ignore_fuel fuel) by apply derived_all_ignore.
  reflexivity.
Qed.

Lemma relogged_depth_ge (t : task) (e : jsval) (rec : log_result task)
    (ts : list task) :
  task_handling t = Relogged e rec ->
  In t ts ->
  (1 <= list_max (map task_depth ts))%nat.
Proof.
  intros Hh Hin.
  assert (Ht : (1 <= task_depth t)%nat).
  { destruct t as [i eff st fin h]. cbn in Hh. subst h. cbn.
    destruct rec; lia. }
  pose proof (proj1 (list_max_le (map task_depth ts) (list_max (map task_depth ts)))
                (Nat.le_refl _)) as Hall.
  rewrite List.Forall_forall in Hall.
  specialize (Hall (task_depth t) (in_map task_depth ts t Hin)). lia.
Qed.

Lemma quiet_recovery_settles (created : Z) (ts : list task) :
  Forall quiet ts ->
  exists tm v, settle created (Promise_all ts) = Some (Fulfilled tm v).
Proof.
  intros Hq. destruct (all_quiet_settle ts Hq) as (l & Hl & Hr & _).
  cbn. rewrite Hl. cbn. unfold promise_all. rewrite Hr.
  eexists. eexists. reflexivity.
Qed.

(** C2.  A dispatch never nests recovery dispatches: with any fuel from
    two up [_log] returns the same completed result, whose recovery
    depth is at most one.  Each recovery dispatch it contains runs over
    the derived list, where every policy is [IGNORE]; each of its tasks
    ends delivered or swallowed (none starts a further dispatch, none
    rethrows), and its promise fulfils. *)
Theorem C2_recovery_failure_never_recovers
    (fuel : nat) (X : Externals) (env : Env) (path : list nat) (d : bool)
    (now : Z) (targets : option (list ParsedTarget)) (messages : list jsval)
    (level : Z) (logger : Logger) (msl : Z) :
  let res := _log (S (S fuel)) X env path d now targets messages level logger msl in
  res = _log call_depth X env path d now targets messages level logger msl
  /\ complete res = true
  /\ (depth res <= 1)%nat
  /\ ((exists t e rec, In t (tasks_of res) /\ task_handling t = Relogged e rec) ->
      depth res = 1%nat)
  /\ (forall t e rec,
        In t (tasks_of res) -> task_handling t = Relogged e rec ->
        exists ts attempt msgs,
          targets = Some ts
          /\ rec = _log (S fuel) X env attempt false (task_finished t)
                     (Some (map (with_errorPolicy IGNORE) ts)) msgs
                     (Z.min level levelNums.ERROR) logger msl
          /\ all_ignore (map (with_errorPolicy IGNORE) ts)
          /\ Forall quiet (tasks_of rec)
          /\ depth rec = 0%nat
          /\ exists tm v, settle (task_finished t) rec = Some (Fulfilled tm v)).
Proof.
  intros res. subst res.
  pose proof (_log_shallow fuel X env path d now targets messages level logger msl)
    as Hsh.
  split; [apply _log_fuel_irrelevant|].
  assert (Hdepth : (depth (_log (S (S fuel)) X env path d now targets messages
                             level logger msl) <= 1)%nat).
  { rewrite _log_S in *. destruct d; [cbn; lia|].
    destruct targets as [ts|]; [|cbn; lia]. cbn [depth tasks_of] in *.
    apply list_max_le. apply List.Forall_forall. intros n Hn.
    apply in_map_iff in Hn as (t & <- & Ht).
    apply shallow_depth. rewrite List.Forall_forall in Hsh. apply Hsh, Ht. }
  split; [|split; [exact Hdepth|split]].
  - rewrite _log_S in *. destruct d; [reflexivity|].
    destruct targets as [ts|]; [|reflexivity]. cbn [complete tasks_of] in *.
    apply forallb_forall. intros t Ht.
    apply shallow_complete. rewrite List.Forall_forall in Hsh. apply Hsh, Ht.
  - intros (t & e & rec & Ht & Hh).
    enough ((1 <= depth (_log (S (S fuel)) X env path d now targets messages
                           level logger msl))%nat) by lia.
    clear Hsh Hdepth. rewrite _log_S in *. destruct d; [destruct Ht|].
    destruct targets as [ts|]; [|destruct Ht]. cbn [depth tasks_of] in *.
    exact (relogged_depth_ge t e rec _ Hh Ht).
  - intros t e rec Ht Hh. clear Hsh. rewrite _log_S in Ht.
    destruct d; [destruct Ht|]. destruct targets as [ts|]; [|destruct Ht].
    cbn [tasks_of] in Ht. apply task_origin in Ht as (i & v & _ & HF).
    unfold target_task in HF. destruct (level_lt _ _); [discriminate|].
    injection HF as <-. cbn [task_handling task_finished] in *.
    destruct (answer env _) as [?|err]; [discriminate|].
    destruct (t_errorPolicy (base v)); try discriminate.
    destruct (destroyed_meanwhile env (path ++ [i])) eqn:Hd; cbn [negb] in Hh;
      [discriminate|].
    injection Hh as <- <-.
    exists ts, (path ++ [i])%list, (failure_messages i now level messages err).
    split; [reflexivity|]. split; [reflexivity|].
    split; [apply derived_all_ignore|].
    pose proof (_log_ignore_quiet fuel X env (path ++ [i])
                  (now + latency env (path ++ [i]))
                  (map (with_errorPolicy IGNORE) ts)
                  (failure_messages i now level messages err)
                  (Z.min level levelNums.ERROR) logger msl
                  (derived_all_ignore ts)) as Hq.
    split; [exact Hq|]. rewrite _log_S in *. cbn [tasks_of depth] in *.
    split; [apply all_quiet_depth, Hq|].
    apply quiet_recovery_settles, Hq.
Qed.

Lemma derived_lookup (ts : list ParsedTarget) (j : nat) :
  map (with_errorPolicy IGNORE) ts !! j = with_errorPolicy IGNORE <$> ts !! j.
Proof. apply list_lookup_fmap. Qed.

(** C3, refuted as stated: with the factory destroyed in the meantime
    the failure under policy [LOG] is dropped and no recovery event is
    made. *)
Lemma C3_no_recovery_once_destroyed :
  ~ failure_always_relogged plain destroyed_before_catch 0 log_then_stream
      [JStr "x"] levelNums.WARN some_logger 0 0.
Proof.
  intros H.
  destruct (H _ (JStr "down") eq_refl eq_refl eq_refl eq_refl)
    as (t & rec & Hin & Hidx & Hh).
  cbn in Hin. destruct Hin as [<-|[]]. discriminate.
Qed.

(** C3, amended.  When delivery to the eligible target at position [i]
    fails with [e], that target's policy is [LOG] and the factory has not
    been destroyed by the time the failure is caught
    ([if (!logger.destroyed)]), the dispatch holds exactly one task for
    [i], handled by one recovery dispatch: its messages are the text
    "Failed to log to target <i>:" and the record of the call's
    timestamp, its level name, its messages and [e]; its rank is the
    smaller of the call's rank and ERROR; its targets are the call's
    targets with every policy set to [IGNORE] and nothing else changed;
    a target receives the recovery event exactly when that rank is at
    most its minimum rank. *)
Theorem C3_failure_relogged_over_derived_targets
    (fuel : nat) (X : Externals) (env : Env) (path : list nat) (now : Z)
    (ts : list ParsedTarget) (messages : list jsval) (level : Z)
    (logger : Logger) (msl : Z) (i : nat) (v : ParsedTarget) (e : jsval) :
  ts !! i = Some v ->
  level_lt (t_level (base v)) level = false ->
  answer env (path ++ [i]) = Failed e ->
  t_errorPolicy (base v) = LOG ->
  destroyed_meanwhile env (path ++ [i]) = false ->
  let res := _log (S (S fuel)) X env path false now (Some ts) messages level
               logger msl in
  let finished := now + latency env (path ++ [i]) in
  let derived := map (with_errorPolicy IGNORE) ts in
  let rank := Z.min level levelNums.ERROR in
  let recovery :=
    _log (S fuel) X env (path ++ [i]) false finished (Some derived)
      [ JStr ("Failed to log to target " +:+ pretty i +:+ ":");
        JObj [ ("timestamp", JNum now);
               ("level", opt_jsval (levels level) JUndefined);
               ("messages", JArr messages);
               ("error", e) ] ]
      rank logger msl in
  List.filter (has_index i) (tasks_of res) =
    [ Task i (rendered X logger msl v messages level now) now finished
        (Relogged e recovery) ]
  /\ rank <= levelNums.ERROR
  /\ (level <= levelNums.ERROR -> rank = level)
  /\ (forall j u, ts !! j = Some u ->
        exists u', derived !! j = Some u'
                   /\ kind u' = kind u
                   /\ t_level (base u') = t_level (base u)
                   /\ t_color (base u') = t_color (base u)
                   /\ t_uniform (base u') = t_uniform (base u)
                   /\ t_format (base u') = t_format (base u)
                   /\ t_fullTimestamps (base u') = t_fullTimestamps (base u)
                   /\ t_errorPolicy (base u') = IGNORE)
  /\ length derived = length ts
  /\ (forall j u m, ts !! j = Some u -> t_level (base u) = LNum m ->
        (rank <= m <-> exists t, In t (tasks_of recovery) /\ task_index t = j)).
Proof.
  intros Hi Hlt Hans Hpol Hd res finished derived rank recovery.
  split; [|split; [|split; [|split; [|split]]]].
  - subst res. rewrite _log_S. cbn [tasks_of]. rewrite filter_index_tasks, Hi.
    unfold target_task. rewrite Hlt, Hans, Hpol, Hd. reflexivity.
  - subst rank. unfold levelNums.ERROR. lia.
  - subst rank. unfold levelNums.ERROR. lia.
  - intros j u Hj. exists (with_errorPolicy IGNORE u). subst derived.
    rewrite derived_lookup, Hj. repeat split.
  - subst derived. apply length_map.
  - intros j u m Hj Hm. subst recovery.
    assert (Hj' : derived !! j = Some (with_errorPolicy IGNORE u)).
    { subst derived. rewrite derived_lookup, Hj. reflexivity. }
    apply (task_exists_iff fuel X env (path ++ [i]) finished derived _ rank
             logger msl j (with_errorPolicy IGNORE u) m Hj' Hm).
Qed.

(** ** When the caller learns of a failure *)

Lemma first_rejection_In (l : list settlement) (t : Z) (e : jsval) :
  first_rejection l = Some (t, e) ->
  In (Rejected t e) l /\ forall t' e', In (Rejected t' e') l -> t <= t'.
Proof.
  revert t e. induction l as [|s l IH]; intros t e; [discriminate|].
  destruct s as [tf vf|tr er]; cbn [first_rejection].
  - intros H. destruct (IH _ _ H) as [Hin Hmin]. split; [right; exact Hin|].
    intros t' e' [Heq|Hin']; [discriminate|]. eapply Hmin, Hin'.
  - destruct (first_rejection l) as [[t0 e0]|] eqn:E.
    + destruct (IH _ _ eq_refl) as [Hin Hmin].
      destruct (Z.ltb_spec t0 tr); intros [= <- <-].
      * split; [right; exact Hin|].
        intros t' e' [[= <- <-]|Hin']; [lia|]. eapply Hmin, Hin'.
      * split; [left; reflexivity|].
        intros t' e' [[= <- <-]|Hin']; [lia|].
        specialize (Hmin _ _ Hin'). lia.
    + intros [= <- <-]. split; [left; reflexivity|].
      intros t' e' [[= <- <-]|Hin']; [lia|].
      exfalso. clear IH. induction l as [|s l IHl]; [destruct Hin'|].
      destruct s; cbn [first_rejection] in E.
      * destruct Hin' as [|Hin']; [discriminate|]. apply IHl; assumption.
      * destruct (first_rejection l) as [[? ?]|]; [destruct (Z.ltb _ _)|];
          discriminate.
Qed.

Lemma first_rejection_exists (l : list settlement) (t : Z) (e : jsval) :
  In (Rejected t e) l -> exists t' e', first_rejection l = Some (t', e').
Proof.
  induction l as [|s l IH]; [intros []|].
  intros [->|Hin]; cbn [first_rejection].
  - destruct (first_rejection l) as [[t0 e0]|]; [destruct (Z.ltb t0 t)|];
      eexists; eexists; reflexivity.
  - destruct (IH Hin) as (t' & e' & ->).
    destruct s; [eexists; eexists; reflexivity|].
    destruct (Z.ltb t' time); eexists; eexists; reflexivity.
Qed.

(** A shallow task settles, and it rejects only by rethrowing. *)
Lemma shallow_settles (t : task) :
  shallow t ->
  exists s, settle_task t = Some s
            /\ forall tm x, s = Rejected tm x ->
                 task_handling t = Rethrown x /\ task_finished t = tm.
Proof.
  destruct t as [i eff st fin h]. unfold shallow. cbn [task_handling task_finished].
  destruct h as [v|e|e|e rec]; cbn [settle_task].
  - intros _. eexists. split; [reflexivity|]. discriminate.
  - intros _. eexists. split; [reflexivity|]. intros tm x [= <- <-]. split; reflexivity.
  - intros _. eexists. split; [reflexivity|]. discriminate.
  - intros (ts' & -> & Hq). destruct (all_quiet_settle ts' Hq) as (l & Hl & Hr & _).
    rewrite Hl. cbn. unfold promise_all. rewrite Hr.
    eexists. split; [reflexivity|]. discriminate.
Qed.

Lemma all_shallow_settle (ts : list task) :
  Forall shallow ts ->
  exists l, all_some (map settle_task ts) = Some l
            /\ (forall t, In t ts -> exists s, settle_task t = Some s /\ In s l)
            /\ (forall tm x, In (Rejected tm x) l ->
                  exists t, In t ts /\ task_handling t = Rethrown x
                            /\ task_finished t = tm).
Proof.
  induction 1 as [|t ts Ht _ (l & Hl & Hfw & Hbw)].
  - exists []. split; [reflexivity|]. split; [intros ? []|intros ? ? []].
  - destruct (shallow_settles t Ht) as (s & Hs & Hrej).
    exists (s :: l). cbn [map all_some]. rewrite Hs, Hl. split; [reflexivity|]. split.
    + intros t' [<-|Hin].
      * exists s. split; [exact Hs|left; reflexivity].
      * destruct (Hfw t' Hin) as (s' & Hs' & Hin'). exists s'.
        split; [exact Hs'|right; exact Hin'].
    + intros tm x [->|Hin].
      * exists t. split; [left; reflexivity|]. apply Hrej. reflexivity.
      * destruct (Hbw tm x Hin) as (t' & Hin' & Hh). exists t'.
        split; [right; exact Hin'|exact Hh].
Qed.

Lemma map_omap_imap_ext {A B} (k : task -> B) (l : list A) :
  forall F G : nat -> A -> option task,
    (forall i v, option_map k (F i v) = option_map k (G i v)) ->
    map k (omap id (imap F l)) = map k (omap id (imap G l)).
Proof.
  induction l as [|x l IH]; intros F G H; [reflexivity|].
  rewrite !imap_cons. cbn [omap list_omap id].
  specialize (IH (F ∘ S) (G ∘ S) (fun i v => H (S i) v)).
  specialize (H 0%nat x).
  destruct (F 0%nat x), (G 0%nat x); cbn in H; try discriminate.
  - cbn [map]. injection H as ->. f_equal. exact IH.
  - exact IH.
Qed.

Lemma starts_independent fuel fuel' X env env' path now ts messages level logger msl :
  map task_start
    (tasks_of (_log (S fuel) X env path false now (Some ts) messages level
                 logger msl)) =
  map task_start
    (tasks_of (_log (S fuel') X env' path false now (Some ts) messages level
                 logger msl)).
Proof.
  rewrite !_log_S. cbn [tasks_of]. apply map_omap_imap_ext.
  intros i v. unfold target_task. destruct (level_lt _ _); reflexivity.
Qed.

(** C4, refuted as stated: the call rejects at time 1, while the write
    to the second target is acknowledged at time 5. *)
Lemma C4_rejects_before_all_settled :
  ~ surfaces_after_all_settled plain first_fails_fast 0 throw_then_slow
      [JStr "x"] levelNums.ERROR some_logger 0.
Proof.
  intros H.
  specialize (H 1 (JStr "down") eq_refl
                (Task 1 (stream_write 0
                           ("[00:00:00.000] [ERROR] [svc] x" +:+ String newline ""))
                   0 5 (Delivered JNull))
                (Fulfilled 5 JNull)).
  cbn in H. specialize (H (or_intror (or_introl eq_refl)) eq_refl). lia.
Qed.

(** C4, amended.  The call settles.  When an eligible target with
    policy [THROW] fails, the call rejects, with the failure of such a
    target and at the moment that target failed, which is the earliest
    failure among them: it does not wait for the other tasks.  Nothing
    is cancelled: which operations are started, on which sink and when,
    is the same whatever the sinks answer. *)
Theorem C4_rejects_at_first_throw_failure
    (fuel : nat) (X : Externals) (env : Env) (path : list nat) (now : Z)
    (ts : list ParsedTarget) (messages : list jsval) (level : Z)
    (logger : Logger) (msl : Z) :
  let res := _log (S (S fuel)) X env path false now (Some ts) messages level
               logger msl in
  let throws (j : nat) (x : jsval) : Prop :=
    exists u, ts !! j = Some u
              /\ level_lt (t_level (base u)) level = false
              /\ t_errorPolicy (base u) = THROW
              /\ answer env (path ++ [j]) = Failed x in
  (exists s, settle now res = Some s)
  /\ (forall i e, throws i e ->
        exists tm e' j,
          settle now res = Some (Rejected tm e')
          /\ throws j e'
          /\ tm = now + latency env (path ++ [j])
          /\ forall k x, throws k x -> tm <= now + latency env (path ++ [k]))
  /\ (forall env' : Env,
        map task_start (tasks_of res) =
        map task_start
          (tasks_of (_log (S (S fuel)) X env' path false now (Some ts) messages
                       level logger msl))).
Proof.
  intros res throws.
  pose proof (_log_shallow fuel X env path false now (Some ts) messages level
                logger msl) as Hsh.
  fold res in Hsh.
  destruct (all_shallow_settle _ Hsh) as (l & Hl & Hfw & Hbw).
  assert (Hres : res = Promise_all (tasks_of res)).
  { subst res. rewrite _log_S. reflexivity. }
  assert (Hsettle : settle now res = Some (promise_all now l)).
  { rewrite Hres. cbn [settle]. rewrite Hl. reflexivity. }
  assert (Hthrow_task : forall k x, throws k x ->
            In (Rejected (now + latency env (path ++ [k])) x) l).
  { intros k x (u & Hk & Hlt & Hpol & Hans).
    assert (Hin : In (Task k
                        (deliver (kind u)
                           (format X messages level (component logger)
                              (source logger) (logger_color logger)
                              (t_uniform (base u)) msl (t_format (base u))
                              (t_color (base u)) now (t_fullTimestamps (base u))))
                        now (now + latency env (path ++ [k])) (Rethrown x))
                     (tasks_of res)).
    { subst res. rewrite _log_S. cbn [tasks_of]. apply task_origin.
      exists k, u. split; [exact Hk|].
      unfold target_task. rewrite Hlt, Hans, Hpol. reflexivity. }
    destruct (Hfw _ Hin) as (s & Hs & Hsl). cbn in Hs. injection Hs as <-.
    exact Hsl. }
  split; [|split].
  - eexists. exact Hsettle.
  - intros i e Hi. pose proof (Hthrow_task i e Hi) as Hin.
    destruct (first_rejection_exists l _ _ Hin) as (tm & e' & Hfr).
    destruct (first_rejection_In l tm e' Hfr) as [Hin' Hmin].
    destruct (Hbw tm e' Hin') as (t & Ht & Hh & Hfin).
    assert (Horigin : exists j, throws j e' /\ tm = now + latency env (path ++ [j])).
    { subst res. rewrite _log_S in Ht. cbn [tasks_of] in Ht.
      apply task_origin in Ht as (j & u & Hj & HF).
      unfold target_task in HF.
      destruct (level_lt (t_level (base u)) level) eqn:Hlt; [discriminate|].
      injection HF as <-. cbn [task_handling task_finished] in Hh, Hfin.
      exists j. split; [|symmetry; exact Hfin].
      exists u. split; [exact Hj|]. split; [exact Hlt|].
      destruct (answer env (path ++ [j])) as [?|err]; [discriminate|].
      destruct (t_errorPolicy (base u)); try discriminate.
      - injection Hh as ->. split; reflexivity.
      - destruct (negb _); discriminate. }
    destruct Horigin as (j & Hj & Htm).
    exists tm, e', j. split.
    { rewrite Hsettle. unfold promise_all. rewrite Hfr. reflexivity. }
    split; [exact Hj|]. split; [exact Htm|].
    intros k x Hk. eapply Hmin. apply Hthrow_task, Hk.
  - intros env'. subst res. apply starts_independent.
Qed.

(** ** [createLogger] and the running maximum *)

Lemma creates_bind_get c s this (k : LoggerFactory -> M LoggerFactory Logger) :
  creates c s this (k this) -> creates c s this (bind get k).
Proof. unfold creates, bind, get. tauto. Qed.

Lemma creates_bind {A} c s this (m : M LoggerFactory A)
    (k : A -> M LoggerFactory Logger) :
  reads_only this m ->
  (forall a, creates c s this (k a)) ->
  creates c s this (bind m k).
Proof.
  intros [r Hr] Hk. unfold creates, bind. rewrite Hr.
  destruct r as [a|e]; [apply Hk|]. left. eexists. reflexivity.
Qed.

Lemma creates_throw c s this e : creates c s this (throw e).
Proof. left. eexists. reflexivity. Qed.

Ltac reads_only_tac :=
  unfold reads_only;
  repeat match goal with
         | |- exists r, (match ?x with _ => _ end) _ = _ => destruct x
         end;
  eexists; reflexivity.

Lemma createLogger_creates (c : string) (s : option string) (col : jsval)
    (this : LoggerFactory) :
  creates c s this (createLogger c s col).
Proof.
  unfold createLogger. apply creates_bind_get.
  destruct (destroyed this) eqn:Hd; [apply creates_throw|].
  apply creates_bind; [reads_only_tac|intros color1].
  apply creates_bind; [reads_only_tac|intros color2].
  apply creates_bind; [reads_only_tac|intros color3].
  apply creates_bind; [reads_only_tac|intros _].
  right. split; [exact Hd|]. eexists.
  unfold bind, get, ret, set_maxSourceLength, raise_max. cbn.
  destruct (Z.ltb_spec (maxSourceLength this) (sourceLength c s)); cbn.
  - f_equal. f_equal. lia.
  - destruct this as [tg mx ds]. cbn in *. f_equal. f_equal. lia.
Qed.

(** C10.  Whenever [createLogger] throws, the factory is exactly as it
    was before the call: every check that can throw comes before the
    write to [maxSourceLength]. *)
Theorem C10_createLogger_throw_leaves_factory_unchanged
    (c : string) (s : option string) (col : jsval)
    (this this' : LoggerFactory) (e : jsval) :
  createLogger c s col this = (this', Throw e) ->
  this' = this.
Proof.
  intros H.
  destruct (createLogger_creates c s col this) as [(e' & He)|(_ & color & Hc)].
  - rewrite He in H. injection H as <- _. reflexivity.
  - rewrite Hc in H. discriminate.
Qed.

Lemma createLoggers_max (specs : list logger_spec) :
  forall this : LoggerFactory,
    let out := createLoggers specs this in
    maxSourceLength (fst out) =
      fold_left Z.max (map logger_length (created (snd out)))
        (maxSourceLength this)
    /\ targets (fst out) = targets this
    /\ destroyed (fst out) = destroyed this.
Proof.
  induction specs as [|[[c s] col] rest IH]; intros this; [repeat split|].
  cbn [createLoggers].
  destruct (createLogger_creates c s col this) as [(e & He)|(_ & color & Hc)].
  - rewrite He. specialize (IH this).
    destruct (createLoggers rest this) as [this2 rs]. cbn in *. exact IH.
  - rewrite Hc. specialize (IH (raise_max (sourceLength c s) this)).
    destruct (createLoggers rest _) as [this2 rs]. cbn in *. exact IH.
Qed.

Lemma fold_left_max_ge (l : list Z) : forall a, a <= fold_left Z.max l a.
Proof.
  induction l as [|x l IH]; intros a; cbn; [lia|].
  specialize (IH (Z.max a x)). lia.
Qed.

(** C5, refuted as stated: "svc" is created when the maximum is 3, "svc2"
    raises it to 4, and the next line of "svc" is padded to 4. *)
Lemma C5_earlier_logger_uses_later_maximum :
  ~ width_frozen_at_creation plain calm 1000 (new_LoggerFactory aligned_stream)
      ("svc", None, JNull) [("svc2", None, JNull)] levelNums.INFO [JStr "x"].
Proof.
  intros H. specialize (H _ _ eq_refl). vm_compute in H. discriminate.
Qed.

Example C5_lines_of_svc :
  let this0 := new_LoggerFactory aligned_stream in
  let this2 := fst (createLoggers [("svc", None, JNull); ("svc2", None, JNull)] this0) in
  maxSourceLength this2 = 4
  /\ touches (Logger_info plain calm 1000 (new_Logger "svc" None None) this2 [JStr "x"])
     = [ (1000, stream_write 0 ("[00:00:01.000] [INFO]  [svc ] x" +:+ String newline "")) ].
Proof. split; reflexivity. Qed.

Lemma fold_left_max_In (l : list Z) :
  forall a x, In x l -> x <= fold_left Z.max l a.
Proof.
  induction l as [|y l IH]; intros a x; [intros []|].
  intros [->|Hin]; cbn.
  - pose proof (fold_left_max_ge l (Z.max a x)). lia.
  - apply IH, Hin.
Qed.

Lemma rendered_derived X lg width v messages level timestamp :
  rendered X lg width (with_errorPolicy IGNORE v) messages level timestamp =
  rendered X lg width v messages level timestamp.
Proof. reflexivity. Qed.

(** C5, amended.  The width a log call pads with is the factory's
    running maximum when the method is called: the largest [sourceLength]
    among the loggers the factory has created by then (whether before or
    after the calling logger), or the initial value.  The call reads it
    once: each target, and each target of a recovery dispatch, is handed
    a line rendered with that one width. *)
Theorem C5_width_is_running_maximum_at_call
    (X : Externals) (env : Env) (now : Z) (this : LoggerFactory)
    (specs : list logger_spec) (level : Z) (lg : Logger)
    (messages : list jsval) :
  let out := createLoggers specs this in
  let manager := fst out in
  let width :=
    fold_left Z.max (map logger_length (created (snd out)))
      (maxSourceLength this) in
  let res := Logger_log level X env now lg manager messages in
  maxSourceLength manager = width
  /\ maxSourceLength this <= width
  /\ (forall other, In other (created (snd out)) -> logger_length other <= width)
  /\ (forall t, In t (tasks_of res) ->
        exists ts v,
          targets manager = Some ts /\ ts !! task_index t = Some v
          /\ task_touch t = rendered X lg width v messages level now)
  /\ (forall t e rec t',
        In t (tasks_of res) -> task_handling t = Relogged e rec ->
        In t' (tasks_of rec) ->
        exists ts v,
          targets manager = Some ts /\ ts !! task_index t' = Some v
          /\ task_touch t' =
             rendered X lg width v
               (failure_messages (task_index t) now level messages e)
               (Z.min level levelNums.ERROR) (task_finished t)).
Proof.
  intros out manager width res.
  destruct (createLoggers_max specs this) as (Hmax & _ & _).
  fold out in Hmax. fold manager in Hmax. fold width in Hmax.
  split; [exact Hmax|].
  split; [apply fold_left_max_ge|].
  split.
  { intros other Hin. apply fold_left_max_In. apply in_map. exact Hin. }
  assert (Htask : forall t, In t (tasks_of res) ->
            exists ts i v,
              targets manager = Some ts /\ ts !! i = Some v
              /\ target_task (_log 1 X env) X env [] now ts messages level lg
                   width i v = Some t).
  { intros t Ht. subst res. unfold Logger_log, call_depth in Ht.
    rewrite _log_S in Ht. destruct (destroyed manager); [destruct Ht|].
    destruct (targets manager) as [ts|]; [|destruct Ht].
    cbn [tasks_of] in Ht. apply task_origin in Ht as (i & v & Hi & HF).
    rewrite Hmax in HF. exists ts, i, v. repeat split; assumption. }
  split.
  - intros t Ht. destruct (Htask t Ht) as (ts & i & v & Hts & Hv & HF).
    exists ts, v. split; [exact Hts|].
    unfold target_task in HF. destruct (level_lt _ _); [discriminate|].
    injection HF as <-. split; [exact Hv|reflexivity].
  - intros t e rec t' Ht Hh Ht'.
    destruct (Htask t Ht) as (ts & i & v & Hts & Hv & HF).
    unfold target_task in HF. destruct (level_lt _ _); [discriminate|].
    injection HF as <-. cbn [task_handling task_index task_finished] in *.
    destruct (answer env [i]) as [?|err]; [discriminate|].
    destruct (t_errorPolicy (base v)); try discriminate.
    destruct (destroyed_meanwhile env [i]) eqn:Hd; cbn [negb] in Hh;
      [discriminate|].
    injection Hh as <- <-. cbn [tasks_of] in Ht'.
    apply task_origin in Ht' as (j & u' & Hj & HF').
    rewrite derived_lookup in Hj.
    destruct (ts !! j) as [u|] eqn:Hu; [|discriminate]. injection Hj as <-.
    exists ts, u. split; [exact Hts|].
    unfold target_task in HF'. destruct (level_lt _ _); [discriminate|].
    injection HF' as <-. split; [exact Hu|reflexivity].
Qed.

(** ** The life of a factory *)

Lemma add_history_nil (w : World) : add_history [] w = w.
Proof. destruct w. unfold add_history. cbn. rewrite app_nil_r. reflexivity. Qed.

Lemma add_history_app (es es' : list effect) (w : World) :
  add_history es' (add_history es w) = add_history (es ++ es')%list w.
Proof. unfold add_history. cbn. rewrite <- app_assoc. reflexivity. Qed.

Lemma forEach_destroy_private (ts : list ParsedTarget) :
  forall w : World,
    forEach (List.filter private_stream ts) destroy_stream w =
    (add_history (map stream_destroy (private_streams ts)) w, Ok tt).
Proof.
  induction ts as [|v ts IH]; intros w.
  - cbn. rewrite add_history_nil. reflexivity.
  - cbn [List.filter private_streams flat_map]. unfold private_stream at 1.
    destruct (kind v) as [id [|]| | |] eqn:Hk;
      try (apply IH).
    cbn [forEach]. unfold bind. unfold destroy_stream at 1. rewrite Hk.
    unfold perform. fold (add_history [stream_destroy id] w).
    rewrite IH, add_history_app. reflexivity.
Qed.

(** [destroy], case by case. *)
Lemma destroy_cases (w : World) (this : LoggerFactory) :
  destroy (w, this) =
  if destroyed this
  then ((w, this), Ok tt)
  else match targets this with
       | Some ts =>
           ((add_history (map stream_destroy (private_streams ts)) w,
             torn_down this), Ok tt)
       | None =>
           ((w, mark_destroyed this),
            Throw (new_TypeError "Cannot read properties of null (reading 'filter')"))
       end.
Proof.
  unfold destroy, bind, get. cbn [snd fst].
  destruct (destroyed this) eqn:Hd; [reflexivity|].
  unfold on_factory, set_destroyed, set_targets. cbn [snd fst].
  destruct (targets this) as [ts|] eqn:Ht.
  - unfold on_world. cbn [fst snd]. rewrite forEach_destroy_private. reflexivity.
  - unfold mark_destroyed, throw. rewrite Ht. reflexivity.
Qed.

Lemma destroy_sets_flag (st : World * LoggerFactory) :
  destroyed (snd (fst (destroy st))) = true.
Proof.
  destruct st as [w this]. rewrite destroy_cases.
  destruct (destroyed this) eqn:Hd; [exact Hd|].
  destruct (targets this); reflexivity.
Qed.

Lemma createLogger_destroyed c s col (this : LoggerFactory) :
  destroyed this = true ->
  createLogger c s col this =
  (this, Throw (new_Error "LoggerFacotry has been destroyed")).
Proof. intros Hd. unfold createLogger, bind, get. rewrite Hd. reflexivity. Qed.

Lemma step_refused (X : Externals) (o : op) (st : World * LoggerFactory) :
  destroyed (snd st) = true ->
  fst (step X o st) = st /\ refused (snd (step X o st)).
Proof.
  intros Hd. destruct st as [w this]. cbn [snd] in Hd.
  destruct o as [c s col|level env now lg messages|]; cbn [step].
  - unfold on_factory. cbn [fst snd]. rewrite (createLogger_destroyed _ _ _ _ Hd).
    split; reflexivity.
  - cbn [fst snd]. unfold Logger_log, call_depth. rewrite _log_S, Hd.
    repeat split.
  - rewrite destroy_cases, Hd. split; reflexivity.
Qed.

Lemma run_refused (X : Externals) (ops : list op) (st : World * LoggerFactory) :
  destroyed (snd st) = true ->
  fst (run X ops st) = st /\ Forall refused (snd (run X ops st)).
Proof.
  intros Hd. induction ops as [|o ops [IHst IHrs]]; [split; [reflexivity|constructor]|].
  cbn [run]. destruct (step_refused X o st Hd) as [Hst Hr].
  destruct (step X o st) as [st1 r]. cbn [fst snd] in Hst, Hr. subst st1.
  destruct (run X ops st) as [st2 rs]. cbn [fst snd] in *.
  split; [exact IHst|constructor; assumption].
Qed.

(** C6.  Once [destroy] has been called, whatever is called next on the
    factory or on its loggers is refused: [createLogger] throws the
    factory's "destroyed" error, every log method throws the logger's
    "destroyed" error before it starts any operation on a sink, and
    nothing in the factory or in the process changes any more. *)
Theorem C6_calls_after_destroy_are_refused
    (X : Externals) (st : World * LoggerFactory) (ops : list op) :
  let st1 := fst (destroy st) in
  let out := run X ops st1 in
  destroyed (snd st1) = true
  /\ fst out = st1
  /\ Forall refused (snd out).
Proof.
  intros st1 out. pose proof (destroy_sets_flag st) as Hd. fold st1 in Hd.
  split; [exact Hd|]. apply run_refused, Hd.
Qed.

(** C7.  A second [destroy] returns normally and changes nothing: the
    flag stays set, the target list stays cleared and no stream is
    released again.  On a live factory the first call releases each
    private stream once, clears the target list and sets the flag. *)
Theorem C7_destroy_twice_is_destroy_once (st : World * LoggerFactory) :
  let once := destroy st in
  let twice := destroy (fst once) in
  twice = (fst once, Ok tt)
  /\ destroyed (snd (fst once)) = true
  /\ (forall ts,
        destroyed (snd st) = false -> targets (snd st) = Some ts ->
        snd once = Ok tt
        /\ targets (snd (fst once)) = None
        /\ history (fst (fst once)) =
           (history (fst st) ++ map stream_destroy (private_streams ts))%list
        /\ history (fst (fst twice)) = history (fst (fst once))).
Proof.
  intros once twice.
  assert (Htwice : twice = (fst once, Ok tt)).
  { subst twice. pose proof (destroy_sets_flag st) as Hd. fold once in Hd.
    destruct (fst once) as [w1 this1]. rewrite destroy_cases.
    cbn [snd] in Hd. rewrite Hd. reflexivity. }
  split; [exact Htwice|]. split; [apply destroy_sets_flag|].
  intros ts Hd Hts. rewrite Htwice. subst once. destruct st as [w this].
  cbn [snd fst] in *. rewrite destroy_cases, Hd, Hts. repeat split.
Qed.

(** ** Who owns a stream *)

Lemma normalized_mono lo lo' hi hi' d v :
  (lo' <= lo)%nat -> (hi <= hi')%nat ->
  normalized lo hi d v -> normalized lo' hi' d v.
Proof.
  intros Hlo Hhi. destruct d as [? ? ? ?|[id|?] ?|? ? ? ?|?|? ?|? ?]; cbn; try tauto.
  intros (id & Hk & Hr). exists id. split; [exact Hk|lia].
Qed.

Lemma grows_refl (w : World) : grows w w.
Proof. split; [lia|]. exists []. rewrite app_nil_r. split; reflexivity. Qed.

Lemma grows_trans (w1 w2 w3 : World) : grows w1 w2 -> grows w2 w3 -> grows w1 w3.
Proof.
  intros [H1 (es & He & Hr)] [H2 (es' & He' & Hr')]. split; [lia|].
  exists (es ++ es')%list. rewrite He', He, app_assoc. split; [reflexivity|].
  rewrite existsb_app, Hr, Hr'. reflexivity.
Qed.

Lemma createStream_cases (path : path_like) (failIfExists : bool) (w : World) :
  (exists e, createStream path failIfExists w = (w, Throw e))
  \/ (exists p,
        createStream path failIfExists w =
        ({| homedir := homedir w;
            fs_refuses := fs_refuses w;
            next_stream := S (next_stream w);
            history := (history w
                        ++ [createWriteStream (next_stream w) p
                              (if failIfExists then "ax" else "a")])%list |},
         Ok (next_stream w))).
Proof.
  unfold createStream, bind, fresh_stream, perform, get, ret, throw.
  destruct path; cbn;
    try (match goal with
         | |- context [fs_refuses w ?p] => destruct (fs_refuses w p)
         end; [left; eexists; reflexivity|right; eexists; reflexivity]).
  left. eexists. reflexivity.
Qed.

Lemma parseTarget_ok (d : Target) (w w' : World) (v : ParsedTarget) :
  parseTarget d w = (w', Ok v) ->
  grows w w' /\ normalized (next_stream w) (next_stream w') d v.
Proof.
  destruct d as [path fie el opts|[id|x] opts|url https options opts|opts
                |[f|x] opts|type opts];
    unfold parseTarget, bind, lift, ret, throw.
  - destruct (createStream_cases path fie w) as [(e & ->)|(p & ->)]; [discriminate|].
    destruct el as [l|]; unfold perform, ret; cbn [history next_stream homedir];
      destruct (baseTargetOptions opts); try discriminate;
      intros [= <- <-]; unfold grows; cbn [next_stream history kind].
    + split.
      * split; [lia|]. eexists. rewrite <- app_assoc. split; reflexivity.
      * exists (next_stream w). split; [reflexivity|lia].
    + split.
      * split; [lia|]. eexists. split; reflexivity.
      * exists (next_stream w). split; [reflexivity|lia].
  - destruct (baseTargetOptions opts); [|discriminate].
    intros [= <- <-]. split; [apply grows_refl|reflexivity].
  - discriminate.
  - destruct (baseTargetOptions opts); [|discriminate].
    intros [= <- <-]. split; [apply grows_refl|].
    cbn. destruct (default true https); exact I.
  - destruct (baseTargetOptions opts); [|discriminate].
    intros [= <- <-]. split; [apply grows_refl|exact I].
  - destruct (baseTargetOptions opts); [|discriminate].
    intros [= <- <-]. split; [apply grows_refl|exact I].
  - discriminate.
  - discriminate.
Qed.

Lemma parseTargets_ok (ds : list Target) :
  forall (w w' : World) (vs : list ParsedTarget),
    parseTargets ds w = (w', Ok vs) ->
    grows w w' /\ Forall2 (normalized (next_stream w) (next_stream w')) ds vs.
Proof.
  induction ds as [|d ds IH]; intros w w' vs.
  - intros [= <- <-]. split; [apply grows_refl|constructor].
  - cbn [parseTargets]. unfold bind at 1.
    destruct (parseTarget d w) as [w1 [v|e]] eqn:Hd; [|discriminate].
    unfold bind at 1.
    destruct (parseTargets ds w1) as [w2 [vs'|e]] eqn:Hds; [|discriminate].
    intros [= <- <-].
    destruct (parseTarget_ok _ _ _ _ Hd) as [Hg1 Hn1].
    destruct (IH _ _ _ Hds) as [Hg2 Hn2].
    split; [eapply grows_trans; eassumption|].
    destruct Hg1 as [Hlo1 _], Hg2 as [Hlo2 _].
    constructor.
    + eapply normalized_mono; [| |exact Hn1]; lia.
    + eapply Forall2_impl; [exact Hn2|].
      intros d' v' Hn. eapply normalized_mono; [| |exact Hn]; lia.
Qed.

Lemma private_streams_fresh (lo hi : nat) (ds : list Target) (ts : list ParsedTarget) :
  Forall2 (normalized lo hi) ds ts ->
  forall id, In id (private_streams ts) -> (lo <= id < hi)%nat.
Proof.
  induction 1 as [|d v ds ts Hn _ IH]; intros id; [intros []|].
  cbn [private_streams flat_map]. intros Hin. apply in_app_or in Hin as [Hin|Hin].
  - destruct (kind v) as [id' [|]| | |] eqn:Hk; try contradiction.
    destruct Hin as [<-|[]].
    destruct d as [? ? ? ?|[i0|?] ?|? ? ? ?|?|? ?|? ?]; cbn in Hn;
      rewrite ?Hk in Hn; try contradiction; try discriminate.
    destruct Hn as (i1 & [= <-] & Hr). exact Hr.
  - apply IH, Hin.
Qed.

Lemma deliver_not_release (k : target_kind) (content : option string) :
  is_release (deliver k content) = false.
Proof. destruct k; reflexivity. Qed.

(** A dispatch writes, calls and posts; it releases nothing. *)
Lemma touches_not_release (fuel : nat) :
  forall X env path d now targets messages level logger msl tm e,
    In (tm, e)
      (touches (_log fuel X env path d now targets messages level logger msl)) ->
    is_release e = false.
Proof.
  induction fuel as [|fuel IH]; intros X env path d now targets messages level
    logger msl tm e; [intros []|].
  rewrite _log_S. destruct d; [intros []|]. destruct targets as [ts|]; [|intros []].
  cbn [touches]. intros Hin. apply in_flat_map in Hin as (t & Ht & Hin).
  apply task_origin in Ht as (i & v & _ & HF).
  unfold target_task in HF. destruct (level_lt _ _); [discriminate|].
  injection HF as <-. cbn [task_touches] in Hin. destruct Hin as [[= <- <-]|Hin].
  - apply deliver_not_release.
  - destruct (answer env (path ++ [i])) as [?|err]; [destruct Hin|].
    destruct (t_errorPolicy (base v)); try destruct Hin.
    destruct (negb (destroyed_meanwhile env (path ++ [i]))); [|destruct Hin].
    eapply IH. unfold touches. exact Hin.
Qed.

Lemma run_logs_release_nothing (X : Externals) (ops : list op) :
  forall st, Forall releases_nothing (snd (run X ops st)).
Proof.
  induction ops as [|o ops IH]; intros st; [constructor|].
  cbn [run]. destruct (step X o st) as [st1 r] eqn:Hs.
  specialize (IH st1). destruct (run X ops st1) as [st2 rs]. cbn [snd] in *.
  constructor; [|exact IH].
  destruct o; cbn [step] in Hs.
  - destruct (on_factory _ st). injection Hs as <- <-. exact I.
  - injection Hs as <- <-. cbn [releases_nothing]. unfold Logger_log.
    intros tm e. apply touches_not_release.
  - destruct (destroy st). injection Hs as <- <-. exact I.
Qed.

(** Only [destroy] changes the process. *)
Lemma step_keeps_world (X : Externals) (o : op) (st : World * LoggerFactory) :
  o <> op_destroy -> fst (fst (step X o st)) = fst st.
Proof.
  intros Ho. destruct o; [| |contradiction]; cbn [step]; [|reflexivity].
  unfold on_factory. destruct (createLogger c s sourceColor (snd st)). reflexivity.
Qed.

Lemma run_releases (X : Externals) (ts : list ParsedTarget) (ops : list op) :
  forall st : World * LoggerFactory,
    destroyed (snd st) = true \/ targets (snd st) = Some ts ->
    exists released,
      fst (fst (run X ops st)) = add_history (map stream_destroy released) (fst st)
      /\ (released = []
          \/ released = private_streams ts /\ In op_destroy ops).
Proof.
  induction ops as [|o ops IH]; intros st Hinv.
  - exists []. cbn. rewrite add_history_nil. split; [reflexivity|left; reflexivity].
  - destruct (destroyed (snd st)) eqn:Hd.
    + destruct (run_refused X (o :: ops) st Hd) as [-> _].
      exists []. cbn. rewrite add_history_nil. split; [reflexivity|left; reflexivity].
    + destruct Hinv as [?|Hts]; [congruence|]. destruct st as [w this].
      cbn [snd fst] in *. cbn [run].
      destruct o as [c s col|level env now lg messages|]; cbn [step].
      * unfold on_factory. cbn [fst snd].
        destruct (createLogger_creates c s col this) as [(e & ->)|(_ & color & ->)].
        -- destruct (IH (w, this) (or_intror Hts)) as (rel & Hrel & Hcase).
           destruct (run X ops (w, this)) as [st2 rs]. exists rel.
           split; [exact Hrel|]. destruct Hcase as [?|[? ?]]; [left|right; split];
             try assumption. right. assumption.
        -- destruct (IH (w, raise_max (sourceLength c s) this) (or_intror Hts))
             as (rel & Hrel & Hcase).
           destruct (run X ops (w, raise_max (sourceLength c s) this)) as [st2 rs].
           exists rel. split; [exact Hrel|].
           destruct Hcase as [?|[? ?]]; [left|right; split]; try assumption.
           right. assumption.
      * destruct (IH (w, this) (or_intror Hts)) as (rel & Hrel & Hcase).
        destruct (run X ops (w, this)) as [st2 rs]. exists rel.
        split; [exact Hrel|]. destruct Hcase as [?|[? ?]]; [left|right; split];
          try assumption. right. assumption.
      * rewrite destroy_cases, Hd, Hts.
        destruct (run_refused X ops
                    (add_history (map stream_destroy (private_streams ts)) w,
                     torn_down this) eq_refl) as [Hst _].
        destruct (run X ops _) as [st2 rs]. cbn [fst] in *. subst st2.
        exists (private_streams ts). split; [reflexivity|].
        right. split; [reflexivity|left; reflexivity].
Qed.

(** C8.  A factory made by [createLoggerFactory] marks every stream it
    was handed in a [STREAM] descriptor as not private, and every stream
    it opened for a [FILE] descriptor as private; the latter did not
    exist before.  Whatever is then called on the factory and its
    loggers, the process sees nothing but the release, at most once and
    only if [destroy] is among the calls, of exactly the private
    streams: none of the streams handed over is ever released.  A call
    other than [destroy] leaves the process as it is, and no dispatch
    releases a stream. *)
Theorem C8_borrowed_never_released_private_only_by_destroy
    (X : Externals) (arg : targets_arg) (w w' : World) (this : LoggerFactory)
    (ops : list op) :
  createLoggerFactory arg w = (w', Ok this) ->
  (forall id, In id (supplied_streams (descriptors arg)) ->
              (id < next_stream w)%nat) ->
  exists ts,
    targets this = Some ts
    /\ Forall2 (normalized (next_stream w) (next_stream w')) (descriptors arg) ts
    /\ (forall id, In id (private_streams ts) ->
                   ~ In id (supplied_streams (descriptors arg)))
    /\ (exists opened, history w' = (history w ++ opened)%list
                       /\ existsb is_release opened = false)
    /\ (exists released,
          history (fst (fst (run X ops (w', this)))) =
            (history w' ++ map stream_destroy released)%list
          /\ (released = []
              \/ released = private_streams ts /\ In op_destroy ops))
    /\ Forall releases_nothing (snd (run X ops (w', this)))
    /\ (forall o st, o <> op_destroy -> fst (fst (step X o st)) = fst st).
Proof.
  intros Hc Hsup. unfold createLoggerFactory, bind in Hc.
  fold (descriptors arg) in Hc.
  destruct (parseTargets (descriptors arg) w) as [w1 [ts|e]] eqn:Hp; [|discriminate].
  injection Hc as <- <-.
  destruct (parseTargets_ok _ _ _ _ Hp) as [[Hlo Hgrow] Hn].
  exists ts. split; [reflexivity|]. split; [exact Hn|]. split.
  { intros id Hpriv Hsupp.
    pose proof (private_streams_fresh _ _ _ _ Hn id Hpriv).
    specialize (Hsup id Hsupp). lia. }
  split; [exact Hgrow|]. split.
  { destruct (run_releases X ts ops (w1, new_LoggerFactory ts) (or_intror eq_refl))
      as (rel & Hrel & Hcase).
    exists rel. rewrite Hrel. split; [reflexivity|exact Hcase]. }
  split; [apply run_logs_release_nothing|].
  intros o st. apply step_keeps_world.
Qed.

(** ** Falsy log levels *)

Lemma falsy_key_missing (level : prim) :
  truthy level = false -> levelNums_get (prim_string level) = None.
Proof.
  destruct level as [| |b|n| |x]; cbn [truthy]; try reflexivity.
  - intros ->. reflexivity.
  - intros H. apply negb_false_iff, Z.eqb_eq in H. subst n. reflexivity.
  - intros H. apply negb_false_iff, String.eqb_eq in H. subst x. reflexivity.
Qed.

Lemma own_key_found (key : string) (n : Z) :
  In (key, n) six_names -> levelNums_get key = Some (LNum n).
Proof.
  cbn. intros H.
  repeat (destruct H as [[= <- <-]|H]; [reflexivity|]). destruct H.
Qed.

(** C9.  [logLevelNum] takes any falsy value, among them the empty
    string, [0] and [false], for "no level given": it returns TRACE
    and does not throw, and so [baseTargetOptions] sets the minimum rank
    of such a target to TRACE.  When it throws, it throws a [TypeError],
    and the value was truthy and none of the six level names; it does
    throw on every truthy value for which [levelNums[level]] is
    [undefined]. *)
Theorem C9_falsy_level_defaults_to_trace :
  (forall level, truthy level = false ->
                 logLevelNum level = Ok (LNum levelNums.TRACE))
  /\ logLevelNum (PStr "") = Ok (LNum levelNums.TRACE)
  /\ logLevelNum (PNum 0) = Ok (LNum levelNums.TRACE)
  /\ logLevelNum (PBool false) = Ok (LNum levelNums.TRACE)
  /\ (forall level e,
        logLevelNum level = Throw e ->
        truthy level = true
        /\ (forall name n, In (name, n) six_names -> level <> PStr name)
        /\ exists msg, e = new_TypeError msg)
  /\ (forall level,
        truthy level = true ->
        levelNums_get (prim_string level) = None ->
        exists msg, logLevelNum level = Throw (new_TypeError msg))
  /\ (forall target b,
        truthy (d_logLevel target) = false ->
        baseTargetOptions target = Ok b ->
        t_level b = LNum levelNums.TRACE)
  /\ (forall target e,
        truthy (d_logLevel target) = false ->
        baseTargetOptions target = Throw e ->
        logStyle (d_style target) = Throw e
        \/ errorPolicy (d_errorPolicy target) = Throw e).
Proof.
  assert (Hfalsy : forall level, truthy level = false ->
                     logLevelNum level = Ok (LNum levelNums.TRACE)).
  { intros level H. unfold logLevelNum.
    rewrite (falsy_key_missing level H), H. reflexivity. }
  split; [exact Hfalsy|].
  split; [reflexivity|]. split; [reflexivity|]. split; [reflexivity|].
  split; [|split; [|split]].
  - intros level e. unfold logLevelNum.
    destruct (truthy level) eqn:Ht; [|discriminate].
    destruct (levelNums_get (prim_string level)) eqn:Hg; cbn; [discriminate|].
    intros [= <-]. split; [reflexivity|]. split; [|eexists; reflexivity].
    intros name n Hin ->. cbn [prim_string] in Hg.
    rewrite (own_key_found name n Hin) in Hg. discriminate.
  - intros level Ht Hg. unfold logLevelNum. rewrite Ht, Hg. cbn.
    eexists. reflexivity.
  - intros target b Hf. unfold baseTargetOptions. rewrite (Hfalsy _ Hf).
    cbn [result_bind].
    destruct (logStyle (d_style target)); [|discriminate]. cbn [result_bind].
    destruct (errorPolicy (d_errorPolicy target)); [|discriminate].
    intros [= <-]. reflexivity.
  - intros target e Hf. unfold baseTargetOptions. rewrite (Hfalsy _ Hf).
    cbn [result_bind].
    destruct (logStyle (d_style target)); cbn [result_bind];
      [|intros [= ->]; left; reflexivity].
    destruct (errorPolicy (d_errorPolicy target)); [discriminate|].
    intros [= ->]. right. reflexivity.
Qed.

(** ** What a dispatch hands over, and to whom *)

Lemma append_assoc_r (a b c : string) : (a +:+ b) +:+ c = a +:+ (b +:+ c).
Proof.
  induction a as [|x a IH]; [reflexivity|].
  change ((String x a +:+ b) +:+ c) with (String x ((a +:+ b) +:+ c)).
  rewrite IH. reflexivity.
Qed.

Lemma six_ranks (level : Z) :
  valid_rank level ->
  level = 1 \/ level = 2 \/ level = 3 \/ level = 4 \/ level = 5 \/ level = 6.
Proof. unfold valid_rank. lia. Qed.

(** Without colour the six cases of [format] build the same line. *)
Lemma format_plain_text (X : Externals) (messages : list jsval) (level : Z)
    (c : string) (s : option string) (sourceColor : option string)
    (uniform : bool) (msl timestamp : Z) (full : bool) :
  valid_rank level ->
  format X messages level c s sourceColor uniform msl TEXT false timestamp full =
  Some (plain_prefix X level c s uniform msl timestamp full
        +:+ rejoin_lines (joined_messages X false messages)
              (plain_prefix X level c s uniform msl timestamp full)).
Proof.
  intros Hl.
  assert (Hp : forall name pad src : string,
            (("[" +:+ formatTime X timestamp full +:+ "] ")
             +:+ ("[" +:+ name +:+ "]") +:+ " " +:+ pad
             +:+ ("[" +:+ src +:+ "]") +:+ " ")
            = "[" +:+ formatTime X timestamp full +:+ "] ["
              +:+ name +:+ "] " +:+ pad +:+ "[" +:+ src +:+ "] ").
  { intros name pad src.
    change ("[" +:+ formatTime X timestamp full +:+ "] ")
      with (String "[" (formatTime X timestamp full +:+ "] ")).
    change ("[" +:+ name +:+ "]") with (String "[" (name +:+ "]")).
    change ("[" +:+ src +:+ "]") with (String "[" (src +:+ "]")).
    change (String "[" (formatTime X timestamp full +:+ "] ")
            +:+ String "[" (name +:+ "]") +:+ " " +:+ pad
            +:+ String "[" (src +:+ "]") +:+ " ")
      with (String "[" ((formatTime X timestamp full +:+ "] ")
                        +:+ String "[" ((name +:+ "]") +:+ " " +:+ pad
                        +:+ String "[" ((src +:+ "]") +:+ " ")))).
    rewrite !append_assoc_r. reflexivity. }
  unfold plain_prefix.
  destruct (six_ranks level Hl) as [-> | [-> | [-> | [-> | [-> | ->]]]]];
    cbv beta iota zeta delta [format bracket noColor];
    rewrite <- Hp; try reflexivity.
  - (* FATAL: the bracketed part is built as one string *)
    rewrite !append_assoc_r. reflexivity.
  - (* INFO: the source is bracketed in place *)
    rewrite !append_assoc_r. reflexivity.
Qed.

(** Text for one of the six levels is never [null]: it is a prefix, and
    the content with the prefix after every line break. *)
Lemma format_text_lines (X : Externals) (messages : list jsval) (level : Z)
    (c : string) (s : option string) (sourceColor : option string)
    (uniform : bool) (msl : Z) (color : bool) (timestamp : Z) (full : bool) :
  valid_rank level ->
  exists prefix body,
    format X messages level c s sourceColor uniform msl TEXT color timestamp full
    = Some (prefix +:+ rejoin_lines body prefix).
Proof.
  intros Hl.
  destruct (six_ranks level Hl) as [-> | [-> | [-> | [-> | [-> | ->]]]]];
    eexists; eexists; cbv beta iota zeta delta [format]; reflexivity.
Qed.

(** The call [_log] makes on the sink, spelled out. *)
Lemma deliver_spelled (k : target_kind) (content : option string) :
  match k with
  | STREAM stream _ =>
      deliver k content
      = stream_write stream (default "null" content +:+ String newline "")
  | FUNCTION func => deliver k content = func_call func content
  | HTTP url options => deliver k content = request_send false url options content
  | HTTPS url options => deliver k content = request_send true url options content
  end.
Proof. destruct k; reflexivity. Qed.

(** The task a dispatch starts for the target at position [i]. *)
Lemma task_at_index fuel X env path now ts messages r logger msl i v t :
  ts !! i = Some v ->
  In t (tasks_of (_log (S fuel) X env path false now (Some ts) messages r
                    logger msl)) ->
  task_index t = i ->
  task_started t = now
  /\ task_touch t =
     deliver (kind v)
       (format X messages r (component logger) (source logger)
          (logger_color logger) (t_uniform (base v)) msl (t_format (base v))
          (t_color (base v)) now (t_fullTimestamps (base v))).
Proof.
  intros Hi Ht Hidx. rewrite _log_S in Ht. cbn [tasks_of] in Ht.
  pose proof (filter_index_tasks (_log fuel X env) X env path now ts messages
                r logger msl i) as Hf.
  rewrite Hi in Hf.
  assert (Hin : In t (List.filter (has_index i)
            (omap id (imap (target_task (_log fuel X env) X env path now ts
                               messages r logger msl) ts)))).
  { apply in_filter_index. split; assumption. }
  rewrite Hf in Hin. unfold target_task in Hin.
  destruct (level_lt (t_level (base v)) r); cbn in Hin; [contradiction|].
  destruct Hin as [<-|[]]. split; reflexivity.
Qed.

Lemma tasks_at_index_count fuel X env path now ts messages r logger msl i v m :
  ts !! i = Some v ->
  t_level (base v) = LNum m ->
  length (List.filter (has_index i)
            (tasks_of (_log (S fuel) X env path false now (Some ts) messages r
                         logger msl)))
  = (if Z.leb r m then 1 else 0)%nat.
Proof.
  intros Hi Hm. rewrite _log_S. cbn [tasks_of].
  rewrite (filter_index_tasks (_log fuel X env) X env path now ts messages
             r logger msl i), Hi.
  unfold target_task. rewrite Hm. cbn [level_lt].
  rewrite Z.leb_antisym. destruct (Z.ltb m r); reflexivity.
Qed.

(** A task that ended in a recovery dispatch: which dispatch that is. *)
Lemma relogged_origin fuel X env path now ts messages r logger msl t e rec :
  In t (tasks_of (_log (S (S fuel)) X env path false now (Some ts) messages r
                    logger msl)) ->
  task_handling t = Relogged e rec ->
  rec = _log (S fuel) X env (path ++ [task_index t])%list false (task_finished t)
          (Some (map (with_errorPolicy IGNORE) ts))
          (failure_messages (task_index t) now r messages e)
          (Z.min r levelNums.ERROR) logger msl.
Proof.
  intros Ht Hh. rewrite _log_S in Ht. cbn [tasks_of] in Ht.
  apply task_origin in Ht as (j & u & _ & HF).
  unfold target_task in HF. destruct (level_lt _ _); [discriminate|].
  apply (f_equal (fun o => match o with Some x => x | None => t end)) in HF.
  cbv beta iota in HF. subst t.
  cbn [task_handling task_index task_finished] in *.
  destruct (answer env (path ++ [j])) as [?|err]; [discriminate|].
  destruct (t_errorPolicy (base u)); try discriminate.
  destruct (destroyed_meanwhile env (path ++ [j])) eqn:Hd; cbn [negb] in Hh;
    [discriminate|].
  injection Hh as <- <-. reflexivity.
Qed.

Lemma quiet_family (t : task) : quiet t -> task_family t = [t].
Proof.
  destruct t as [i e s f h]. unfold quiet. cbn [task_handling task_family].
  destruct h; try contradiction; reflexivity.
Qed.

Lemma all_quiet_family (ts : list task) :
  Forall quiet ts -> flat_map task_family ts = ts.
Proof.
  induction 1 as [|t ts Ht _ IH]; [reflexivity|].
  cbn [flat_map]. rewrite (quiet_family t Ht), IH. reflexivity.
Qed.

Lemma shallow_family (t : task) :
  shallow t ->
  task_family t =
  t :: match task_handling t with
       | Relogged _ rec => tasks_of rec
       | _ => []
       end.
Proof.
  destruct t as [i e s f h]. unfold shallow. cbn [task_handling task_family].
  destruct h as [?|?|?|err rec]; try reflexivity.
  intros (ts' & -> & Hq). cbn [tasks_of]. rewrite (all_quiet_family ts' Hq).
  reflexivity.
Qed.

Lemma family_touches (t : task) :
  shallow t -> task_touches t = map start_touch (task_family t).
Proof.
  destruct t as [i e s f h]. unfold shallow. cbn [task_handling].
  destruct h as [?|?|?|err rec]; try reflexivity.
  intros (ts' & -> & Hq). cbn [task_touches task_family map]. f_equal.
  clear - Hq. induction Hq as [|t ts Ht _ IH]; [reflexivity|].
  cbn [flat_map]. rewrite map_app, IH. f_equal.
  destruct t as [i e s f h]. unfold quiet in Ht. cbn in Ht.
  destruct h; try contradiction; reflexivity.
Qed.

Lemma all_tasks_cases (ts : list task) (t : task) :
  Forall shallow ts ->
  In t (flat_map task_family ts) <->
  In t ts \/ exists t0 e rec,
               In t0 ts /\ task_handling t0 = Relogged e rec /\ In t (tasks_of rec).
Proof.
  intros Hsh. rewrite List.Forall_forall in Hsh. rewrite in_flat_map. split.
  - intros (t0 & Hin0 & Hin). rewrite (shallow_family t0 (Hsh t0 Hin0)) in Hin.
    destruct Hin as [<-|Hin]; [left; exact Hin0|].
    destruct (task_handling t0) as [?|?|?|e rec] eqn:Hh; try destruct Hin.
    right. exists t0, e, rec. repeat split; assumption.
  - intros [Hin|(t0 & e & rec & Hin0 & Hh & Hin)].
    + exists t. split; [exact Hin|].
      rewrite (shallow_family t (Hsh t Hin)). left. reflexivity.
    + exists t0. split; [exact Hin0|].
      rewrite (shallow_family t0 (Hsh t0 Hin0)), Hh. right. exact Hin.
Qed.

(** C1, refuted as stated: in a WARN call the stream whose minimum is
    ERROR is skipped by the event, and then written to by the recovery
    event of the callback that failed. *)
Lemma C1_skipped_target_is_written_by_recovery :
  ~ skipped_untouched plain first_fails_fast 0 log_then_stream [JStr "x"]
      levelNums.WARN some_logger 0.
Proof.
  intros H.
  refine (H 1%nat _ levelNums.ERROR eq_refl eq_refl _ 1 _ _ _).
  - unfold levelNums.ERROR, levelNums.WARN. lia.
  - vm_compute. right. right. left. reflexivity.
  - reflexivity.
Qed.

(** C1, amended.  The rule holds for the event, not for the call.  A
    call at rank [r] starts an operation for the event on the target at
    position [i], whose minimum rank is the number [m], exactly when
    [r <= m]: then exactly one, at the time of the call, which writes the
    rendered line to that target's stream, calls its function with the
    rendered text or sends it to its address.  What is rendered is the
    JSON record of the event or, as text at one of the six levels, the
    prefixed lines of its messages, never [null].  A target the event
    skips is still reached by the recovery event of every target that
    failed under policy [LOG], exactly when [min r ERROR <= m]; nothing
    else in the call concerns the target, and nothing at all when
    [m < min r ERROR]. *)
Theorem C1_delivered_iff_rank_le_minimum
    (fuel : nat) (X : Externals) (env : Env) (path : list nat) (now : Z)
    (ts : list ParsedTarget) (messages : list jsval) (r : Z)
    (logger : Logger) (msl : Z) (i : nat) (v : ParsedTarget) (m : Z) :
  ts !! i = Some v ->
  t_level (base v) = LNum m ->
  let res := _log (S (S fuel)) X env path false now (Some ts) messages r
               logger msl in
  let rank' := Z.min r levelNums.ERROR in
  let render (msgs : list jsval) (level timestamp : Z) : option string :=
    format X msgs level (component logger) (source logger) (logger_color logger)
      (t_uniform (base v)) msl (t_format (base v)) (t_color (base v)) timestamp
      (t_fullTimestamps (base v)) in
  let handed (content : option string) (e : effect) : Prop :=
    match kind v with
    | STREAM stream _ =>
        e = stream_write stream (default "null" content +:+ String newline "")
    | FUNCTION func => e = func_call func content
    | HTTP url options => e = request_send false url options content
    | HTTPS url options => e = request_send true url options content
    end in
  (r <= m <-> exists t, In t (tasks_of res) /\ task_index t = i)
  /\ length (List.filter (has_index i) (tasks_of res))
     = (if Z.leb r m then 1 else 0)%nat
  /\ (forall t, In t (tasks_of res) -> task_index t = i ->
        task_started t = now /\ handed (render messages r now) (task_touch t))
  /\ (t_format (base v) = JSON ->
      render messages r now =
      Some (stringifySafe X
              (JObj [ ("timestamp", JNum now);
                      ("level", opt_jsval (levels r) JUndefined);
                      ("component", JStr (component logger));
                      ("source", opt_jsval (source logger) JNull);
                      ("msg", JArr messages) ])
              replacer))
  /\ (t_format (base v) = TEXT -> valid_rank r ->
      (exists prefix body,
         render messages r now = Some (prefix +:+ rejoin_lines body prefix))
      /\ (t_color (base v) = false ->
          let prefix := plain_prefix X r (component logger) (source logger)
                          (t_uniform (base v)) msl now
                          (t_fullTimestamps (base v)) in
          render messages r now =
          Some (prefix +:+ rejoin_lines (joined_messages X false messages) prefix)))
  /\ (forall t e rec,
        In t (tasks_of res) -> task_handling t = Relogged e rec ->
        (rank' <= m <-> exists t', In t' (tasks_of rec) /\ task_index t' = i)
        /\ forall t', In t' (tasks_of rec) -> task_index t' = i ->
             task_started t' = task_finished t
             /\ handed (render (failure_messages (task_index t) now r messages e)
                          rank' (task_finished t))
                  (task_touch t'))
  /\ touches res = map start_touch (all_tasks res)
  /\ (forall t,
        In t (all_tasks res) <->
        In t (tasks_of res)
        \/ exists t0 e rec,
             In t0 (tasks_of res) /\ task_handling t0 = Relogged e rec
             /\ In t (tasks_of rec))
  /\ (m < rank' -> forall t, In t (all_tasks res) -> task_index t <> i).
Proof.
  intros Hi Hm res rank' render handed.
  pose proof (task_exists_iff (S fuel) X env path now ts messages r logger msl
                i v m Hi Hm) as Hiff.
  fold res in Hiff.
  pose proof (_log_shallow fuel X env path false now (Some ts) messages r
                logger msl) as Hsh.
  fold res in Hsh.
  assert (Hres : res = Promise_all (tasks_of res)).
  { subst res. rewrite _log_S. reflexivity. }
  assert (Hhanded : forall content, handed content (deliver (kind v) content)).
  { intros content. subst handed. cbv beta.
    pose proof (deliver_spelled (kind v) content) as Hd.
    destruct (kind v); exact Hd. }
  assert (Hrec : forall t e rec,
            In t (tasks_of res) -> task_handling t = Relogged e rec ->
            (rank' <= m <-> exists t', In t' (tasks_of rec) /\ task_index t' = i)
            /\ forall t', In t' (tasks_of rec) -> task_index t' = i ->
                 task_started t' = task_finished t
                 /\ handed (render (failure_messages (task_index t) now r messages e)
                              rank' (task_finished t))
                      (task_touch t')).
  { intros t e rec Ht Hh.
    pose proof (relogged_origin fuel X env path now ts messages r logger msl
                  t e rec Ht Hh) as ->.
    assert (Hi' : map (with_errorPolicy IGNORE) ts !! i
                  = Some (with_errorPolicy IGNORE v)).
    { rewrite derived_lookup, Hi. reflexivity. }
    split.
    - apply (task_exists_iff fuel X env _ _ _ _ rank' logger msl i
               (with_errorPolicy IGNORE v) m Hi' Hm).
    - intros t' Ht' Hidx.
      destruct (task_at_index fuel X env _ _ _ _ rank' logger msl i
                  (with_errorPolicy IGNORE v) t' Hi' Ht' Hidx) as [Hs Htouch].
      split; [exact Hs|]. rewrite Htouch. apply Hhanded. }
  assert (Hall : forall t,
            In t (all_tasks res) <->
            In t (tasks_of res)
            \/ exists t0 e rec,
                 In t0 (tasks_of res) /\ task_handling t0 = Relogged e rec
                 /\ In t (tasks_of rec)).
  { intros t. rewrite Hres at 1. cbn [all_tasks]. apply all_tasks_cases, Hsh. }
  split; [exact Hiff|].
  split; [exact (tasks_at_index_count (S fuel) X env path now ts messages r
                    logger msl i v m Hi Hm)|].
  split.
  { intros t Ht Hidx.
    destruct (task_at_index (S fuel) X env path now ts messages r logger msl i v t
                Hi Ht Hidx) as [Hs Htouch].
    split; [exact Hs|]. rewrite Htouch. apply Hhanded. }
  split.
  { intros Hf. subst render. cbv beta. rewrite Hf. reflexivity. }
  split.
  { intros Hf Hl. subst render. cbv beta. rewrite Hf. split.
    - apply format_text_lines, Hl.
    - intros Hc. rewrite Hc. apply format_plain_text, Hl. }
  split; [exact Hrec|].
  split.
  { rewrite Hres at 1 2. cbn [touches all_tasks].
    clear - Hsh. induction Hsh as [|t l Ht _ IH]; [reflexivity|].
    cbn [flat_map]. rewrite map_app, IH, (family_touches t Ht). reflexivity. }
  split; [exact Hall|].
  intros Hlt t Ht Hidx. apply Hall in Ht as [Ht|(t0 & e & rec & Ht0 & Hh & Ht)].
  - assert (Hle : r <= m) by (apply Hiff; exists t; split; assumption).
    subst rank'. lia.
  - destruct (Hrec t0 e rec Ht0 Hh) as [Hriff _].
    assert (Hle : rank' <= m) by (apply Hriff; exists t; split; assumption).
    lia.
Qed.

(** * The theorems at concrete calls *)

Lemma C1_at_warn_call :
  log_then_stream !! 1%nat
  = Some {| kind := STREAM 0 false;
            base := options_of levelNums.ERROR TEXT THROW |}
  /\ t_level (options_of levelNums.ERROR TEXT THROW) = LNum levelNums.ERROR
  /\ length (List.filter (has_index 1)
               (tasks_of (_log 2 plain first_fails_fast [] false 0
                            (Some log_then_stream) [JStr "x"] levelNums.WARN
                            some_logger 0))) = 0%nat
  /\ exists t',
       In t' (tasks_of (_log 1 plain first_fails_fast [O] false 1
                          (Some (map (with_errorPolicy IGNORE) log_then_stream))
                          (failure_messages 0 0 levelNums.WARN [JStr "x"]
                             (JStr "down"))
                          levelNums.ERROR some_logger 0))
       /\ task_index t' = 1%nat
       /\ task_touch t' =
          stream_write 0
            ("[00:00:00.001] [ERROR] [svc] Failed to log to target 0: [object Object]"
             +:+ String newline "").
Proof.
  split; [reflexivity|]. split; [reflexivity|].
  destruct (C1_delivered_iff_rank_le_minimum 0 plain first_fails_fast [] 0
              log_then_stream [JStr "x"] levelNums.WARN some_logger 0 1%nat
              {| kind := STREAM 0 false;
                 base := options_of levelNums.ERROR TEXT THROW |}
              levelNums.ERROR eq_refl eq_refl)
    as (_ & Hcount & _ & _ & _ & Hrec & _).
  split; [exact Hcount|].
  destruct (Hrec relogged_task (JStr "down") _ (or_introl eq_refl) eq_refl)
    as [Hiff Htouch].
  destruct (proj1 Hiff (Z.le_refl 2)) as (t' & Hin & Hidx).
  exists t'. split; [exact Hin|]. split; [exact Hidx|].
  exact (proj2 (Htouch t' Hin Hidx)).
Defined.

Lemma C2_at_failing_call :
  exists tm v,
    settle 1
      (_log 1 plain first_fails_fast [O] false 1
         (Some (map (with_errorPolicy IGNORE) log_then_stream))
         (failure_messages 0 0 levelNums.WARN [JStr "x"] (JStr "down"))
         levelNums.ERROR some_logger 0)
    = Some (Fulfilled tm v).
Proof.
  destruct (C2_recovery_failure_never_recovers 0 plain first_fails_fast [] false 0
              (Some log_then_stream) [JStr "x"] levelNums.WARN some_logger 0)
    as (_ & _ & _ & _ & H).
  destruct (H relogged_task (JStr "down") _ (or_introl eq_refl) eq_refl)
    as (ts & attempt & msgs & _ & _ & _ & _ & _ & Hs).
  exact Hs.
Defined.

Lemma C3_at_failing_call :
  log_then_stream !! 0%nat
  = Some {| kind := FUNCTION (user_function 0);
            base := options_of levelNums.TRACE TEXT LOG |}
  /\ answer first_fails_fast [O] = Failed (JStr "down")
  /\ List.filter (has_index 0)
       (tasks_of (_log 2 plain first_fails_fast [] false 0 (Some log_then_stream)
                    [JStr "x"] levelNums.WARN some_logger 0))
     = [ relogged_task ].
Proof.
  split; [reflexivity|]. split; [reflexivity|].
  exact (proj1 (C3_failure_relogged_over_derived_targets 0 plain first_fails_fast
                  [] 0 log_then_stream [JStr "x"] levelNums.WARN some_logger 0
                  0%nat _ (JStr "down") eq_refl eq_refl eq_refl eq_refl eq_refl)).
Defined.

Lemma C4_at_throwing_call :
  exists tm e j,
    settle 0 (_log 2 plain first_fails_fast [] false 0 (Some throw_then_slow)
                [JStr "x"] levelNums.ERROR some_logger 0)
    = Some (Rejected tm e)
    /\ tm = 0 + latency first_fails_fast ([] ++ [j]).
Proof.
  destruct (C4_rejects_at_first_throw_failure 0 plain first_fails_fast [] 0
              throw_then_slow [JStr "x"] levelNums.ERROR some_logger 0)
    as (_ & H & _).
  destruct (H 0%nat (JStr "down")
              (ex_intro _ _ (conj eq_refl (conj eq_refl (conj eq_refl eq_refl)))))
    as (tm & e & j & Hs & _ & Htm & _).
  exists tm, e, j. split; [exact Hs|exact Htm].
Defined.

Lemma C5_at_two_loggers :
  exists ts v,
    targets (fst (createLoggers [("svc", None, JNull); ("svc2", None, JNull)]
                    (new_LoggerFactory aligned_stream))) = Some ts
    /\ ts !! 0%nat = Some v
    /\ stream_write 0 ("[00:00:01.000] [INFO]  [svc ] x" +:+ String newline "")
       = rendered plain (new_Logger "svc" None None) 4 v [JStr "x"]
           levelNums.INFO 1000.
Proof.
  destruct (C5_width_is_running_maximum_at_call plain calm 1000
              (new_LoggerFactory aligned_stream)
              [("svc", None, JNull); ("svc2", None, JNull)] levelNums.INFO
              (new_Logger "svc" None None) [JStr "x"])
    as (_ & _ & _ & H & _).
  exact (H (Task 0
              (stream_write 0
                 ("[00:00:01.000] [INFO]  [svc ] x" +:+ String newline ""))
              1000 1000 (Delivered JNull))
           (or_introl eq_refl)).
Defined.

Lemma C7_at_live_factory :
  destroyed (new_LoggerFactory file_and_stream) = false
  /\ history (fst (fst (destroy (quiet_world, new_LoggerFactory file_and_stream))))
     = [ stream_destroy 1 ]
  /\ history (fst (fst (destroy (fst (destroy (quiet_world,
                                          new_LoggerFactory file_and_stream))))))
     = [ stream_destroy 1 ].
Proof.
  split; [reflexivity|].
  destruct (C7_destroy_twice_is_destroy_once
              (quiet_world, new_LoggerFactory file_and_stream))
    as (_ & _ & H).
  destruct (H file_and_stream eq_refl eq_refl) as (_ & _ & Hh & Hh2).
  split; [exact Hh|]. rewrite Hh2. exact Hh.
Defined.

Lemma C8_at_file_and_stream :
  createLoggerFactory file_and_stream_descriptors quiet_world
  = (opened_world, Ok (new_LoggerFactory parsed_file_and_stream))
  /\ exists released,
       history (fst (fst (run plain
                            [op_createLogger "svc" None JNull; op_destroy; op_destroy]
                            (opened_world, new_LoggerFactory parsed_file_and_stream))))
       = (history opened_world ++ map stream_destroy released)%list
       /\ ~ In 0%nat released.
Proof.
  split; [reflexivity|].
  destruct (C8_borrowed_never_released_private_only_by_destroy plain
              file_and_stream_descriptors quiet_world opened_world
              (new_LoggerFactory parsed_file_and_stream)
              [op_createLogger "svc" None JNull; op_destroy; op_destroy]
              eq_refl)
    as (ts & Hts & _ & Hfresh & _ & (released & Hh & Hcase) & _).
  { intros id [<-|[]]. cbn. lia. }
  injection Hts as <-.
  exists released. split; [exact Hh|].
  destruct Hcase as [->|[-> _]]; [intros []|].
  intros Hin. apply (Hfresh 0%nat Hin). left. reflexivity.
Defined.

Lemma C9_at_lowercase_name :
  logLevelNum (PStr "warn")
  = Throw (new_TypeError
             "log level must be one of 'TRACE', 'DEBUG', 'INFO', 'WARN', 'ERROR', 'FATAL'. Received warn instead")
  /\ truthy (PStr "warn") = true.
Proof.
  split; [reflexivity|].
  destruct C9_falsy_level_defaults_to_trace as (_ & _ & _ & _ & H & _).
  exact (proj1 (H (PStr "warn") _ eq_refl)).
Defined.

Lemma C10_at_short_hex_string :
  createLogger "component1" None (JStr "#FFFF0") (new_LoggerFactory aligned_stream)
  = (new_LoggerFactory aligned_stream,
     Throw (new_RangeError
              "Expected sourceColor to be a hex string of length 6, but received 'FFFF0' instead"))
  /\ new_LoggerFactory aligned_stream = new_LoggerFactory aligned_stream.
Proof.
  split; [reflexivity|].
  exact (C10_createLogger_throw_leaves_factory_unchanged "component1" None
           (JStr "#FFFF0") (new_LoggerFactory aligned_stream) _ _ eq_refl).
Defined.


(** * Further properties of the code *)

(** ** The level table *)

Lemma assoc_Some_In {A} (key : string) (l : list (string * A)) (v : A) :
  assoc key l = Some v -> In (key, v) l.
Proof.
  induction l as [|[k x] l IH]; cbn; [discriminate|].
  destruct (String.eqb_spec k key) as [->|_].
  - intros [= ->]. left. reflexivity.
  - intros H. right. apply IH, H.
Qed.

(** X1.  [levels] and [levelNums] are inverse to each other: a rank has
    a name exactly when [levelNums] maps that name back to the rank. *)
Theorem levels_levelNums_inverse (n : Z) (name : string) :
  levels n = Some name <-> levelNums_get name = Some (LNum n).
Proof.
  split.
  - destruct n as [|p|p]; try discriminate.
    do 3 (try destruct p as [p|p|]); cbn; try discriminate;
      intros [= <-]; reflexivity.
  - unfold levelNums_get.
    destruct (assoc name six_names) as [m|] eqn:Ha.
    + intros [= <-]. apply assoc_Some_In in Ha. cbn in Ha.
      repeat (destruct Ha as [[= <- <-]|Ha]; [reflexivity|]). destruct Ha.
    + destruct (existsb _ _); discriminate.
Qed.

(** ** Normalization of descriptors *)

Lemma assoc_app {A} (key : string) (l l' : list (string * A)) :
  assoc key (l ++ l') =
  match assoc key l with
  | Some v => Some v
  | None => assoc key l'
  end.
Proof.
  induction l as [|[k x] l IH]; cbn; [reflexivity|].
  destruct (String.eqb k key); [reflexivity|exact IH].
Qed.

Lemma assoc_filter_absent (key : string) (a b : js_object) :
  assoc key (List.filter (fun kv => is_undefined (assoc (fst kv) b)) a) =
  match assoc key b with
  | Some _ => None
  | None => assoc key a
  end.
Proof.
  induction a as [|[k x] a IH]; cbn [List.filter assoc fst].
  - destruct (assoc key b); reflexivity.
  - destruct (assoc k b) as [y|] eqn:Hk; cbn [is_undefined assoc].
    + destruct (String.eqb_spec k key) as [->|_]; [|exact IH].
      rewrite IH, Hk. reflexivity.
    + destruct (String.eqb_spec k key) as [->|_]; [|exact IH].
      rewrite Hk. reflexivity.
Qed.

(** Reading a key of [{ ...a, ...b }]: [b] wins, [a] is the fallback. *)
Lemma assoc_spread (key : string) (a b : js_object) :
  assoc key (spread a b) =
  match assoc key b with
  | Some v => Some v
  | None => assoc key a
  end.
Proof.
  unfold spread. rewrite assoc_app, assoc_filter_absent.
  destruct (assoc key b); [reflexivity|]. destruct (assoc key a); reflexivity.
Qed.

(** X2.  A [POST] descriptor that normalizes leaves the process as it
    is and becomes an [HTTPS] target unless [https] is [false]; the
    request options of the target always carry [method: "POST"],
    whatever method the caller wrote, and keep every other option of the
    caller. *)
Theorem post_target_always_posts
    (url : string) (https : option bool) (options : option js_object)
    (opts : BaseTarget) (w w' : World) (v : ParsedTarget) :
  parseTarget (PostTarget url https options opts) w = (w', Ok v) ->
  w' = w
  /\ exists o,
       kind v = (if default true https then HTTPS url o else HTTP url o)
       /\ assoc "method" o = Some (JStr "POST")
       /\ forall key, key <> "method" ->
                      assoc key o = assoc key (default [] options).
Proof.
  unfold parseTarget, bind, lift, ret.
  destruct (baseTargetOptions opts) as [b|e]; [|discriminate].
  intros [= <- <-]. split; [reflexivity|].
  eexists. split; [reflexivity|].
  destruct options as [o|]; cbn [default].
  - split.
    + rewrite assoc_spread. reflexivity.
    + intros key Hk. rewrite assoc_spread. unfold postOptions. cbn [assoc].
      destruct (String.eqb_spec "method" key) as [<-|_]; [contradiction|].
      reflexivity.
  - split; [reflexivity|]. intros key Hk. unfold postOptions. cbn [assoc].
    destruct (String.eqb_spec "method" key) as [<-|_]; [contradiction|].
    reflexivity.
Qed.

Lemma no_backslash_slashes (s : string) : has_backslash (slashes s) = false.
Proof.
  unfold has_backslash. induction s as [|c s IH]; [reflexivity|].
  cbn [slashes list_ascii_of_string existsb]. rewrite IH, orb_false_r.
  destruct (Ascii.eqb_spec c "\"%char) as [->|Hc]; [reflexivity|].
  apply Ascii.eqb_neq. congruence.
Qed.

Lemma has_backslash_app (s s' : string) :
  has_backslash (s +:+ s') = has_backslash s || has_backslash s'.
Proof.
  unfold has_backslash. induction s as [|c s IH]; [reflexivity|].
  simpl. rewrite IH, orb_assoc. reflexivity.
Qed.

Lemma has_backslash_slice1 (s : string) :
  has_backslash s = false -> has_backslash (slice1 s) = false.
Proof.
  destruct s as [|c s]; [reflexivity|]. unfold has_backslash. cbn.
  intros H. apply orb_false_iff in H as [_ H]. exact H.
Qed.

(** X3.  [createStream] on a string path hands [fs.createWriteStream]
    the normalised path: every backslash turned into a slash, and a
    leading "~/" replaced by the home directory, normalised as well.  When
    node refuses that path the call throws node's error and nothing is
    opened; otherwise exactly one stream is opened, the next one, with
    flags "ax" when [failIfExists] is set and "a" when not.  A path that
    is neither a string, a Buffer nor a URL throws before node is asked. *)
Theorem createStream_opens_normalized_path
    (s : string) (failIfExists : bool) (w : World) :
  let p := if String.prefix "~/" (slashes s)
           then slashes (homedir w) +:+ slice1 (slashes s)
           else slashes s in
  has_backslash p = false
  /\ match fs_refuses w (PathString p) with
     | Some e => createStream (PathString s) failIfExists w = (w, Throw e)
     | None =>
         createStream (PathString s) failIfExists w =
           ({| homedir := homedir w;
               fs_refuses := fs_refuses w;
               next_stream := S (next_stream w);
               history := (history w
                           ++ [createWriteStream (next_stream w) (PathString p)
                                 (if failIfExists then "ax" else "a")])%list |},
            Ok (next_stream w))
     end
  /\ forall x, createStream (PathOther x) failIfExists w
               = (w, Throw (new_Error "path must be a string")).
Proof.
  intros p. split; [|split; [|reflexivity]].
  - subst p. destruct (String.prefix "~/" (slashes s)).
    + rewrite has_backslash_app, no_backslash_slashes.
      rewrite has_backslash_slice1; [reflexivity|apply no_backslash_slashes].
    + apply no_backslash_slashes.
  - unfold createStream, bind, get, ret, throw, fresh_stream, perform.
    cbn [fst snd]. fold p. destruct (fs_refuses w (PathString p)); reflexivity.
Qed.

Lemma opened_streams_app (es es' : list effect) :
  opened_streams (es ++ es') = (opened_streams es ++ opened_streams es')%list.
Proof. apply flat_map_app. Qed.

Lemma released_streams_app (es es' : list effect) :
  released_streams (es ++ es') = (released_streams es ++ released_streams es')%list.
Proof. apply flat_map_app. Qed.

Lemma released_streams_destroys (ids : list nat) :
  released_streams (map stream_destroy ids) = ids.
Proof. induction ids as [|i ids IH]; [reflexivity|]. cbn. f_equal. exact IH. Qed.

(** What one descriptor that normalizes does: a [FILE] descriptor opens
    the next stream and owns it, any other descriptor opens nothing. *)
Lemma parseTarget_opens (d : Target) (w w' : World) (v : ParsedTarget) :
  parseTarget d w = (w', Ok v) ->
  let mine := if is_file d then [next_stream w] else [] in
  next_stream w' = (next_stream w + length mine)%nat
  /\ private_streams [v] = mine
  /\ exists es, history w' = (history w ++ es)%list
                /\ opened_streams es = mine
                /\ released_streams es = [].
Proof.
  destruct d as [path fie el opts|[id|x] opts|url https options opts|opts
                |[f|x] opts|type opts];
    unfold parseTarget, bind, lift, ret, throw; cbn [is_file].
  - destruct (createStream_cases path fie w) as [(e & ->)|(p & ->)]; [discriminate|].
    destruct el as [l|]; unfold perform, ret; cbn [history next_stream homedir];
      destruct (baseTargetOptions opts); try discriminate;
      intros [= <- <-]; cbn [next_stream history length].
    + split; [lia|]. split; [reflexivity|].
      eexists. rewrite <- app_assoc. split; [reflexivity|]. split; reflexivity.
    + split; [lia|]. split; [reflexivity|].
      eexists. split; [reflexivity|]. split; reflexivity.
  - destruct (baseTargetOptions opts); [|discriminate]. intros [= <- <-].
    cbn. split; [lia|]. split; [reflexivity|]. exists [].
    rewrite app_nil_r. repeat split.
  - discriminate.
  - destruct (baseTargetOptions opts); [|discriminate]. intros [= <- <-].
    cbn [length]. split; [lia|]. split; [destruct (default true https); reflexivity|].
    exists []. rewrite app_nil_r. repeat split.
  - destruct (baseTargetOptions opts); [|discriminate]. intros [= <- <-].
    cbn. split; [lia|]. split; [reflexivity|]. exists [].
    rewrite app_nil_r. repeat split.
  - destruct (baseTargetOptions opts); [|discriminate]. intros [= <- <-].
    cbn. split; [lia|]. split; [reflexivity|]. exists [].
    rewrite app_nil_r. repeat split.
  - discriminate.
  - discriminate.
Qed.

Lemma private_streams_cons (v : ParsedTarget) (ts : list ParsedTarget) :
  private_streams (v :: ts) = (private_streams [v] ++ private_streams ts)%list.
Proof. unfold private_streams. cbn. rewrite app_nil_r. reflexivity. Qed.

Lemma parseTargets_opens (ds : list Target) :
  forall (w w' : World) (ts : list ParsedTarget),
    parseTargets ds w = (w', Ok ts) ->
    length ts = length ds
    /\ next_stream w' = (next_stream w + count_files ds)%nat
    /\ private_streams ts = seq (next_stream w) (count_files ds)
    /\ exists es, history w' = (history w ++ es)%list
                  /\ opened_streams es = seq (next_stream w) (count_files ds)
                  /\ released_streams es = [].
Proof.
  induction ds as [|d ds IH]; intros w w' ts.
  - intros [= <- <-]. cbn. split; [reflexivity|]. split; [lia|].
    split; [reflexivity|]. exists []. rewrite app_nil_r. repeat split.
  - cbn [parseTargets]. unfold bind at 1.
    destruct (parseTarget d w) as [w1 [v|e]] eqn:Hd; [|discriminate].
    unfold bind at 1.
    destruct (parseTargets ds w1) as [w2 [ts'|e]] eqn:Hds; [|discriminate].
    intros [= <- <-].
    destruct (parseTarget_opens _ _ _ _ Hd) as (Hn1 & Hp1 & es1 & Hh1 & Ho1 & Hr1).
    destruct (IH _ _ _ Hds) as (Hl & Hn2 & Hp2 & es2 & Hh2 & Ho2 & Hr2).
    unfold count_files in *. cbn [List.filter length].
    destruct (is_file d); cbn [length] in *.
    + split; [lia|]. split; [lia|]. split.
      { rewrite private_streams_cons, Hp1, Hp2, Hn1. cbn.
        replace (next_stream w + 1)%nat with (S (next_stream w)) by lia.
        reflexivity. }
      exists (es1 ++ es2)%list. rewrite Hh2, Hh1, app_assoc.
      split; [reflexivity|].
      rewrite opened_streams_app, released_streams_app, Ho1, Ho2, Hr1, Hr2, Hn1.
      cbn. replace (next_stream w + 1)%nat with (S (next_stream w)) by lia.
      split; reflexivity.
    + split; [lia|]. split; [lia|]. split.
      { rewrite private_streams_cons, Hp1, Hp2, Hn1. cbn.
        replace (next_stream w + 0)%nat with (next_stream w) by lia.
        reflexivity. }
      exists (es1 ++ es2)%list. rewrite Hh2, Hh1, app_assoc.
      split; [reflexivity|].
      rewrite opened_streams_app, released_streams_app, Ho1, Ho2, Hr1, Hr2, Hn1.
      cbn. replace (next_stream w + 0)%nat with (next_stream w) by lia.
      split; reflexivity.
Qed.

(** X4.  A factory that [createLoggerFactory] returns has one target
    per descriptor, in order, the running maximum 0 and is not
    destroyed.  Making it opened exactly one stream for each [FILE]
    descriptor and released none; those streams are the factory's
    private ones. *)
Theorem createLoggerFactory_opens_one_stream_per_file
    (arg : targets_arg) (w w' : World) (this : LoggerFactory) :
  createLoggerFactory arg w = (w', Ok this) ->
  let files := count_files (descriptors arg) in
  exists ts es,
    this = new_LoggerFactory ts
    /\ length ts = length (descriptors arg)
    /\ next_stream w' = (next_stream w + files)%nat
    /\ history w' = (history w ++ es)%list
    /\ opened_streams es = seq (next_stream w) files
    /\ released_streams es = []
    /\ private_streams ts = opened_streams es.
Proof.
  intros Hc files. unfold createLoggerFactory, bind in Hc.
  fold (descriptors arg) in Hc.
  destruct (parseTargets (descriptors arg) w) as [w1 [ts|e]] eqn:Hp; [|discriminate].
  injection Hc as <- <-.
  destruct (parseTargets_opens _ _ _ _ Hp) as (Hl & Hn & Hpriv & es & Hh & Ho & Hr).
  exists ts, es. repeat split; try assumption. rewrite Ho. exact Hpriv.
Qed.

(** ** The life of a factory, continued *)

(** On a live factory the calls up to the first [destroy] leave the
    process alone, and that [destroy] releases the private streams. *)
Lemma run_releases_exactly (X : Externals) (ts : list ParsedTarget) (ops : list op) :
  forall st : World * LoggerFactory,
    destroyed (snd st) = false ->
    targets (snd st) = Some ts ->
    fst (fst (run X ops st)) =
    add_history (if existsb is_destroy ops
                 then map stream_destroy (private_streams ts)
                 else []) (fst st).
Proof.
  induction ops as [|o ops IH]; intros [w this] Hd Hts; cbn [snd fst] in *.
  - cbn. rewrite add_history_nil. reflexivity.
  - cbn [run existsb].
    destruct o as [c s col|level env now lg messages|]; cbn [step is_destroy orb].
    + unfold on_factory. cbn [fst snd].
      destruct (createLogger_creates c s col this) as [(e & ->)|(_ & color & ->)].
      * specialize (IH (w, this) Hd Hts).
        destruct (run X ops (w, this)) as [st2 rs]. exact IH.
      * specialize (IH (w, raise_max (sourceLength c s) this) Hd Hts).
        destruct (run X ops (w, raise_max (sourceLength c s) this)) as [st2 rs].
        exact IH.
    + specialize (IH (w, this) Hd Hts).
      destruct (run X ops (w, this)) as [st2 rs]. exact IH.
    + rewrite destroy_cases, Hd, Hts.
      destruct (run_refused X ops
                  (add_history (map stream_destroy (private_streams ts)) w,
                   torn_down this) eq_refl) as [Hst _].
      destruct (run X ops _) as [st2 rs]. cbn [fst] in *. subst st2. reflexivity.
Qed.

(** X5.  Every stream a factory opened when it was made is released
    exactly once, in the order of the targets, by the first [destroy]
    among the calls made on it, and stays open while there is none. *)
Theorem opened_streams_released_once_by_destroy
    (X : Externals) (arg : targets_arg) (w w' : World) (this : LoggerFactory)
    (ops : list op) :
  createLoggerFactory arg w = (w', Ok this) ->
  exists es,
    history w' = (history w ++ es)%list
    /\ List.NoDup (opened_streams es)
    /\ released_streams (history (fst (fst (run X ops (w', this))))) =
       (released_streams (history w)
        ++ (if existsb is_destroy ops then opened_streams es else []))%list.
Proof.
  intros Hc. unfold createLoggerFactory, bind in Hc.
  fold (descriptors arg) in Hc.
  destruct (parseTargets (descriptors arg) w) as [w1 [ts|e]] eqn:Hparse;
    [|discriminate].
  injection Hc as <- <-.
  destruct (parseTargets_opens _ _ _ _ Hparse) as (_ & _ & Hp & es & Hh & Ho & Hr).
  rewrite <- Ho in Hp.
  exists es. split; [exact Hh|]. split; [rewrite Ho; apply List.seq_NoDup|].
  rewrite (run_releases_exactly X ts ops (w1, new_LoggerFactory ts) eq_refl eq_refl).
  cbn [fst add_history history]. rewrite Hh, !released_streams_app, Hr, app_nil_r.
  f_equal. destruct (existsb is_destroy ops); [|reflexivity].
  rewrite released_streams_destroys. exact Hp.
Qed.

Lemma run_app (X : Externals) (ops ops' : list op) :
  forall st,
    run X (ops ++ ops') st =
    let (st1, rs) := run X ops st in
    let (st2, rs') := run X ops' st1 in
    (st2, (rs ++ rs')%list).
Proof.
  induction ops as [|o ops IH]; intros st.
  - cbn. destruct (run X ops' st). reflexivity.
  - cbn [run app]. destruct (step X o st) as [st1 r]. rewrite IH.
    destruct (run X ops st1) as [st2 rs]. destruct (run X ops' st2) as [st3 rs'].
    reflexivity.
Qed.

Lemma step_keeps_consistent (X : Externals) (o : op) (st : World * LoggerFactory) :
  consistent (snd st) ->
  consistent (snd (fst (step X o st)))
  /\ maxSourceLength (snd st) <= maxSourceLength (snd (fst (step X o st)))
  /\ destroy_threw (snd (step X o st)) = false.
Proof.
  destruct st as [w this]. cbn [snd]. intros Hc.
  destruct o as [c s col|level env now lg messages|]; cbn [step].
  - unfold on_factory. cbn [fst snd].
    destruct (createLogger_creates c s col this) as [(e & ->)|(_ & color & ->)];
      cbn [fst snd].
    + split; [exact Hc|]. split; [lia|reflexivity].
    + split; [exact Hc|]. split; [cbn; lia|reflexivity].
  - cbn [fst snd]. split; [exact Hc|]. split; [lia|reflexivity].
  - rewrite destroy_cases. destruct (destroyed this) eqn:Hd; cbn [fst snd].
    + split; [exact Hc|]. split; [lia|reflexivity].
    + destruct (targets this) as [ts|] eqn:Hts; cbn [fst snd].
      * split; [split; reflexivity|]. split; [cbn; lia|reflexivity].
      * exfalso. destruct Hc as [_ Hc]. specialize (Hc Hts). congruence.
Qed.

Lemma run_keeps_consistent (X : Externals) (ops : list op) :
  forall st : World * LoggerFactory,
    consistent (snd st) ->
    consistent (snd (fst (run X ops st)))
    /\ maxSourceLength (snd st) <= maxSourceLength (snd (fst (run X ops st)))
    /\ forallb (fun o => negb (destroy_threw o)) (snd (run X ops st)) = true.
Proof.
  induction ops as [|o ops IH]; intros st Hc.
  - cbn. split; [exact Hc|]. split; [lia|reflexivity].
  - cbn [run]. destruct (step_keeps_consistent X o st Hc) as (Hc1 & Hm1 & Ht1).
    destruct (step X o st) as [st1 r]. cbn [fst snd] in *.
    destruct (IH st1 Hc1) as (Hc2 & Hm2 & Ht2).
    destruct (run X ops st1) as [st2 rs]. cbn [fst snd forallb] in *.
    split; [exact Hc2|]. split; [lia|]. rewrite Ht1, Ht2. reflexivity.
Qed.

(** X6.  Whatever is called, in whatever order, on a factory made by the
    constructor and on its loggers: the target list is [null] exactly
    when the factory is destroyed, so [destroy] never throws; and the
    running maximum never decreases from one call to the next. *)
Theorem factory_stays_consistent_and_maximum_grows
    (X : Externals) (w : World) (ts : list ParsedTarget) (ops ops' : list op) :
  let before := run X ops (w, new_LoggerFactory ts) in
  let after := run X (ops ++ ops') (w, new_LoggerFactory ts) in
  consistent (snd (fst after))
  /\ forallb (fun o => negb (destroy_threw o)) (snd after) = true
  /\ 0 <= maxSourceLength (snd (fst before))
  /\ maxSourceLength (snd (fst before)) <= maxSourceLength (snd (fst after)).
Proof.
  intros before after.
  assert (H0 : consistent (snd (w, new_LoggerFactory ts))).
  { split; discriminate. }
  destruct (run_keeps_consistent X (ops ++ ops') _ H0) as (Hc & _ & Ht).
  destruct (run_keeps_consistent X ops _ H0) as (Hcb & Hmb & _).
  fold before in Hcb, Hmb. fold after in Hc, Ht.
  split; [exact Hc|]. split; [exact Ht|]. split; [exact Hmb|].
  subst after. rewrite run_app. fold before.
  destruct before as [st1 rs] eqn:Hb. cbn [fst snd] in *.
  destruct (run_keeps_consistent X ops' st1 Hcb) as (_ & Hm & _).
  destruct (run X ops' st1) as [st2 rs']. exact Hm.
Qed.

(** ** Colours of loggers *)

Lemma ok_bind_get {A} (this this' : LoggerFactory)
    (k : LoggerFactory -> M LoggerFactory A) (r : result A) :
  bind get k this = (this', r) <-> k this this = (this', r).
Proof. unfold bind, get. reflexivity. Qed.

Lemma ok_bind {A B} (this this' : LoggerFactory) (m : M LoggerFactory A)
    (k : A -> M LoggerFactory B) (b : B) :
  reads_only this m ->
  bind m k this = (this', Ok b) ->
  exists a, m this = (this, Ok a) /\ k a this = (this', Ok b).
Proof.
  intros [r Hr]. unfold bind. rewrite Hr. destruct r as [a|e]; [|discriminate].
  intros H. exists a. split; [reflexivity|exact H].
Qed.

(** X7.  A logger that [createLogger] returns carries the component and
    source it was given, and its colour is either absent or a string of
    exactly six hexadecimal digits: nothing else ever reaches
    [chalk.hex].  The call leaves the targets and the destroyed flag as
    they are and sets the running maximum to the larger of its old value
    and the logger's [sourceLength]. *)
Theorem createLogger_returns_validated_colour
    (c : string) (s : option string) (col : jsval)
    (this this' : LoggerFactory) (lg : Logger) :
  createLogger c s col this = (this', Ok lg) ->
  component lg = c
  /\ source lg = s
  /\ (forall h, logger_color lg = Some h -> is_hex6 h = true)
  /\ destroyed this = false
  /\ this' = raise_max (sourceLength c s) this.
Proof.
  intros H.
  assert (Hshape : component lg = c /\ source lg = s /\ destroyed this = false
                   /\ this' = raise_max (sourceLength c s) this).
  { destruct (createLogger_creates c s col this) as [(e & He)|(Hd & color & Hc)].
    - rewrite He in H. discriminate.
    - rewrite Hc in H. injection H as <- <-. repeat split. exact Hd. }
  destruct Hshape as (Hc & Hs & Hd & Hthis). repeat split; try assumption.
  clear Hc Hs Hthis. unfold createLogger in H. apply ok_bind_get in H.
  rewrite Hd in H.
  apply ok_bind in H as (color1 & _ & H); [|reads_only_tac].
  apply ok_bind in H as (color2 & _ & H); [|reads_only_tac].
  apply ok_bind in H as (color3 & _ & H); [|reads_only_tac].
  apply ok_bind in H as ([] & Hcheck & H); [|reads_only_tac].
  destruct (js_truthy color3) eqn:Ht; cbn [andb] in Hcheck.
  - destruct (is_hex6 (js_string color3)) eqn:Hhex; cbn [negb] in Hcheck;
      [|discriminate].
    unfold bind, get, ret, set_maxSourceLength in H. cbn in H.
    destruct (Z.ltb _ _); injection H as _ <-; cbn; intros h [= <-]; exact Hhex.
  - unfold bind, get, ret, set_maxSourceLength in H. cbn in H.
    destruct (Z.ltb _ _); injection H as _ <-; cbn; intros h; discriminate.
Qed.


(** X8.  The spellings of one colour agree: an RGB triple gives the
    same logger, in the same factory state, as the packed integer
    [r * 65536 + g * 256 + b]; an integer in range gives the same as its
    six-digit hexadecimal string; and a string with a leading "#" gives
    the same as the string without it. *)
Theorem colour_spellings_agree
    (c : string) (s : option string) (this : LoggerFactory) :
  (forall r g b,
     0 <= r < 256 -> 0 <= g < 256 -> 0 <= b < 256 ->
     createLogger c s (JArr [JNum r; JNum g; JNum b]) this =
     createLogger c s (JNum (r * 65536 + g * 256 + b)) this)
  /\ (forall n,
        0 <= n < 16777216 ->
        createLogger c s (JNum n) this =
        createLogger c s (JStr (padStart0 (toString16 n) 6)) this)
  /\ (forall h,
        String.prefix "#" h = false ->
        createLogger c s (JStr ("#" +:+ h)) this =
        createLogger c s (JStr h) this).
Proof.
  split; [|split].
  - intros r g b Hr Hg Hb.
    assert (Hc : forall x, 0 <= x < 256 -> Z.leb 0 x && Z.ltb x 256 = true).
    { intros x Hx. apply andb_true_intro.
      split; [apply Z.leb_le|apply Z.ltb_lt]; lia. }
    unfold createLogger, bind, get. destruct (destroyed this); [reflexivity|].
    cbn [is_channel forallb length Nat.eqb negb orb andb num_at nth_error JNum].
    rewrite !Hc by assumption.
    cbn [is_channel forallb length Nat.eqb negb orb andb num_at nth_error JNum ret].
    rewrite !Z.shiftl_mul_pow2 by lia.
    change (2 ^ 16) with 65536. change (2 ^ 8) with 256. reflexivity.
  - intros n Hn.
    assert (Hc : Z.leb 0 n && Z.ltb n (Z.shiftl 1 24) = true).
    { change (Z.shiftl 1 24) with 16777216. apply andb_true_intro.
      split; [apply Z.leb_le|apply Z.ltb_lt]; lia. }
    unfold createLogger, bind, get. destruct (destroyed this); [reflexivity|].
    cbn [JNum JStr ret]. rewrite Hc. cbn [negb ret]. reflexivity.
  - intros h Hh.
    unfold createLogger, bind, get. destruct (destroyed this); [reflexivity|].
    cbn [JStr ret js_truthy truthy].
    change (String.eqb ("#" +:+ h) "") with false. cbn [negb].
    change (String.prefix "#" ("#" +:+ h)) with (String.prefix "" h).
    assert (Hp : String.prefix "" h = true) by (destruct h; reflexivity).
    rewrite Hp. change (slice1 ("#" +:+ h)) with h. rewrite Hh.
    destruct h as [|a h]; reflexivity.
Qed.

(** ** Hexadecimal digits of a packed colour *)

Section HexDigits.
Local Open Scope N_scope.

(** Doubling a little-endian hexadecimal number adds a digit exactly
    when the top digit overflows. *)
Lemma double_digits (d : Hexadecimal.uint) :
  Hexadecimal.nb_digits (Hexadecimal.Little.double d) =
    Nat.add (Hexadecimal.nb_digits d)
      (carry (16 ^ N.of_nat (Hexadecimal.nb_digits d)
              <=? 2 * HexadecimalPos.Unsigned.of_lu d))
  /\ Hexadecimal.nb_digits (Hexadecimal.Little.succ_double d) =
    Nat.add (Hexadecimal.nb_digits d)
      (carry (16 ^ N.of_nat (Hexadecimal.nb_digits d)
              <=? 2 * HexadecimalPos.Unsigned.of_lu d + 1))
  /\ HexadecimalPos.Unsigned.of_lu d < 16 ^ N.of_nat (Hexadecimal.nb_digits d).
Proof.
  induction d as [|d IH|d IH|d IH|d IH|d IH|d IH|d IH|d IH|d IH|d IH|d IH|d IH
                 |d IH|d IH|d IH|d IH].
  1: { cbn. repeat split; lia. }
  all: destruct IH as (IHd & IHs & IHb);
    cbn [Hexadecimal.Little.double Hexadecimal.Little.succ_double
         Hexadecimal.nb_digits HexadecimalPos.Unsigned.of_lu];
    rewrite ?IHd, ?IHs;
    rewrite Nat2N.inj_succ, N.pow_succ_r';
    set (P := 16 ^ N.of_nat (Hexadecimal.nb_digits d)) in *;
    set (v := HexadecimalPos.Unsigned.of_lu d) in *; unfold carry;
    repeat split;
    repeat match goal with
           | |- context [?a <=? ?b] => destruct (N.leb_spec a b)
           end;
    lia.
Qed.

Lemma to_little_tight (p : positive) :
  let d := Pos.to_little_hex_uint p in
  HexadecimalPos.Unsigned.of_lu d = Npos p
  /\ (1 <= Hexadecimal.nb_digits d)%nat
  /\ 16 ^ N.of_nat (Hexadecimal.nb_digits d - 1) <= Npos p.
Proof.
  induction p as [p IH|p IH|]; cbn [Pos.to_little_hex_uint].
  - destruct IH as (Hv & Hl & Hb).
    destruct (double_digits (Pos.to_little_hex_uint p)) as (_ & Hs & Hub).
    rewrite HexadecimalPos.Unsigned.of_lu_succ_double, Hv, Hs.
    split; [reflexivity|]. split; [lia|]. unfold carry. rewrite Hv in *.
    set (m := Hexadecimal.nb_digits (Pos.to_little_hex_uint p)) in *.
    destruct (N.leb_spec (16 ^ N.of_nat m) (2 * N.pos p + 1)).
    + replace (m + 1 - 1)%nat with m by lia. cbn [N.succ_double]. lia.
    + replace (m + 0 - 1)%nat with (m - 1)%nat by lia. cbn [N.succ_double]. lia.
  - destruct IH as (Hv & Hl & Hb).
    destruct (double_digits (Pos.to_little_hex_uint p)) as (Hd & _ & Hub).
    rewrite HexadecimalPos.Unsigned.of_lu_double, Hv, Hd.
    split; [reflexivity|]. split; [lia|]. unfold carry. rewrite Hv in *.
    set (m := Hexadecimal.nb_digits (Pos.to_little_hex_uint p)) in *.
    destruct (N.leb_spec (16 ^ N.of_nat m) (2 * N.pos p)).
    + replace (m + 1 - 1)%nat with m by lia. cbn [N.double]. lia.
    + replace (m + 0 - 1)%nat with (m - 1)%nat by lia. cbn [N.double]. lia.
  - cbn. repeat split; lia.
Qed.

Lemma nb_digits_rev (d : Hexadecimal.uint) :
  Hexadecimal.nb_digits (Hexadecimal.rev d) = Hexadecimal.nb_digits d.
Proof.
  rewrite !HexadecimalFacts.nb_digits_spec, HexadecimalFacts.rev_spec, length_rev.
  reflexivity.
Qed.

(** A number below [16 ^ k] has at most [k] hexadecimal digits. *)
Lemma to_hex_uint_digits (n : N) (k : nat) :
  n < 16 ^ N.of_nat k -> (1 <= k)%nat ->
  (1 <= Hexadecimal.nb_digits (N.to_hex_uint n) <= k)%nat.
Proof.
  intros Hn Hk. destruct n as [|p]; [cbn; lia|].
  cbn [N.to_hex_uint]. unfold Pos.to_hex_uint. rewrite nb_digits_rev.
  destruct (to_little_tight p) as (_ & Hl & Hb).
  set (m := Hexadecimal.nb_digits (Pos.to_little_hex_uint p)) in *.
  assert (H : 16 ^ N.of_nat (m - 1) < 16 ^ N.of_nat k) by lia.
  apply N.pow_lt_mono_r_iff in H; lia.
Qed.

End HexDigits.

Lemma string_of_uint_length (d : Hexadecimal.uint) :
  String.length (NilEmpty.string_of_uint d) = Hexadecimal.nb_digits d.
Proof. induction d; cbn; congruence. Qed.

Lemma string_of_uint_hex (d : Hexadecimal.uint) :
  forallb is_hex_digit (list_ascii_of_string (NilEmpty.string_of_uint d)) = true.
Proof. induction d; cbn [NilEmpty.string_of_uint list_ascii_of_string forallb];
  [reflexivity|rewrite IHd; reflexivity..]. Qed.

Lemma length_append (s s' : string) :
  String.length (s +:+ s') = (String.length s + String.length s')%nat.
Proof. induction s as [|c s IH]; [reflexivity|]. simpl. rewrite IH. reflexivity. Qed.

Lemma length_spaces (n : nat) (c : ascii) : String.length (spaces n c) = n.
Proof. induction n as [|n IH]; [reflexivity|]. cbn. rewrite IH. reflexivity. Qed.

Lemma list_ascii_append (s s' : string) :
  list_ascii_of_string (s +:+ s') =
  (list_ascii_of_string s ++ list_ascii_of_string s')%list.
Proof. induction s as [|c s IH]; [reflexivity|]. simpl. rewrite IH. reflexivity. Qed.

Lemma spaces_forallb (P : ascii -> bool) (n : nat) (c : ascii) :
  P c = true -> forallb P (list_ascii_of_string (spaces n c)) = true.
Proof. intros Hc. induction n as [|n IH]; [reflexivity|]. cbn. rewrite Hc, IH. reflexivity. Qed.

(** An integer in [0, 2^24) prints as six hexadecimal digits. *)
Lemma packed_colour_is_hex6 (n : Z) :
  0 <= n < 16777216 -> is_hex6 (padStart0 (toString16 n) 6) = true.
Proof.
  intros Hn. unfold toString16.
  assert (Hd : (1 <= Hexadecimal.nb_digits (N.to_hex_uint (Z.to_N n)) <= 6)%nat).
  { apply to_hex_uint_digits; [|lia]. change (16 ^ N.of_nat 6)%N with 16777216%N. lia. }
  assert (Hs : NilZero.string_of_uint (N.to_hex_uint (Z.to_N n)) =
               NilEmpty.string_of_uint (N.to_hex_uint (Z.to_N n))).
  { destruct (N.to_hex_uint (Z.to_N n)); [cbn in Hd; lia|reflexivity..]. }
  rewrite Hs. unfold is_hex6, padStart0.
  rewrite length_append, length_spaces, string_of_uint_length.
  rewrite list_ascii_append, forallb_app, string_of_uint_hex.
  rewrite spaces_forallb by reflexivity.
  apply andb_true_intro. split; [apply Nat.eqb_eq; lia|reflexivity].
Qed.

Lemma hex6_shape (x : string) :
  is_hex6 x = true -> String.eqb x "" = false /\ String.prefix "#" x = false.
Proof.
  intros H. destruct x as [|a x]; [discriminate|]. split; [reflexivity|].
  unfold is_hex6 in H. apply andb_prop in H as [_ H].
  cbn [list_ascii_of_string forallb] in H. apply andb_prop in H as [Ha _].
  cbn [String.prefix]. destruct (ascii_dec "#" a) as [<-|]; [discriminate|reflexivity].
Qed.

(** The last step of [createLogger]: the running maximum is raised. *)
Lemma createLogger_tail (c : string) (s : option string) (color : option string)
    (this : LoggerFactory) :
  (this' <- get ;;
   (if Z.ltb (maxSourceLength this') (sourceLength c s)
    then set_maxSourceLength (sourceLength c s)
    else ret tt) ;;;
   ret (new_Logger c s color))%js this
  = (raise_max (sourceLength c s) this, Ok (new_Logger c s color)).
Proof.
  unfold bind, get, ret, set_maxSourceLength, raise_max.
  destruct (Z.ltb_spec (maxSourceLength this) (sourceLength c s)); cbn.
  - f_equal. f_equal. lia.
  - destruct this as [tg mx ds]. cbn in *. f_equal. f_equal. lia.
Qed.

(** X9.  On a live factory an integer colour is accepted exactly when it
    lies in the range 0 to 16777215: inside the range the logger gets the
    six-digit hexadecimal spelling of the number (zero included, although
    zero is falsy), outside it the call throws a RangeError and leaves the
    factory as it was.  For a safe integer the message of the error names
    the number by its decimal digits. *)
Theorem numeric_colour_accepted_iff_in_range
    (c : string) (s : option string) (n : Z) (this : LoggerFactory) :
  destroyed this = false ->
  (0 <= n < 16777216 ->
   is_hex6 (padStart0 (toString16 n) 6) = true
   /\ createLogger c s (JNum n) this =
      (raise_max (sourceLength c s) this,
       Ok (new_Logger c s (Some (padStart0 (toString16 n) 6)))))
  /\ (~ 0 <= n < 16777216 ->
      exists msg,
        createLogger c s (JNum n) this = (this, Throw (new_RangeError msg))
        /\ (safe_integer n ->
            msg = "Expected sourceColor to be in range 0 to 16777215, but received "
                  +:+ pretty n +:+ " instead")).
Proof.
  intros Hd. split.
  - intros Hn. pose proof (packed_colour_is_hex6 n Hn) as Hhex.
    split; [exact Hhex|].
    destruct (hex6_shape _ Hhex) as (Hne & Hp).
    assert (Hc : Z.leb 0 n && Z.ltb n (Z.shiftl 1 24) = true).
    { change (Z.shiftl 1 24) with 16777216. apply andb_true_intro.
      split; [apply Z.leb_le|apply Z.ltb_lt]; lia. }
    assert (Ht : js_truthy (JPrim (PStr (padStart0 (toString16 n) 6))) = true).
    { cbn [js_truthy truthy]. rewrite Hne. reflexivity. }
    unfold createLogger, bind, get. rewrite Hd.
    cbn [JNum JStr ret]. rewrite Hc. cbn [negb ret]. unfold JStr.
    rewrite Ht, Hp. cbn [ret]. rewrite Ht.
    cbn [js_string prim_string]. rewrite Hhex. cbn [negb andb ret].
    exact (createLogger_tail c s (Some (padStart0 (toString16 n) 6)) this).
  - intros Hn.
    assert (Hc : Z.leb 0 n && Z.ltb n (Z.shiftl 1 24) = false).
    { change (Z.shiftl 1 24) with 16777216.
      destruct (Z.leb_spec 0 n); [|reflexivity].
      destruct (Z.ltb_spec n 16777216); [lia|reflexivity]. }
    unfold createLogger. unfold bind, get. rewrite Hd.
    cbn [JNum JStr ret]. rewrite Hc. cbn [negb throw js_string prim_string].
    eexists. split; [reflexivity|]. intros _. reflexivity.
Qed.

(** ** A factory that could not be created *)

(** A descriptor that is refused releases nothing, and has opened at most
    its own file: a [FILE] descriptor is opened before its options are
    checked. *)
Lemma parseTarget_throw_opens (d : Target) (w w' : World) (e : jsval) :
  parseTarget d w = (w', Throw e) ->
  exists es, history w' = (history w ++ es)%list
             /\ released_streams es = []
             /\ opened_streams es = seq (next_stream w) (length (opened_streams es))
             /\ next_stream w' = (next_stream w + length (opened_streams es))%nat
             /\ (length (opened_streams es) <= 1)%nat.
Proof.
  assert (Hnil : forall w0 : World,
            exists es, history w0 = (history w0 ++ es)%list
              /\ released_streams es = []
              /\ opened_streams es = seq (next_stream w0) (length (opened_streams es))
              /\ next_stream w0 = (next_stream w0 + length (opened_streams es))%nat
              /\ (length (opened_streams es) <= 1)%nat).
  { intros w0. exists []. rewrite app_nil_r. cbn. repeat split; lia. }
  destruct d as [path fie el opts|[id|x] opts|url https options opts|opts
                |[f|x] opts|type opts];
    unfold parseTarget, bind, lift, ret, throw.
  - destruct (createStream_cases path fie w) as [(e0 & ->)|(p & ->)].
    + intros [= <- _]. apply Hnil.
    + destruct el as [l|]; unfold perform, ret; cbn [history next_stream homedir];
        destruct (baseTargetOptions opts); try discriminate;
        intros [= <- _]; cbn [next_stream history].
      * eexists. rewrite <- app_assoc. split; [reflexivity|]. cbn.
        repeat split; lia.
      * eexists. split; [reflexivity|]. cbn. repeat split; lia.
  - destruct (baseTargetOptions opts); [discriminate|]. intros [= <- _]. apply Hnil.
  - intros [= <- _]. apply Hnil.
  - destruct (baseTargetOptions opts); [discriminate|]. intros [= <- _]. apply Hnil.
  - destruct (baseTargetOptions opts); [discriminate|]. intros [= <- _]. apply Hnil.
  - destruct (baseTargetOptions opts); [discriminate|]. intros [= <- _]. apply Hnil.
  - intros [= <- _]. apply Hnil.
  - intros [= <- _]. apply Hnil.
Qed.

(** The loop stops at the first descriptor that is refused. *)
Lemma parseTargets_throw (ds : list Target) :
  forall (w w' : World) (e : jsval),
    parseTargets ds w = (w', Throw e) ->
    exists k d w1 ts,
      ds !! k = Some d
      /\ parseTargets (take k ds) w = (w1, Ok ts)
      /\ parseTarget d w1 = (w', Throw e).
Proof.
  induction ds as [|d ds IH]; intros w w' e; [discriminate|].
  cbn [parseTargets]. unfold bind at 1.
  destruct (parseTarget d w) as [w1 [v|e1]] eqn:Hd.
  - unfold bind at 1.
    destruct (parseTargets ds w1) as [w2 [ts'|e2]] eqn:Hds; [discriminate|].
    intros [= <- <-].
    destruct (IH _ _ _ Hds) as (k & d' & w3 & ts & Hk & Hpre & Hfail).
    exists (S k), d', w3, (v :: ts). split; [exact Hk|]. split; [|exact Hfail].
    cbn [take parseTargets]. unfold bind at 1. rewrite Hd.
    unfold bind at 1. rewrite Hpre. reflexivity.
  - intros [= <- <-]. exists 0%nat, d, w, []. repeat split. exact Hd.
Qed.

(** X10.  When [createLoggerFactory] throws, it does so at the first
    descriptor that is refused, and the files opened for the descriptors
    before it (and for the refused descriptor itself, when it is a [FILE]
    whose options are invalid) stay open: nothing is released, and no
    factory exists that could release them. *)
Theorem failed_creation_releases_nothing
    (arg : targets_arg) (w w' : World) (e : jsval) :
  createLoggerFactory arg w = (w', Throw e) ->
  exists (k : nat) (d : Target) (w1 : World) (ts : list ParsedTarget)
         (es : list effect),
    descriptors arg !! k = Some d
    /\ parseTargets (take k (descriptors arg)) w = (w1, Ok ts)
    /\ parseTarget d w1 = (w', Throw e)
    /\ history w' = (history w ++ es)%list
    /\ released_streams es = []
    /\ opened_streams es = seq (next_stream w) (length (opened_streams es))
    /\ (count_files (take k (descriptors arg)) <= length (opened_streams es)
        <= count_files (take k (descriptors arg)) + 1)%nat.
Proof.
  intros Hc. unfold createLoggerFactory, bind in Hc.
  fold (descriptors arg) in Hc.
  destruct (parseTargets (descriptors arg) w) as [w2 [ts|e2]] eqn:Hp; [discriminate|].
  injection Hc as <- <-.
  destruct (parseTargets_throw _ _ _ _ Hp) as (k & d & w1 & ts & Hk & Hpre & Hfail).
  destruct (parseTargets_opens _ _ _ _ Hpre) as (_ & Hn & _ & es1 & Hh1 & Ho1 & Hr1).
  destruct (parseTarget_throw_opens _ _ _ _ Hfail) as (es2 & Hh2 & Hr2 & Ho2 & Hn2 & Hlen).
  exists k, d, w1, ts, (es1 ++ es2)%list.
  split; [exact Hk|]. split; [exact Hpre|]. split; [exact Hfail|].
  split; [rewrite Hh2, Hh1, app_assoc; reflexivity|].
  split; [rewrite released_streams_app, Hr1, Hr2; reflexivity|].
  rewrite opened_streams_app, Ho1, length_app, length_seq.
  set (n2 := length (opened_streams es2)) in *. rewrite Ho2, Hn.
  split; [|lia]. rewrite <- seq_app. reflexivity.
Qed.

(** ** The lines of a rendered event *)

Lemma split_lines_cons (s : string) : exists first more, split_lines s = first :: more.
Proof.
  induction s as [|c s (first & more & IH)]; [eexists; eexists; reflexivity|].
  cbn [split_lines]. destruct (Ascii.eqb c newline); [eexists; eexists; reflexivity|].
  rewrite IH. eexists; eexists; reflexivity.
Qed.

Lemma concat_cons_char (sep : string) (c : ascii) (first : string)
    (more : list string) :
  String.concat sep (String c first :: more) =
  String c (String.concat sep (first :: more)).
Proof. destruct more; reflexivity. Qed.

Lemma split_lines_prefix (p s : string) :
  has_newline p = false ->
  split_lines (p +:+ s) =
  match split_lines s with
  | first :: more => (p +:+ first) :: more
  | [] => []
  end.
Proof.
  unfold has_newline. induction p as [|c p IH]; intros Hp.
  - change ("" +:+ s) with s. destruct (split_lines s); reflexivity.
  - cbn [list_ascii_of_string existsb] in Hp. apply orb_false_elim in Hp as [Hc Hp].
    change (String c p +:+ s) with (String c (p +:+ s)). cbn [split_lines].
    rewrite Ascii.eqb_sym, Hc, (IH Hp).
    destruct (split_lines_cons s) as (first & more & ->). reflexivity.
Qed.

Lemma split_rejoin (s p : string) :
  has_newline p = false ->
  split_lines (rejoin_lines s p) =
  match split_lines s with
  | first :: more => first :: map (String.append p) more
  | [] => []
  end.
Proof.
  intros Hp. induction s as [|c s IH]; [reflexivity|].
  cbn [rejoin_lines split_lines]. destruct (Ascii.eqb c newline) eqn:Hc.
  - cbn [split_lines]. rewrite Hc, (split_lines_prefix _ _ Hp), IH.
    destruct (split_lines_cons s) as (first & more & ->). reflexivity.
  - cbn [split_lines]. rewrite Hc, IH.
    destruct (split_lines_cons s) as (first & more & ->). reflexivity.
Qed.

(** X11.  The line handling of [format], [prefix +
    content.split("\n").join("\n" + prefix)]: joining the lines of the
    content with a line break and the prefix is what [rejoin_lines]
    computes, and when the prefix holds no line break the lines of the
    result are the lines of the content, in order, each behind the
    prefix; no line is lost or merged. *)
Theorem every_line_carries_the_prefix (content prefix : string) :
  rejoin_lines content prefix =
    String.concat (String newline prefix) (split_lines content)
  /\ (has_newline prefix = false ->
      split_lines (prefix +:+ rejoin_lines content prefix) =
      map (String.append prefix) (split_lines content)).
Proof.
  split.
  - induction content as [|c s IH]; [reflexivity|].
    cbn [rejoin_lines split_lines]. destruct (Ascii.eqb c newline) eqn:Hc.
    + rewrite IH. destruct (split_lines_cons s) as (first & more & ->).
      apply Ascii.eqb_eq in Hc. subst c. reflexivity.
    + rewrite IH. destruct (split_lines_cons s) as (first & more & ->).
      rewrite concat_cons_char. reflexivity.
  - intros Hp. rewrite (split_lines_prefix _ _ Hp), (split_rejoin _ _ Hp).
    destruct (split_lines_cons content) as (first & more & ->). reflexivity.
Qed.

(** ** Alignment *)

Lemma two_digits_length (k : Z) :
  0 <= k < 100 -> String.length (two_digits k) = 2%nat.
Proof.
  intros Hk.
  assert (H : forallb (fun i => Nat.eqb (String.length (two_digits (Z.of_nat i))) 2)
                (seq 0 100) = true) by (vm_compute; reflexivity).
  rewrite forallb_forall in H. specialize (H (Z.to_nat k)).
  rewrite Z2Nat.id in H by lia. apply Nat.eqb_eq, H, in_seq. lia.
Qed.

Lemma three_digits_length (k : Z) :
  0 <= k < 1000 -> String.length (padStart0 (pretty k) 3) = 3%nat.
Proof.
  intros Hk.
  assert (H : forallb (fun i => Nat.eqb (String.length
                                    (padStart0 (pretty (Z.of_nat i)) 3)) 3)
                (seq 0 1000) = true) by (vm_compute; reflexivity).
  rewrite forallb_forall in H. specialize (H (Z.to_nat k)).
  rewrite Z2Nat.id in H by lia. apply Nat.eqb_eq, H, in_seq. lia.
Qed.

(** The short timestamp is [HH:MM:SS.mmm], twelve characters. *)
Lemma formatTime_short_length (X : Externals) (ms : Z) :
  String.length (formatTime X ms false) = 12%nat.
Proof.
  unfold formatTime. rewrite !length_append.
  pose proof (Z.mod_pos_bound (ms / 3600000) 24).
  pose proof (Z.mod_pos_bound (ms / 60000) 60).
  pose proof (Z.mod_pos_bound (ms / 1000) 60).
  pose proof (Z.mod_pos_bound ms 1000).
  rewrite !two_digits_length, three_digits_length by lia.
  reflexivity.
Qed.

Lemma padEnd_length (s : string) (n : Z) :
  String.length (padEnd s n) = Nat.max (String.length s) (Z.to_nat n).
Proof. unfold padEnd. rewrite length_append, length_spaces. lia. Qed.

Lemma display_name_length (c : string) (s : option string) :
  Z.of_nat (String.length (display_name c s)) <= sourceLength c s.
Proof.
  unfold display_name, sourceLength. destruct s as [x|].
  - destruct (String.eqb x ""); rewrite !length_append; cbn [String.length]; lia.
  - rewrite length_append. cbn [String.length]. lia.
Qed.

(** X12.  What [uniformLength] is for.  For a logger the factory has
    created, on a target with uniform length, no colour and short
    timestamps, the text put before every line of the event has the same
    width at each of the six levels and for every logger of the factory:
    26 characters plus the factory's [maxSourceLength] [m] at the time of
    the call, which is at least what the logger's creation left.  The
    prefix does not depend on the messages. *)
Theorem uniform_prefix_has_one_width
    (X : Externals) (c : string) (s : option string) (col : jsval)
    (this this' : LoggerFactory) (lg : Logger) (m level timestamp : Z) :
  createLogger c s col this = (this', Ok lg) ->
  maxSourceLength this' <= m ->
  valid_rank level ->
  valid_time timestamp ->
  exists prefix,
    String.length prefix = Z.to_nat (26 + m)
    /\ forall messages,
         format X messages level (component lg) (source lg) (logger_color lg)
           true m TEXT false timestamp false =
         Some (prefix +:+
               rejoin_lines
                 (String.concat " "
                    (map (fun v => match v with
                                   | JPrim (PStr x) => x
                                   | _ => inspect X v false
                                   end) messages))
                 prefix).
Proof.
  intros Hc Hm Hl _.
  assert (Hlg : component lg = c /\ source lg = s
                /\ sourceLength c s <= maxSourceLength this').
  { destruct (createLogger_creates c s col this) as [(e & He)|(_ & color & Hok)].
    - rewrite He in Hc. discriminate.
    - rewrite Hok in Hc. injection Hc as <- <-. cbn. repeat split. lia. }
  destruct Hlg as (-> & -> & Hs).
  pose proof (display_name_length c s) as Hd.
  assert (Hsrc : String.length (padEnd (display_name c s) (b2z true * m))
                 = Z.to_nat m).
  { rewrite padEnd_length. cbn [b2z]. lia. }
  pose proof (formatTime_short_length X timestamp) as Ht.
  unfold valid_rank in Hl.
  assert (Hlevel : level = 1 \/ level = 2 \/ level = 3 \/ level = 4
                   \/ level = 5 \/ level = 6) by lia.
  destruct Hlevel as [-> | [-> | [-> | [-> | [-> | ->]]]]];
    (eexists; split; [|intros messages; cbv beta iota delta [format bracket noColor];
                        reflexivity]);
    rewrite !length_append, Hsrc, Ht, padEnd_length;
    cbn; lia.
Qed.

(** ** Colour *)

(** X13.  A target without colour gets no styling at all: whatever chalk
    does and whatever colour the logger was created with, the rendered
    event is the same.  Only [inspect], [stringifySafe] and the ISO
    timestamp take part. *)
Theorem colourless_target_is_never_styled
    (X X' : Externals) (messages : list jsval) (level : Z) (c : string)
    (s : option string) (sourceColor sourceColor' : option string)
    (uniform : bool) (maxSourceLength : Z) (style : format_style)
    (timestamp : Z) (fullTimestamps : bool) :
  (forall v b, inspect X v b = inspect X' v b) ->
  (forall v r, stringifySafe X v r = stringifySafe X' v r) ->
  (forall ms, toISOString X ms = toISOString X' ms) ->
  format X messages level c s sourceColor uniform maxSourceLength style false
    timestamp fullTimestamps =
  format X' messages level c s sourceColor' uniform maxSourceLength style false
    timestamp fullTimestamps.
Proof.
  intros Hi Hs Ht.
  assert (Htime : formatTime X timestamp fullTimestamps
                  = formatTime X' timestamp fullTimestamps).
  { unfold formatTime. rewrite Ht. reflexivity. }
  assert (Hjoin : map (fun v => match v with
                                | JPrim (PStr x) => x
                                | _ => inspect X v false
                                end) messages
                  = map (fun v => match v with
                                  | JPrim (PStr x) => x
                                  | _ => inspect X' v false
                                  end) messages).
  { apply map_ext. intros [[]| | |]; try reflexivity; apply Hi. }
  destruct style.
  - cbn [format]. rewrite Hs. reflexivity.
  - cbv beta iota zeta delta [format bracket noColor].
    rewrite Htime, Hjoin. reflexivity.
Qed.

(** ** What a log call hands to the sinks *)

(** [format] yields [null] only as text at a level that is none of the
    six. *)
Lemma format_null_iff (X : Externals) (messages : list jsval) (level : Z)
    (c : string) (s : option string) (sourceColor : option string)
    (uniform : bool) (msl : Z) (style : format_style) (color : bool)
    (timestamp : Z) (fullTimestamps : bool) :
  format X messages level c s sourceColor uniform msl style color timestamp
    fullTimestamps = None
  <-> style = TEXT /\ ~ valid_rank level.
Proof.
  unfold valid_rank. destruct style; cbn [format].
  - split; [discriminate|intros [? _]; discriminate].
  - destruct level as [|p|p].
    + split; [intros _; split; [reflexivity|lia]|reflexivity].
    + destruct p as [p|p|]; try (destruct p as [p|p|]);
        try (destruct p as [p|p|]);
        (split; [first [discriminate|intros _; split; [reflexivity|lia]]
                |first [reflexivity|intros [_ H]; exfalso; apply H; lia]]).
    + split; [intros _; split; [reflexivity|lia]|reflexivity].
Qed.

(** What a dispatch at one of the six ranks does for a task: the call on
    the sink of one of its targets, with the text rendered for it. *)
Lemma dispatch_task_rendered fuel X env path now ts messages level logger msl t :
  valid_rank level ->
  In t (tasks_of (_log (S fuel) X env path false now (Some ts) messages level
                    logger msl)) ->
  exists v text,
    In v ts
    /\ task_started t = now
    /\ format X messages level (component logger) (source logger)
         (logger_color logger) (t_uniform (base v)) msl (t_format (base v))
         (t_color (base v)) now (t_fullTimestamps (base v)) = Some text
    /\ match kind v with
       | STREAM stream _ =>
           task_touch t = stream_write stream (text +:+ String newline "")
       | FUNCTION func => task_touch t = func_call func (Some text)
       | HTTP url options =>
           task_touch t = request_send false url options (Some text)
       | HTTPS url options =>
           task_touch t = request_send true url options (Some text)
       end.
Proof.
  intros Hl Ht.
  assert (Ht' := Ht). rewrite _log_S in Ht'. cbn [tasks_of] in Ht'.
  apply task_origin in Ht' as (i & v & Hi & HF).
  apply target_task_index in HF.
  destruct (task_at_index fuel X env path now ts messages level logger msl i v t
              Hi Ht HF) as [Hs Htouch].
  destruct (format X messages level (component logger) (source logger)
              (logger_color logger) (t_uniform (base v)) msl (t_format (base v))
              (t_color (base v)) now (t_fullTimestamps (base v)))
    as [text|] eqn:Hf.
  - exists v, text. split; [eapply lookup_In; exact Hi|]. split; [exact Hs|].
    split; [exact Hf|]. rewrite Htouch.
    pose proof (deliver_spelled (kind v) (Some text)) as Hd.
    destruct (kind v); exact Hd.
  - apply format_null_iff in Hf as [_ Hf]. contradiction.
Qed.

(** X14.  Through the six methods, whose levels are the six ranks, every
    call made on a sink is a write to the stream, a call of the function
    or a request to the address of one of the factory's targets, and what
    it carries is the text [format] rendered for that target: of the
    event at the time of the call, or of a recovery event of the call at
    the time its dispatch started.  [null] is never handed over, although
    [format] returns [null] for text at any other level. *)
Theorem methods_hand_rendered_text_to_own_sinks
    (X : Externals) (env : Env) (now : Z) (this : Logger)
    (manager : LoggerFactory) (messages : list jsval) (level : Z) :
  valid_rank level ->
  forall tm e,
    In (tm, e) (touches (Logger_log level X env now this manager messages)) ->
    exists ts v msgs lvl text,
      targets manager = Some ts
      /\ In v ts
      /\ ((msgs = messages /\ lvl = level /\ tm = now)
          \/ exists i err,
               msgs = failure_messages i now level messages err
               /\ lvl = Z.min level levelNums.ERROR)
      /\ valid_rank lvl
      /\ format X msgs lvl (component this) (source this) (logger_color this)
           (t_uniform (base v)) (maxSourceLength manager) (t_format (base v))
           (t_color (base v)) tm (t_fullTimestamps (base v)) = Some text
      /\ match kind v with
         | STREAM stream _ => e = stream_write stream (text +:+ String newline "")
         | FUNCTION func => e = func_call func (Some text)
         | HTTP url options => e = request_send false url options (Some text)
         | HTTPS url options => e = request_send true url options (Some text)
         end.
Proof.
  intros Hl tm e. unfold Logger_log, call_depth.
  destruct (targets manager) as [ts|] eqn:Hts;
    [|rewrite _log_S; destruct (destroyed manager); intros []].
  destruct (destroyed manager) eqn:Hd; [rewrite _log_S; intros []|].
  set (res := _log 2 X env [] false now (Some ts) messages level this
                (maxSourceLength manager)).
  pose proof (_log_shallow 0 X env [] false now (Some ts) messages level this
                (maxSourceLength manager)) as Hsh.
  fold res in Hsh.
  assert (Hres : res = Promise_all (tasks_of res)).
  { subst res. rewrite _log_S. reflexivity. }
  assert (Htouches : touches res = map start_touch (all_tasks res)).
  { rewrite Hres at 1 2. cbn [touches all_tasks].
    clear - Hsh. induction Hsh as [|t l Ht _ IH]; [reflexivity|].
    cbn [flat_map]. rewrite map_app, IH, (family_touches t Ht). reflexivity. }
  rewrite Htouches. intros Hin. apply in_map_iff in Hin as (t & Hst & Hin).
  injection Hst as <- <-.
  rewrite Hres in Hin. cbn [all_tasks] in Hin.
  apply (all_tasks_cases _ _ Hsh) in Hin as [Hin|(t0 & err & rec & Hin0 & Hh & Hin)].
  - destruct (dispatch_task_rendered 1 X env [] now ts messages level this
                (maxSourceLength manager) t Hl Hin)
      as (v & text & Hv & Hs & Hf & Htouch).
    exists ts, v, messages, level, text.
    split; [reflexivity|]. split; [exact Hv|].
    split; [left; repeat split; exact Hs|]. split; [exact Hl|].
    rewrite Hs. split; [exact Hf|exact Htouch].
  - pose proof (relogged_origin 0 X env [] now ts messages level this
                  (maxSourceLength manager) t0 err rec Hin0 Hh) as ->.
    assert (Hl' : valid_rank (Z.min level levelNums.ERROR)).
    { unfold valid_rank, levelNums.ERROR in *. lia. }
    destruct (dispatch_task_rendered 0 X env _ _ _ _ _ this
                (maxSourceLength manager) t Hl' Hin)
      as (v' & text & Hv' & Hs & Hf & Htouch).
    apply in_map_iff in Hv' as (u & <- & Hu).
    exists ts, u, (failure_messages (task_index t0) now level messages err),
      (Z.min level levelNums.ERROR), text.
    split; [reflexivity|]. split; [exact Hu|].
    split; [right; eexists; eexists; split; reflexivity|]. split; [exact Hl'|].
    rewrite Hs. split; [exact Hf|exact Htouch].
Qed.

(** ** When a call fulfils *)

Lemma fold_max_ge (created : Z) (l : list Z) :
  created <= fold_right Z.max created l
  /\ forall x, In x l -> x <= fold_right Z.max created l.
Proof.
  induction l as [|y l [IHc IHl]]; cbn [fold_right].
  - split; [lia|intros x []].
  - split; [lia|]. intros x [<-|Hx]; [lia|]. specialize (IHl x Hx). lia.
Qed.

(** A task that did not rethrow fulfils, no earlier than its sink
    answered and than the sinks of its recovery dispatch answered. *)
Lemma unthrown_task_fulfils (t : task) :
  shallow t ->
  (forall x, task_handling t <> Rethrown x) ->
  exists tm v,
    settle_task t = Some (Fulfilled tm v)
    /\ task_finished t <= tm
    /\ forall e rec t',
         task_handling t = Relogged e rec -> In t' (tasks_of rec) ->
         task_finished t' <= tm.
Proof.
  destruct t as [i eff st fin h]. unfold shallow.
  cbn [task_handling task_finished settle_task].
  destruct h as [v|e|e|e rec]; intros Hsh Hno.
  - eexists; eexists. split; [reflexivity|]. split; [lia|]. discriminate.
  - destruct (Hno e eq_refl).
  - eexists; eexists. split; [reflexivity|]. split; [lia|]. discriminate.
  - destruct Hsh as (ts' & -> & Hq).
    destruct (all_quiet_settle ts' Hq) as (l & Hl & Hr & Hm).
    rewrite Hl. cbn [option_map]. unfold promise_all. rewrite Hr, Hm.
    destruct (fold_max_ge fin (map task_finished ts')) as [Hc Hall].
    eexists; eexists. split; [reflexivity|]. split; [exact Hc|].
    intros e' rec' t' [= _ <-] Hin. cbn [tasks_of] in Hin.
    apply Hall, in_map, Hin.
Qed.

Lemma unthrown_tasks_fulfil (ts : list task) :
  Forall shallow ts ->
  (forall t x, In t ts -> task_handling t <> Rethrown x) ->
  exists l,
    all_some (map settle_task ts) = Some l
    /\ first_rejection l = None
    /\ length l = length ts
    /\ forall t, In t ts ->
         exists tm, In tm (map settled_at l)
           /\ task_finished t <= tm
           /\ forall e rec t',
                task_handling t = Relogged e rec -> In t' (tasks_of rec) ->
                task_finished t' <= tm.
Proof.
  induction 1 as [|t ts Ht _ IH]; intros Hno.
  - exists []. repeat split. intros t [].
  - destruct IH as (l & Hl & Hr & Hlen & Hall).
    { intros t' x Hin. apply Hno. right. exact Hin. }
    destruct (unthrown_task_fulfils t Ht) as (tm & v & Hs & Hfin & Hrec).
    { intros x. apply Hno. left. reflexivity. }
    exists (Fulfilled tm v :: l). cbn [map all_some]. rewrite Hs, Hl.
    split; [reflexivity|]. split; [exact Hr|]. split; [cbn; lia|].
    intros t' [<-|Hin].
    + exists tm. split; [left; reflexivity|]. split; assumption.
    + destruct (Hall t' Hin) as (tm' & Hin' & H'). exists tm'.
      split; [right; exact Hin'|exact H'].
Qed.

(** X15.  Whenever the promise of a log call fulfils, no target that the
    call wrote to under policy [THROW] had failed, the value is an array
    with one entry for each target written to, and everything the call
    started has finished: the fulfilment comes no earlier than the call,
    than the answer of every sink, and than the answer of every sink of
    every recovery dispatch.  (A rejection does not wait; see C4.) *)
Theorem call_fulfils_after_everything_it_started
    (fuel : nat) (X : Externals) (env : Env) (path : list nat) (now : Z)
    (ts : list ParsedTarget) (messages : list jsval) (level : Z)
    (logger : Logger) (msl : Z) (tm : Z) (value : jsval) :
  let res := _log (S (S fuel)) X env path false now (Some ts) messages level
               logger msl in
  settle now res = Some (Fulfilled tm value) ->
  (forall j u x,
     ts !! j = Some u ->
     level_lt (t_level (base u)) level = false ->
     t_errorPolicy (base u) = THROW ->
     answer env (path ++ [j]) <> Failed x)
  /\ (exists vs, value = JArr vs /\ length vs = length (tasks_of res))
  /\ now <= tm
  /\ forall t, In t (tasks_of res) ->
       task_finished t <= tm
       /\ forall e rec t',
            task_handling t = Relogged e rec -> In t' (tasks_of rec) ->
            task_finished t' <= tm.
Proof.
  intros res Hful.
  pose proof (_log_shallow fuel X env path false now (Some ts) messages level
                logger msl) as Hsh.
  fold res in Hsh.
  assert (Hres : res = Promise_all (tasks_of res)).
  { subst res. rewrite _log_S. reflexivity. }
  destruct (all_shallow_settle _ Hsh) as (l0 & Hl0 & Hfw & _).
  assert (Hsettle0 : settle now res = Some (promise_all now l0)).
  { rewrite Hres. cbn [settle]. rewrite Hl0. reflexivity. }
  assert (Hnorej : first_rejection l0 = None).
  { rewrite Hsettle0 in Hful. unfold promise_all in Hful.
    destruct (first_rejection l0) as [[t0 e0]|]; [discriminate|reflexivity]. }
  assert (Hnone : forall t x, In t (tasks_of res) -> task_handling t <> Rethrown x).
  { intros t x Hin Hh. destruct (Hfw t Hin) as (s & Hs & Hin').
    destruct t as [i eff st fin h]. cbn [task_handling] in Hh. subst h.
    cbn [settle_task] in Hs. injection Hs as <-.
    destruct (first_rejection_exists _ _ _ Hin') as (t' & e' & Hrej).
    rewrite Hrej in Hnorej. discriminate. }
  destruct (unthrown_tasks_fulfil _ Hsh Hnone) as (l & Hl & Hr & Hlen & Hall).
  rewrite Hl in Hl0. injection Hl0 as <-.
  rewrite Hsettle0 in Hful. unfold promise_all in Hful. rewrite Hr in Hful.
  injection Hful as <- <-.
  destruct (fold_max_ge now (map settled_at l)) as [Hc Hmax].
  split.
  { intros j u x Hj Hlt Hpol Hans.
    apply (Hnone (Task j
                    (deliver (kind u)
                       (format X messages level (component logger)
                          (source logger) (logger_color logger)
                          (t_uniform (base u)) msl (t_format (base u))
                          (t_color (base u)) now (t_fullTimestamps (base u))))
                    now (now + latency env (path ++ [j])) (Rethrown x)) x);
      [|reflexivity].
    subst res. rewrite _log_S. cbn [tasks_of]. apply task_origin.
    exists j, u. split; [exact Hj|].
    unfold target_task. rewrite Hlt, Hans, Hpol. reflexivity. }
  split; [eexists; split; [reflexivity|rewrite length_map; exact Hlen]|].
  split; [exact Hc|].
  intros t Hin. destruct (Hall t Hin) as (tm & Hin' & Hfin & Hrec).
  specialize (Hmax tm Hin'). split; [lia|].
  intros e rec t' Hh Hin''. specialize (Hrec e rec t' Hh Hin''). lia.
Qed.

(** ** How many sink calls a log call makes *)

Lemma length_omap_imap {A} (p : A -> bool) (l : list A) :
  forall F : nat -> A -> option task,
    (forall i v, F i v = None <-> p v = false) ->
    length (omap id (imap F l)) = length (List.filter p l).
Proof.
  induction l as [|x l IH]; intros F HF; [reflexivity|].
  rewrite imap_cons. cbn [omap list_omap id List.filter].
  specialize (IH (F ∘ S) (fun i v => HF (S i) v)).
  pose proof (HF 0%nat x) as H0.
  destruct (F 0%nat x) as [t|], (p x); cbn [length].
  - f_equal. exact IH.
  - destruct H0 as [_ H0]. discriminate (H0 eq_refl).
  - destruct H0 as [H0 _]. discriminate (H0 eq_refl).
  - exact IH.
Qed.

Lemma tasks_count fuel X env path now ts messages level logger msl :
  length (tasks_of (_log (S fuel) X env path false now (Some ts) messages level
                      logger msl))
  = length (List.filter (eligible level) ts).
Proof.
  rewrite _log_S. cbn [tasks_of]. apply length_omap_imap.
  intros i v. unfold target_task, eligible.
  destruct (level_lt (t_level (base v)) level); cbn [negb];
    split; intros; try reflexivity; discriminate.
Qed.

Lemma filter_length_le {A} (p q : A -> bool) (l : list A) :
  (forall x, p x = true -> q x = true) ->
  (length (List.filter p l) <= length (List.filter q l))%nat.
Proof.
  intros H. induction l as [|x l IH]; [reflexivity|]. cbn [List.filter].
  destruct (p x) eqn:Hp.
  - rewrite (H x Hp). cbn [length]. lia.
  - destruct (q x); cbn [length]; lia.
Qed.

Lemma filter_eligible_derived (rank : Z) (p : policy) (ts : list ParsedTarget) :
  length (List.filter (eligible rank) (map (with_errorPolicy p) ts))
  = length (List.filter (eligible rank) ts).
Proof.
  induction ts as [|v ts IH]; [reflexivity|]. cbn [map List.filter].
  change (eligible rank (with_errorPolicy p v)) with (eligible rank v).
  destruct (eligible rank v); cbn [length]; rewrite IH; reflexivity.
Qed.

Lemma quiet_touches_once (ts : list task) :
  Forall quiet ts -> length (flat_map task_touches ts) = length ts.
Proof.
  induction 1 as [|t ts Ht _ IH]; [reflexivity|].
  cbn [flat_map]. rewrite length_app, IH.
  destruct t as [i e s f h]. unfold quiet in Ht. cbn in Ht.
  destruct h; try contradiction; reflexivity.
Qed.

Lemma flat_map_weighted {A B} (f : A -> list B) (q : A -> bool) (k : nat)
    (l : list A) :
  (forall t, In t l -> length (f t) = (1 + if q t then k else 0)%nat) ->
  length (flat_map f l) = (length l + length (List.filter q l) * k)%nat.
Proof.
  induction l as [|x l IH]; intros H; [reflexivity|].
  cbn [flat_map List.filter]. rewrite length_app.
  rewrite IH by (intros t Ht; apply H; right; exact Ht).
  rewrite (H x) by (left; reflexivity).
  destruct (q x); cbn [length]; lia.
Qed.

Lemma target_task_touches recover X env path now ts messages level logger msl
    i v t :
  target_task recover X env path now ts messages level logger msl i v = Some t ->
  length (task_touches t) =
  S (if is_relogged t
     then length (touches
                    (recover (path ++ [i])%list false
                       (now + latency env (path ++ [i]))
                       (Some (map (with_errorPolicy IGNORE) ts))
                       (failure_messages i now level messages
                          match answer env (path ++ [i]) with
                          | Failed e => e
                          | Acked _ => JUndefined
                          end)
                       (Z.min level levelNums.ERROR) logger msl))
     else 0%nat).
Proof.
  unfold target_task. destruct (level_lt _ _); [discriminate|].
  intros [= <-]. unfold is_relogged. cbn [task_touches task_handling].
  destruct (answer env (path ++ [i])) as [?|err]; [reflexivity|].
  destruct (t_errorPolicy (base v)); try reflexivity.
  destruct (destroyed_meanwhile env (path ++ [i])); reflexivity.
Qed.

Lemma recovery_touches_count fuel X env path now ts messages rank logger msl :
  length (touches (_log (S fuel) X env path false now
                     (Some (map (with_errorPolicy IGNORE) ts)) messages rank
                     logger msl))
  = length (List.filter (eligible rank) ts).
Proof.
  pose proof (tasks_count fuel X env path now (map (with_errorPolicy IGNORE) ts)
                messages rank logger msl) as Hc.
  pose proof (_log_ignore_quiet fuel X env path now
                (map (with_errorPolicy IGNORE) ts) messages rank logger msl
                (derived_all_ignore ts)) as Hq.
  rewrite _log_S in *. cbn [tasks_of touches] in *.
  rewrite (quiet_touches_once _ Hq), Hc. apply filter_eligible_derived.
Qed.

(** X16.  The sink calls of one log call, counted.  With [E] the number
    of targets that let the call's level through and [E'] the number that
    let the recovery level through, the call starts [E] operations, each
    operation that ends in a recovery dispatch adds [E'] more, and
    [E <= E']: a recovery event goes to at least as many targets as the
    event that failed.  So a call over [n] targets makes at most
    [n + n * n] sink calls. *)
Theorem sink_calls_of_one_call
    (fuel : nat) (X : Externals) (env : Env) (path : list nat) (now : Z)
    (ts : list ParsedTarget) (messages : list jsval) (level : Z)
    (logger : Logger) (msl : Z) :
  let res := _log (S (S fuel)) X env path false now (Some ts) messages level
               logger msl in
  let E := length (List.filter (eligible level) ts) in
  let E' := length (List.filter (eligible (Z.min level levelNums.ERROR)) ts) in
  let R := length (List.filter is_relogged (tasks_of res)) in
  length (tasks_of res) = E
  /\ length (touches res) = (E + R * E')%nat
  /\ (R <= E <= E')%nat
  /\ (E' <= length ts)%nat
  /\ (length (touches res) <= length ts + length ts * length ts)%nat.
Proof.
  intros res E E' R.
  assert (Htasks : length (tasks_of res) = E)
    by exact (tasks_count (S fuel) X env path now ts messages level logger msl).
  assert (HR : (R <= E)%nat).
  { subst R. rewrite <- Htasks. apply List.filter_length_le. }
  assert (HE : (E <= E')%nat).
  { apply filter_length_le. intros v. unfold eligible.
    destruct (t_level (base v)) as [m|k]; cbn [level_lt]; [|reflexivity].
    rewrite !negb_true_iff, !Z.ltb_ge. lia. }
  assert (HE' : (E' <= length ts)%nat) by apply List.filter_length_le.
  assert (Htouch : length (touches res) = (E + R * E')%nat).
  { rewrite <- Htasks.
    assert (Hres : res = Promise_all (tasks_of res)).
    { subst res. rewrite _log_S. reflexivity. }
    rewrite Hres at 1. cbn [touches]. apply flat_map_weighted.
    intros t Hin. subst res. rewrite _log_S in Hin. cbn [tasks_of] in Hin.
    apply task_origin in Hin as (i & v & Hi & HF).
    rewrite (target_task_touches _ _ _ _ _ _ _ _ _ _ _ _ _ HF).
    destruct (is_relogged t); [|reflexivity]. f_equal.
    apply recovery_touches_count. }
  repeat split; try assumption; try lia. rewrite Htouch. nia.
Qed.

(** ** The levels of a created factory *)

Lemma logLevelNum_rank (p : prim) (m : Z) :
  logLevelNum p = Ok (LNum m) -> valid_rank m.
Proof.
  unfold logLevelNum, levelNums_get.
  destruct (truthy p && _); [discriminate|].
  destruct (assoc (prim_string p) six_names) as [n|] eqn:Ha.
  - intros [= <-]. apply assoc_Some_In in Ha. unfold valid_rank.
    cbn in Ha. unfold levelNums.FATAL, levelNums.ERROR, levelNums.WARN,
      levelNums.INFO, levelNums.DEBUG, levelNums.TRACE in Ha.
    repeat (destruct Ha as [[= _ <-]|Ha]; [lia|]). destruct Ha.
  - destruct (existsb _ _); [discriminate|]. intros [= <-].
    unfold valid_rank, levelNums.TRACE. lia.
Qed.

Lemma baseTargetOptions_rank (opts : BaseTarget) (b : BaseOptions) (m : Z) :
  baseTargetOptions opts = Ok b -> t_level b = LNum m -> valid_rank m.
Proof.
  unfold baseTargetOptions, result_bind.
  destruct (logLevelNum (d_logLevel opts)) as [lv|] eqn:Hl; [|discriminate].
  destruct (logStyle _); [|discriminate].
  destruct (errorPolicy _); [|discriminate].
  intros [= <-]. cbn [t_level]. intros ->. eapply logLevelNum_rank, Hl.
Qed.

Lemma parseTarget_rank (d : Target) (w w' : World) (v : ParsedTarget) (m : Z) :
  parseTarget d w = (w', Ok v) -> t_level (base v) = LNum m -> valid_rank m.
Proof.
  destruct d as [path fie el opts|[id|x] opts|url https options opts|opts
                |[f|x] opts|type opts];
    unfold parseTarget, bind, lift, ret, throw; try discriminate.
  - destruct (createStream_cases path fie w) as [(e & ->)|(p & ->)]; [discriminate|].
    destruct el as [l|]; unfold perform, ret;
      destruct (baseTargetOptions opts) eqn:Hb; try discriminate;
      intros [= _ <-]; cbn [base]; eapply baseTargetOptions_rank, Hb.
  - destruct (baseTargetOptions opts) eqn:Hb; [|discriminate].
    intros [= _ <-]. cbn [base]. eapply baseTargetOptions_rank, Hb.
  - destruct (baseTargetOptions opts) eqn:Hb; [|discriminate].
    intros [= _ <-]. cbn [base]. eapply baseTargetOptions_rank, Hb.
  - destruct (baseTargetOptions opts) eqn:Hb; [|discriminate].
    intros [= _ <-]. cbn [base]. eapply baseTargetOptions_rank, Hb.
  - destruct (baseTargetOptions opts) eqn:Hb; [|discriminate].
    intros [= _ <-]. cbn [base]. eapply baseTargetOptions_rank, Hb.
Qed.

Lemma parseTargets_rank (ds : list Target) :
  forall (w w' : World) (ts : list ParsedTarget),
    parseTargets ds w = (w', Ok ts) ->
    forall v m, In v ts -> t_level (base v) = LNum m -> valid_rank m.
Proof.
  induction ds as [|d ds IH]; intros w w' ts.
  - intros [= _ <-] v m [].
  - cbn [parseTargets]. unfold bind at 1.
    destruct (parseTarget d w) as [w1 [v0|e]] eqn:Hd; [|discriminate].
    unfold bind at 1.
    destruct (parseTargets ds w1) as [w2 [ts'|e]] eqn:Hds; [|discriminate].
    intros [= _ <-] v m [<-|Hin].
    + eapply parseTarget_rank, Hd.
    + eapply IH; eassumption.
Qed.

Lemma all_eligible_indices {A} (l : list A) :
  forall (F : nat -> A -> option task) (k : nat),
    (forall i v, In v l -> exists t, F i v = Some t /\ task_index t = (k + i)%nat) ->
    map task_index (omap id (imap F l)) = seq k (length l).
Proof.
  induction l as [|x l IH]; intros F k HF; [reflexivity|].
  rewrite imap_cons. cbn [omap list_omap id].
  destruct (HF 0%nat x (or_introl eq_refl)) as (t & -> & Ht).
  cbn [map length seq]. f_equal; [lia|].
  apply IH. intros i v Hin.
  destruct (HF (S i) v (or_intror Hin)) as (t' & Ht' & Hi').
  exists t'. split; [exact Ht'|lia].
Qed.

(** X17.  In a factory that [createLoggerFactory] returned, a target's
    level is one of the six ranks whenever it is a number.  So [fatal],
    the lowest rank, is let through by every target: on the live factory
    it starts one operation per descriptor, in the descriptors' order. *)
Theorem fatal_reaches_every_target
    (arg : targets_arg) (w w' : World) (this : LoggerFactory) :
  createLoggerFactory arg w = (w', Ok this) ->
  (forall ts v m,
     targets this = Some ts -> In v ts -> t_level (base v) = LNum m ->
     valid_rank m)
  /\ forall (X : Externals) (env : Env) (now : Z) (logger : Logger)
       (manager : LoggerFactory) (messages : list jsval),
       targets manager = targets this ->
       destroyed manager = false ->
       map task_index
         (tasks_of (Logger_fatal X env now logger manager messages))
       = seq 0 (length (descriptors arg)).
Proof.
  intros Hc. unfold createLoggerFactory, bind in Hc.
  fold (descriptors arg) in Hc.
  destruct (parseTargets (descriptors arg) w) as [w1 [ts|e]] eqn:Hp; [|discriminate].
  injection Hc as _ <-. cbn [targets new_LoggerFactory].
  pose proof (parseTargets_rank _ _ _ _ Hp) as Hrank.
  destruct (parseTargets_opens _ _ _ _ Hp) as (Hlen & _).
  split.
  - intros ts' v m [= <-]. apply Hrank.
  - intros X env now logger manager messages Ht Hd.
    unfold Logger_fatal, Logger_log, call_depth. rewrite Ht, Hd, _log_S.
    cbn [tasks_of]. rewrite <- Hlen. apply all_eligible_indices.
    intros i v Hin. unfold target_task.
    assert (Hlt : level_lt (t_level (base v)) levelNums.FATAL = false).
    { destruct (t_level (base v)) as [m|k] eqn:Hm; cbn [level_lt]; [|reflexivity].
      specialize (Hrank v m Hin Hm). unfold valid_rank, levelNums.FATAL in *.
      apply Z.ltb_ge. lia. }
    rewrite Hlt. eexists. split; reflexivity.
Qed.

(** ** Posting an event *)

Lemma post_settled_stays (evs : list http_event) :
  forall (st : post_state) (r : result jsval),
    p_outcome st = Some r ->
    p_outcome (fold_left post_handle evs st) = Some r.
Proof.
  induction evs as [|ev evs IH]; intros st r Hr; [exact Hr|].
  cbn [fold_left]. apply IH.
  destruct ev as [sc h|chunk|complete|e|e|]; cbn [post_handle].
  - exact Hr.
  - destruct (p_response st); exact Hr.
  - destruct (p_response st) as [[sc h]|]; [|exact Hr].
    destruct (negb complete); cbn; rewrite Hr; reflexivity.
  - destruct (p_response st); [|exact Hr]. cbn. rewrite Hr. reflexivity.
  - cbn. rewrite Hr. reflexivity.
  - cbn. rewrite Hr. reflexivity.
Qed.

Lemma post_gathers (chunks : list string) :
  forall (st : post_state) (r : Z * js_object),
    p_response st = Some r ->
    fold_left post_handle (map res_data chunks) st =
    {| p_response := Some r;
       p_text := p_text st +:+ String.concat "" chunks;
       p_outcome := p_outcome st;
       p_destroys := p_destroys st |}.
Proof.
  assert (Hnil : forall s : string, s +:+ "" = s).
  { induction s as [|c s IH]; [reflexivity|].
    change (String c s +:+ "") with (String c (s +:+ "")). rewrite IH.
    reflexivity. }
  assert (Hassoc : forall a b c : string, (a +:+ b) +:+ c = a +:+ (b +:+ c)).
  { induction a as [|x a IH]; intros b c; [reflexivity|].
    change ((String x a +:+ b) +:+ c) with (String x ((a +:+ b) +:+ c)).
    rewrite IH. reflexivity. }
  assert (Hcat : forall (c : string) (l : list string),
            String.concat "" (c :: l) = c +:+ String.concat "" l).
  { intros c [|d l]; [symmetry; apply Hnil|reflexivity]. }
  induction chunks as [|c chunks IH]; intros st r Hr.
  - cbn. rewrite Hnil. destruct st. cbn in *. rewrite Hr. reflexivity.
  - cbn [map fold_left post_handle]. rewrite Hr.
    rewrite (IH _ r) by reflexivity. cbn [p_text p_outcome p_destroys].
    rewrite Hcat, Hassoc. reflexivity.
Qed.

Lemma post_progress (evs : list http_event) :
  forall st : post_state,
    forallb is_progress evs = true ->
    p_outcome (fold_left post_handle evs st) = p_outcome st
    /\ ((exists r, p_response st = Some r) ->
        exists r, p_response (fold_left post_handle evs st) = Some r).
Proof.
  induction evs as [|ev evs IH]; intros st Hp; [split; [reflexivity|tauto]|].
  cbn [forallb] in Hp. apply andb_prop in Hp as [Hev Hp].
  cbn [fold_left]. destruct (IH (post_handle st ev) Hp) as [Ho Hr].
  rewrite Ho. destruct ev; try discriminate; cbn [post_handle] in *.
  - split; [reflexivity|]. intros _. apply Hr. eexists. reflexivity.
  - destruct (p_response st) as [r0|] eqn:Hr0; (split; [reflexivity|]).
    + intros _. apply Hr. exists r0. reflexivity.
    + intros (r & Hr'). discriminate.
Qed.

(** X18.  A response that arrives in full resolves the promise of
    [postRequest] whatever its status code (an error status is no
    failure): with the status, the headers and, as body, the chunks in the
    order they came.  What node reports afterwards, like the [close] whose
    handler always calls [reject], changes nothing. *)
Theorem complete_response_resolves_whatever_the_status
    (https : bool) (url : string) (content : string)
    (options : js_object) (statusCode : Z) (headers : js_object)
    (chunks : list string) (later : list http_event) :
  p_outcome (snd (postRequest https url content options
                    (on_response statusCode headers
                     :: map res_data chunks ++ res_end true :: later)))
  = Some (Ok (JObj [ ("status", JNum statusCode);
                     ("headers", JObj headers);
                     ("body", JStr (String.concat "" chunks)) ])).
Proof.
  unfold postRequest. cbn [snd fold_left post_handle].
  rewrite fold_left_app.
  rewrite (post_gathers chunks _ (statusCode, headers)) by reflexivity.
  cbn [fold_left post_handle p_response negb p_text p_outcome post_start].
  apply post_settled_stays. reflexivity.
Qed.

(** X19.  The promise of [postRequest] settles once, by the first event
    that settles it.  While only the response and its chunks have been
    reported it is pending; a [close] then rejects it with "No response
    received", also when a response had begun, and the [end] of a
    response that is not complete rejects it with "Connection closed
    before response was fully transmitted". *)
Theorem post_promise_settles_once
    (https : bool) (url : string) (content : string)
    (options : js_object) (events later : list http_event) :
  let outcome evs := p_outcome (snd (postRequest https url content options evs)) in
  (forall r, outcome events = Some r -> outcome (events ++ later)%list = Some r)
  /\ (forallb is_progress events = true ->
      outcome events = None
      /\ outcome (events ++ req_close :: later)%list
         = Some (Throw (new_Error "No response received"))
      /\ forall statusCode headers,
           outcome (on_response statusCode headers
                    :: events ++ res_end false :: later)%list
           = Some (Throw (new_Error
                "Connection closed before response was fully transmitted"))).
Proof.
  intros outcome. subst outcome. unfold postRequest. cbn [snd]. split.
  - intros r Hr. rewrite fold_left_app. apply post_settled_stays, Hr.
  - intros Hp. destruct (post_progress events post_start Hp) as [Hnone _].
    cbn [p_outcome post_start] in Hnone.
    split; [exact Hnone|]. split.
    + rewrite fold_left_app. cbn [fold_left]. apply post_settled_stays.
      cbn. rewrite Hnone. reflexivity.
    + intros statusCode headers. cbn [fold_left].
      set (st1 := post_handle post_start (on_response statusCode headers)).
      rewrite fold_left_app. cbn [fold_left]. apply post_settled_stays.
      destruct (post_progress events st1 Hp) as [Ho Hr].
      destruct Hr as ([sc h] & Hr); [eexists; reflexivity|].
      cbn [post_handle]. rewrite Hr. unfold settle_once. cbn [negb p_outcome].
      rewrite Ho. reflexivity.
Qed.

(** ** Timestamps and widths *)

(** X20.  The short timestamp shows the time of day only: it is twelve
    characters long, and two instants a whole number of days apart are
    rendered alike. *)
Theorem short_timestamp_is_time_of_day (X : Externals) (ms days : Z) :
  valid_time ms ->
  valid_time (ms + days * 86400000) ->
  String.length (formatTime X ms false) = 12%nat
  /\ formatTime X (ms + days * 86400000) false = formatTime X ms false.
Proof.
  intros _ _. split; [apply formatTime_short_length|].
  unfold formatTime.
  assert (H1 : ((ms + days * 86400000) / 3600000) mod 24 = (ms / 3600000) mod 24).
  { replace (days * 86400000) with (days * 24 * 3600000) by lia.
    rewrite Z.div_add by lia. apply Z.mod_add. lia. }
  assert (H2 : ((ms + days * 86400000) / 60000) mod 60 = (ms / 60000) mod 60).
  { replace (days * 86400000) with (days * 1440 * 60000) by lia.
    rewrite Z.div_add by lia.
    replace (days * 1440) with (days * 24 * 60) by lia. apply Z.mod_add. lia. }
  assert (H3 : ((ms + days * 86400000) / 1000) mod 60 = (ms / 1000) mod 60).
  { replace (days * 86400000) with (days * 86400 * 1000) by lia.
    rewrite Z.div_add by lia.
    replace (days * 86400) with (days * 1440 * 60) by lia. apply Z.mod_add. lia. }
  assert (H4 : (ms + days * 86400000) mod 1000 = ms mod 1000).
  { replace (days * 86400000) with (days * 86400 * 1000) by lia.
    apply Z.mod_add. lia. }
  rewrite H1, H2, H3, H4. reflexivity.
Qed.




(** ** Which colours are accepted *)

Lemma createLogger_string (c : string) (s : option string) (x : string)
    (this : LoggerFactory) :
  destroyed this = false ->
  let h := if String.prefix "#" x then slice1 x else x in
  createLogger c s (JStr x) this =
  if String.eqb x "" || String.eqb h ""
  then (raise_max (sourceLength c s) this, Ok (new_Logger c s None))
  else if is_hex6 h
       then (raise_max (sourceLength c s) this, Ok (new_Logger c s (Some h)))
       else (this, Throw (new_RangeError
               ("Expected sourceColor to be a hex string of length 6, but received '"
                +:+ h +:+ "' instead"))).
Proof.
  intros Hd h. 
  rewrite <- (createLogger_tail c s None this).
  rewrite <- (createLogger_tail c s (Some h) this).
  unfold createLogger, bind, get. rewrite Hd. unfold JStr.
  cbn [ret js_truthy truthy].
  destruct (String.eqb x "") eqn:Hx; cbn [negb orb ret js_truthy truthy andb].
  - rewrite Hx. cbn [negb andb ret]. reflexivity.
  - subst h. destruct (String.prefix "#" x); unfold JStr;
      cbn [js_truthy truthy js_string prim_string].
    + destruct (String.eqb (slice1 x) ""); cbn [negb andb ret]; [reflexivity|].
      destruct (is_hex6 (slice1 x)); reflexivity.
    + rewrite Hx. cbn [negb andb]. destruct (is_hex6 x); reflexivity.
Qed.

Lemma createLogger_array (c : string) (s : option string) (items : list jsval)
    (this : LoggerFactory) :
  destroyed this = false ->
  createLogger c s (JArr items) this =
  if forallb is_channel items && Nat.eqb (length items) 3
  then createLogger c s
         (JNum (Z.shiftl (num_at items 0) 16 + Z.shiftl (num_at items 1) 8
                + num_at items 2)) this
  else (this, Throw (new_TypeError
          ("Expected sourceColor to be an array of 3 numbers between 0 and 255, but received "
           +:+ js_string (JArr items) +:+ " instead"))).
Proof.
  intros Hd. unfold createLogger, bind, get. rewrite Hd.
  destruct (forallb is_channel items); cbn [negb orb andb];
    [|reflexivity].
  destruct (Nat.eqb (length items) 3); reflexivity.
Qed.

Lemma channels_triple (items : list jsval) :
  forallb is_channel items && Nat.eqb (length items) 3 = true <->
  exists r g b,
    items = [JNum r; JNum g; JNum b]
    /\ 0 <= r < 256 /\ 0 <= g < 256 /\ 0 <= b < 256.
Proof.
  assert (Hch : forall v, is_channel v = true <-> exists n, v = JNum n /\ 0 <= n < 256).
  { intros v. unfold is_channel. split.
    - destruct v as [[| | |n| |]| | |]; try discriminate. intros H.
      apply andb_prop in H as [H1 H2]. apply Z.leb_le in H1. apply Z.ltb_lt in H2.
      exists n. split; [reflexivity|lia].
    - intros (n & -> & Hn). cbn. apply andb_true_intro.
      split; [apply Z.leb_le|apply Z.ltb_lt]; lia. }
  split.
  - intros H. apply andb_prop in H as [Hall Hlen]. apply Nat.eqb_eq in Hlen.
    destruct items as [|x [|y [|z [|]]]]; try discriminate.
    cbn [forallb] in Hall.
    apply andb_prop in Hall as [Hx Hall]. apply andb_prop in Hall as [Hy Hall].
    apply andb_prop in Hall as [Hz _].
    apply Hch in Hx as (r & -> & Hr). apply Hch in Hy as (g & -> & Hg).
    apply Hch in Hz as (b & -> & Hb). exists r, g, b. repeat split; lia.
  - intros (r & g & b & -> & Hr & Hg & Hb). cbn [forallb length Nat.eqb].
    rewrite (proj2 (Hch (JNum r))), (proj2 (Hch (JNum g))), (proj2 (Hch (JNum b)))
      by (eexists; split; [reflexivity|assumption]).
    reflexivity.
Qed.

(** X22.  Which colours [createLogger] accepts on a live factory, among
    the values of the embedding ([undefined], [null], booleans, integers,
    [NaN], strings, arrays, objects and errors): no colour ([undefined],
    [null], [false], the empty string, and also the string "#"), an
    integer from 0 to 16777215, six hexadecimal digits with or without one
    leading "#", and an array of three integers from 0 to 255.  These
    return a logger and raise the running maximum; every other value
    ([true], [NaN], objects, other strings, other arrays, ...) throws and
    leaves the factory as it was. *)
Theorem createLogger_accepts_exactly
    (c : string) (s : option string) (v : jsval) (this : LoggerFactory) :
  destroyed this = false ->
  let accepted :=
    v = JUndefined \/ v = JNull \/ v = JPrim (PBool false) \/ v = JStr ""
    \/ v = JStr "#"
    \/ (exists n, v = JNum n /\ 0 <= n < 16777216)
    \/ (exists h, (v = JStr h \/ v = JStr ("#" +:+ h)) /\ is_hex6 h = true)
    \/ (exists r g b,
          v = JArr [JNum r; JNum g; JNum b]
          /\ 0 <= r < 256 /\ 0 <= g < 256 /\ 0 <= b < 256) in
  (accepted <->
   exists lg,
     createLogger c s v this = (raise_max (sourceLength c s) this, Ok lg))
  /\ (~ accepted <-> exists e, createLogger c s v this = (this, Throw e)).
Proof.
  intros Hd accepted.
  assert (Hint : forall n, 0 <= n < 16777216 ->
            createLogger c s (JNum n) this =
            (raise_max (sourceLength c s) this,
             Ok (new_Logger c s (Some (padStart0 (toString16 n) 6))))).
  { intros n Hn. pose proof (packed_colour_is_hex6 n Hn) as Hhex.
    destruct (hex6_shape _ Hhex) as (Hne & Hp).
    assert (Hc : Z.leb 0 n && Z.ltb n (Z.shiftl 1 24) = true).
    { change (Z.shiftl 1 24) with 16777216. apply andb_true_intro.
      split; [apply Z.leb_le|apply Z.ltb_lt]; lia. }
    assert (Ht : js_truthy (JPrim (PStr (padStart0 (toString16 n) 6))) = true).
    { cbn [js_truthy truthy]. rewrite Hne. reflexivity. }
    unfold createLogger, bind, get. rewrite Hd.
    cbn [JNum JStr ret]. rewrite Hc. cbn [negb ret]. unfold JStr.
    rewrite Ht, Hp. cbn [ret]. rewrite Ht.
    cbn [js_string prim_string]. rewrite Hhex. cbn [negb andb ret].
    exact (createLogger_tail c s (Some (padStart0 (toString16 n) 6)) this). }
  assert (Hout : forall n, ~ 0 <= n < 16777216 ->
            exists e, createLogger c s (JNum n) this = (this, Throw e)).
  { intros n Hn.
    assert (Hc : Z.leb 0 n && Z.ltb n (Z.shiftl 1 24) = false).
    { change (Z.shiftl 1 24) with 16777216.
      destruct (Z.leb_spec 0 n); [|reflexivity].
      destruct (Z.ltb_spec n 16777216); [lia|reflexivity]. }
    unfold createLogger, bind, get. rewrite Hd.
    cbn [JNum JStr ret]. rewrite Hc. eexists. reflexivity. }
  assert (Hnone : forall v0, js_truthy v0 = false ->
            match v0 with JPrim (PNum _) | JPrim PNaN | JArr _ => False | _ => True end ->
            createLogger c s v0 this
            = (raise_max (sourceLength c s) this, Ok (new_Logger c s None))).
  { intros v0 Ht Hshape. unfold createLogger, bind, get. rewrite Hd.
    destruct v0 as [[| |b|n| |x]|items|o|name msg stack]; try discriminate;
      try contradiction.
    - exact (createLogger_tail c s None this).
    - exact (createLogger_tail c s None this).
    - destruct b; [discriminate|]. exact (createLogger_tail c s None this).
    - cbn [ret]. rewrite Ht. cbn [ret andb]. rewrite Ht.
      exact (createLogger_tail c s None this). }
  assert (Hfwd : accepted ->
            exists lg, createLogger c s v this
                       = (raise_max (sourceLength c s) this, Ok lg)).
  { intros [->|[->|[->|[->|[->|[(n & -> & Hn)|[(h & Hv & Hh)|(r & g & b & -> & Hr & Hg & Hb)]]]]]]].
    - eexists. apply Hnone; [reflexivity|exact I].
    - eexists. apply Hnone; [reflexivity|exact I].
    - eexists. apply Hnone; [reflexivity|exact I].
    - eexists. apply Hnone; [reflexivity|exact I].
    - eexists. rewrite (createLogger_string c s "#" this Hd). reflexivity.
    - eexists. apply Hint, Hn.
    - destruct (hex6_shape _ Hh) as (Hne & Hp). destruct Hv as [->| ->].
      + rewrite (createLogger_string c s h this Hd). rewrite Hp, Hne, Hh. cbn [orb].
        eexists. reflexivity.
      + rewrite (createLogger_string c s ("#" +:+ h) this Hd).
        change (String.prefix "#" ("#" +:+ h)) with (String.prefix "" h).
        assert (Hpre : String.prefix "" h = true) by (destruct h; reflexivity).
        rewrite Hpre. change (slice1 ("#" +:+ h)) with h.
        change (String.eqb ("#" +:+ h) "") with false. rewrite Hne, Hh. cbn [orb].
        eexists. reflexivity.
    - rewrite (createLogger_array c s _ this Hd).
      rewrite (proj2 (channels_triple [JNum r; JNum g; JNum b]))
        by (exists r, g, b; repeat split; lia).
      eexists. apply Hint. cbn [num_at nth_error JNum].
      rewrite !Z.shiftl_mul_pow2 by lia. lia. }
  assert (Hcases : accepted
                   \/ exists e, createLogger c s v this = (this, Throw e)).
  { subst accepted. destruct v as [[| |b|n| |x]|items|o|name msg stack].
    - left. left. reflexivity.
    - left. right. left. reflexivity.
    - destruct b.
      + right. unfold createLogger, bind, get. rewrite Hd. eexists. reflexivity.
      + left. do 2 right. left. reflexivity.
    - destruct (Z_le_dec 0 n) as [H0|H0]; [destruct (Z_lt_dec n 16777216) as [H1|H1]|].
      + left. do 5 right. left. exists n. split; [reflexivity|lia].
      + right. apply Hout. lia.
      + right. apply Hout. lia.
    - right. unfold createLogger, bind, get. rewrite Hd. eexists. reflexivity.
    - change (JPrim (PStr x)) with (JStr x). rewrite (createLogger_string c s x this Hd).
      destruct (String.eqb_spec x "") as [->|Hx].
      { left. do 3 right. left. reflexivity. }
      cbn [orb]. destruct (String.prefix "#" x) eqn:Hp.
      + assert (Hx' : x = "#" +:+ slice1 x).
        { destruct x as [|a x]; [discriminate|]. cbn [String.prefix] in Hp.
          destruct (ascii_dec "#" a) as [<-|]; [|discriminate].
          destruct x; reflexivity. }
        destruct (String.eqb_spec (slice1 x) "") as [He|He].
        { left. do 4 right. left. rewrite Hx', He. reflexivity. }
        destruct (is_hex6 (slice1 x)) eqn:Hh; [|right; eexists; reflexivity].
        left. do 6 right. left. exists (slice1 x).
        split; [right; rewrite <- Hx'; reflexivity|exact Hh].
      + rewrite (proj2 (String.eqb_neq x "") Hx).
        destruct (is_hex6 x) eqn:Hh; [|right; eexists; reflexivity].
        left. do 6 right. left. exists x.
        split; [left; reflexivity|exact Hh].
    - rewrite (createLogger_array c s items this Hd).
      destruct (forallb is_channel items && Nat.eqb (length items) 3) eqn:Hc;
        [|right; eexists; reflexivity].
      apply channels_triple in Hc as (r & g & b & -> & Hr & Hg & Hb).
      left. do 7 right. exists r, g, b. repeat split; lia.
    - right. unfold createLogger, bind, get. rewrite Hd. eexists. reflexivity.
    - right. unfold createLogger, bind, get. rewrite Hd. eexists. reflexivity. }
  split; split.
  - exact Hfwd.
  - intros (lg & Hok). destruct Hcases as [Ha|(e & He)]; [exact Ha|].
    rewrite He in Hok. discriminate.
  - intros Hno. destruct Hcases as [Ha|He]; [contradiction|exact He].
  - intros (e & He) Ha. destruct (Hfwd Ha) as (lg & Hok).
    rewrite He in Hok. discriminate.
Qed.

(** * The further properties at concrete calls *)

Lemma post_target_at_put_request :
  exists v,
    parseTarget (PostTarget "logs.example/in" (Some false) (Some put_request)
                   no_options) quiet_world = (quiet_world, Ok v)
    /\ exists o,
         kind v = HTTP "logs.example/in" o
         /\ assoc "method" o = Some (JStr "POST")
         /\ assoc "timeout" o = Some (JNum 5).
Proof.
  eexists. split; [reflexivity|].
  destruct (post_target_always_posts "logs.example/in" (Some false)
              (Some put_request) no_options quiet_world _ _ eq_refl)
    as (_ & o & Hk & Hm & Hrest).
  exists o. split; [exact Hk|]. split; [exact Hm|].
  rewrite Hrest by discriminate. reflexivity.
Defined.

Lemma one_stream_per_file_at_file_and_stream :
  createLoggerFactory file_and_stream_descriptors quiet_world
  = (opened_world, Ok (new_LoggerFactory parsed_file_and_stream))
  /\ exists ts es,
       new_LoggerFactory parsed_file_and_stream = new_LoggerFactory ts
       /\ length ts = 2%nat
       /\ next_stream opened_world = (next_stream quiet_world + 1)%nat
       /\ history opened_world = (history quiet_world ++ es)%list
       /\ opened_streams es = [1%nat]
       /\ released_streams es = []
       /\ private_streams ts = opened_streams es.
Proof.
  split; [reflexivity|].
  exact (createLoggerFactory_opens_one_stream_per_file
           file_and_stream_descriptors quiet_world opened_world
           (new_LoggerFactory parsed_file_and_stream) eq_refl).
Defined.

Lemma released_once_at_two_destroys :
  createLoggerFactory file_and_stream_descriptors quiet_world
  = (opened_world, Ok (new_LoggerFactory parsed_file_and_stream))
  /\ exists es,
       history opened_world = (history quiet_world ++ es)%list
       /\ List.NoDup (opened_streams es)
       /\ released_streams
            (history (fst (fst (run plain
                                  [op_createLogger "svc" None JNull; op_destroy;
                                   op_destroy]
                                  (opened_world,
                                   new_LoggerFactory parsed_file_and_stream)))))
          = (released_streams (history quiet_world) ++ opened_streams es)%list.
Proof.
  split; [reflexivity|].
  exact (opened_streams_released_once_by_destroy plain
           file_and_stream_descriptors quiet_world opened_world
           (new_LoggerFactory parsed_file_and_stream)
           [op_createLogger "svc" None JNull; op_destroy; op_destroy] eq_refl).
Defined.

Lemma validated_colour_at_hash_string :
  createLogger "svc" (Some "db") (JStr "#00ff7f") empty_factory
  = (raise_max 6 empty_factory, Ok (new_Logger "svc" (Some "db") (Some "00ff7f")))
  /\ is_hex6 "00ff7f" = true.
Proof.
  split; [reflexivity|].
  destruct (createLogger_returns_validated_colour "svc" (Some "db")
              (JStr "#00ff7f") empty_factory (raise_max 6 empty_factory)
              (new_Logger "svc" (Some "db") (Some "00ff7f")) eq_refl)
    as (_ & _ & Hhex & _).
  exact (Hhex "00ff7f" eq_refl).
Defined.

Lemma colour_spellings_at_orange :
  createLogger "svc" None (JArr [JNum 255; JNum 128; JNum 0]) empty_factory
  = createLogger "svc" None (JNum 16744448) empty_factory
  /\ createLogger "svc" None (JNum 16744448) empty_factory
     = createLogger "svc" None (JStr "ff8000") empty_factory
  /\ createLogger "svc" None (JStr "#ff8000") empty_factory
     = createLogger "svc" None (JStr "ff8000") empty_factory.
Proof.
  destruct (colour_spellings_agree "svc" None empty_factory) as (Hrgb & Hint & Hhash).
  split; [apply (Hrgb 255 128 0); lia|].
  split; [apply (Hint 16744448); lia|].
  apply (Hhash "ff8000"). reflexivity.
Defined.

Lemma integer_colour_at_zero_and_beyond :
  destroyed empty_factory = false
  /\ createLogger "svc" None (JNum 0) empty_factory
     = (raise_max 3 empty_factory, Ok (new_Logger "svc" None (Some "000000")))
  /\ createLogger "svc" None (JNum 16777216) empty_factory
     = (empty_factory,
        Throw (new_RangeError
          "Expected sourceColor to be in range 0 to 16777215, but received 16777216 instead")).
Proof.
  split; [reflexivity|]. split.
  - apply (proj1 (numeric_colour_accepted_iff_in_range "svc" None 0 empty_factory
                    eq_refl)). lia.
  - destruct (proj2 (numeric_colour_accepted_iff_in_range "svc" None 16777216
                       empty_factory eq_refl)) as (msg & Hthrow & Hmsg); [lia|].
    rewrite Hthrow, Hmsg by (unfold safe_integer; lia). reflexivity.
Defined.

Lemma failed_creation_at_unknown_type :
  createLoggerFactory file_then_unknown quiet_world
  = (opened_world, Throw (new_TypeError "Invalid target type: SYSLOG"))
  /\ exists es,
       history opened_world = (history quiet_world ++ es)%list
       /\ released_streams es = []
       /\ opened_streams es = [1%nat].
Proof.
  split; [reflexivity|].
  destruct (failed_creation_releases_nothing file_then_unknown quiet_world
              opened_world (new_TypeError "Invalid target type: SYSLOG") eq_refl)
    as (k & d & w1 & ts & es & _ & _ & _ & Hh & Hr & _).
  exists es. split; [exact Hh|]. split; [exact Hr|].
  cbn in Hh. rewrite <- Hh. reflexivity.
Defined.

Lemma lines_at_two_lines :
  has_newline "> " = false
  /\ rejoin_lines two_lines "> " = String "a" (String newline "> b")
  /\ split_lines ("> " +:+ rejoin_lines two_lines "> ") = [ "> a"; "> b" ].
Proof.
  split; [reflexivity|].
  destruct (every_line_carries_the_prefix two_lines "> ") as [Hjoin Hlines].
  split; [exact Hjoin|]. exact (Hlines eq_refl).
Defined.

Lemma uniform_width_at_info :
  createLogger "svc" (Some "db") JNull empty_factory
  = (raise_max 6 empty_factory, Ok (new_Logger "svc" (Some "db") None))
  /\ maxSourceLength (raise_max 6 empty_factory) <= 10
  /\ valid_rank 4
  /\ valid_time 0
  /\ exists prefix,
       String.length prefix = 36%nat
       /\ forall messages,
            format plain messages 4 "svc" (Some "db") None true 10 TEXT false 0
              false =
            Some (prefix +:+
                  rejoin_lines
                    (String.concat " "
                       (map (fun v => match v with
                                      | JPrim (PStr x) => x
                                      | _ => inspect plain v false
                                      end) messages))
                    prefix).
Proof.
  assert (Hm : maxSourceLength (raise_max 6 empty_factory) <= 10) by (cbn; lia).
  assert (Hl : valid_rank 4) by (unfold valid_rank; lia).
  assert (Ht : valid_time 0) by (unfold valid_time; lia).
  split; [reflexivity|]. split; [exact Hm|]. split; [exact Hl|]. split; [exact Ht|].
  exact (uniform_prefix_has_one_width plain "svc" (Some "db") JNull empty_factory
           (raise_max 6 empty_factory) (new_Logger "svc" (Some "db") None)
           10 4 0 eq_refl Hm Hl Ht).
Defined.

Lemma colourless_at_marking_chalk :
  format plain [JStr "up"] 3 "svc" None (Some "00ff7f") true 3 TEXT false 0 false
  = format marking [JStr "up"] 3 "svc" None None true 3 TEXT false 0 false
  /\ format marking [JStr "up"] 3 "svc" None None true 3 TEXT false 0 false
     = Some "[00:00:00.000] [WARN]  [svc] up".
Proof.
  split; [|reflexivity].
  apply colourless_target_is_never_styled; intros; reflexivity.
Defined.

Lemma rendered_text_at_warn :
  let line :=
    "[00:00:00.001] [ERROR] [svc] Failed to log to target 0: [object Object]" in
  let call := Logger_log 3 plain first_fails_fast 0 some_logger
                (new_LoggerFactory log_then_stream) [JStr "x"] in
  valid_rank 3
  /\ In (1, stream_write 0 (line +:+ String newline "")) (touches call)
  /\ exists ts v msgs lvl text,
       targets (new_LoggerFactory log_then_stream) = Some ts
       /\ In v ts
       /\ ((msgs = [JStr "x"] /\ lvl = 3 /\ 1 = 0)
           \/ exists i err,
                msgs = failure_messages i 0 3 [JStr "x"] err
                /\ lvl = Z.min 3 levelNums.ERROR)
       /\ valid_rank lvl
       /\ format plain msgs lvl (component some_logger) (source some_logger)
            (logger_color some_logger) (t_uniform (base v))
            (maxSourceLength (new_LoggerFactory log_then_stream))
            (t_format (base v)) (t_color (base v)) 1
            (t_fullTimestamps (base v)) = Some text
       /\ match kind v with
          | STREAM stream _ =>
              stream_write 0 (line +:+ String newline "")
              = stream_write stream (text +:+ String newline "")
          | FUNCTION func =>
              stream_write 0 (line +:+ String newline "") = func_call func (Some text)
          | HTTP url options =>
              stream_write 0 (line +:+ String newline "")
              = request_send false url options (Some text)
          | HTTPS url options =>
              stream_write 0 (line +:+ String newline "")
              = request_send true url options (Some text)
          end.
Proof.
  intros line call.
  assert (Hl : valid_rank 3) by (unfold valid_rank; lia).
  assert (Hin : In (1, stream_write 0 (line +:+ String newline "")) (touches call)).
  { vm_compute. right. right. left. reflexivity. }
  split; [exact Hl|]. split; [exact Hin|].
  exact (methods_hand_rendered_text_to_own_sinks plain first_fails_fast 0
           some_logger (new_LoggerFactory log_then_stream) [JStr "x"] 3 Hl
           1 (stream_write 0 (line +:+ String newline "")) Hin).
Defined.

Lemma fulfils_at_recovered_call :
  let res := _log 2 plain first_fails_fast [] false 0 (Some log_then_stream)
               [JStr "x"] levelNums.WARN some_logger 0 in
  settle 0 res = Some (Fulfilled 6 (JArr [JArr [JUndefined; JNull]]))
  /\ (exists vs,
        JArr [JArr [JUndefined; JNull]] = JArr vs
        /\ length vs = length (tasks_of res))
  /\ forall t, In t (tasks_of res) ->
       task_finished t <= 6
       /\ forall e rec t',
            task_handling t = Relogged e rec -> In t' (tasks_of rec) ->
            task_finished t' <= 6.
Proof.
  intros res.
  assert (Hful : settle 0 res = Some (Fulfilled 6 (JArr [JArr [JUndefined; JNull]])))
    by reflexivity.
  split; [exact Hful|].
  destruct (call_fulfils_after_everything_it_started 0 plain first_fails_fast [] 0
              log_then_stream [JStr "x"] levelNums.WARN some_logger 0 6
              (JArr [JArr [JUndefined; JNull]]) Hful)
    as (_ & Hvs & _ & Hall).
  split; [exact Hvs|exact Hall].
Defined.

Lemma fatal_at_file_and_stream :
  createLoggerFactory file_and_stream_descriptors quiet_world
  = (opened_world, Ok (new_LoggerFactory parsed_file_and_stream))
  /\ map task_index
       (tasks_of (Logger_fatal plain calm 0 some_logger
                    (new_LoggerFactory parsed_file_and_stream) [JStr "x"]))
     = [0%nat; 1%nat].
Proof.
  split; [reflexivity|].
  exact (proj2 (fatal_reaches_every_target file_and_stream_descriptors quiet_world
                  opened_world (new_LoggerFactory parsed_file_and_stream) eq_refl)
           plain calm 0 some_logger (new_LoggerFactory parsed_file_and_stream)
           [JStr "x"] eq_refl eq_refl).
Defined.

Lemma post_promise_at_begun_response :
  let outcome evs :=
    p_outcome (snd (postRequest true "logs.example/in" "x" postOptions evs)) in
  forallb is_progress begun_response = true
  /\ outcome begun_response = None
  /\ outcome (begun_response ++ [req_close; req_error (JStr "late")])%list
     = Some (Throw (new_Error "No response received")).
Proof.
  intros outcome. split; [reflexivity|].
  destruct (proj2 (post_promise_settles_once true "logs.example/in" "x"
                     postOptions begun_response [req_error (JStr "late")])
              eq_refl) as (Hnone & Hclose & _).
  split; [exact Hnone|exact Hclose].
Defined.

Lemma colour_acceptance_at_hash_and_true :
  destroyed empty_factory = false
  /\ (exists lg,
        createLogger "svc" None (JStr "#") empty_factory
        = (raise_max (sourceLength "svc" None) empty_factory, Ok lg))
  /\ createLogger "svc" None (JPrim (PBool true)) empty_factory
     = (empty_factory, Throw (new_TypeError "color.startsWith is not a function")).
Proof.
  split; [reflexivity|]. split.
  - apply (proj1 (proj1 (createLogger_accepts_exactly "svc" None (JStr "#")
                           empty_factory eq_refl))).
    do 4 right. left. reflexivity.
  - reflexivity.
Defined.

Lemma short_timestamp_at_next_day :
  valid_time 1000
  /\ valid_time (1000 + 1 * 86400000)
  /\ String.length (formatTime plain 1000 false) = 12%nat
  /\ formatTime plain (1000 + 1 * 86400000) false = formatTime plain 1000 false.
Proof.
  assert (H1 : valid_time 1000) by (unfold valid_time; lia).
  assert (H2 : valid_time (1000 + 1 * 86400000)) by (unfold valid_time; lia).
  split; [exact H1|]. split; [exact H2|].
  exact (short_timestamp_is_time_of_day plain 1000 1 H1 H2).
Defined.

Lemma createStream_at_nul_and_home_paths :
  createStream (PathString (String "a" (String "000"%char "b.log"))) false
    quiet_world
  = (quiet_world,
     Throw (new_TypeError
       "The argument 'path' must be a string, Uint8Array, or URL without null bytes"))
  /\ createStream (PathString "~\logs\app.log") true quiet_world
     = ({| homedir := "/home/app"; fs_refuses := nul_refused; next_stream := 2;
           history := [ createWriteStream 1 (PathString "/home/app/logs/app.log")
                          "ax" ] |},
        Ok 1%nat).
Proof.
  split.
  - exact (proj1 (proj2 (createStream_opens_normalized_path
                           (String "a" (String "000"%char "b.log")) false
                           quiet_world))).
  - exact (proj1 (proj2 (createStream_opens_normalized_path "~\logs\app.log" true
                           quiet_world))).
Defined.
